(** * URL-driven report view: query-string codec, filter editor and fetch handling

    A shallow embedding of [Report.jsx], [FilterComponent.jsx], the table's
    two pagination handlers, [mockApi.js] (its option table, its records and
    [mockGetReport]) and the wiring of [SchoolDataPage.jsx], with the parts
    of the JavaScript platform these files lean on:

    - numbers are IEEE doubles; the component only ever holds [NaN], the
      infinities and integer-valued doubles, so a number is one of those
      and every arithmetic result is rounded to 53 significant bits;
    - strings are byte sequences (the UTF-8 form of the text).  All the
      string operations of the source ([endsWith], [slice], [includes],
      comparison) act on ASCII delimiters, so they read the same on bytes;
      the replacement of ill-formed UTF-8 by U+FFFD when a query string is
      parsed is not modelled;
    - an object literal used as a dictionary is the ordered list of its own
      properties (array-index keys first, ascending, then the other keys in
      creation order) in front of [Object.prototype]. *)

From Stdlib Require Import ZArith NArith Lia List Bool Ascii String.
From Stdlib Require Import DecimalString DecimalN Sorting.Sorted.
Import ListNotations.

Open Scope string_scope.
Open Scope Z_scope.

(** ** Results of code that may throw *)

Inductive result (A : Type) : Type :=
| Ok (a : A)
| TypeError.
Arguments Ok {A} a.
Arguments TypeError {A}.

Definition bind {A B} (r : result A) (k : A -> result B) : result B :=
  match r with
  | Ok a => k a
  | TypeError => TypeError
  end.

Notation "x <- r ;; k" := (bind r (fun x => k))
  (at level 61, r at next level, right associativity).

(** ** Numbers *)

Module Num.

(** The doubles the component can hold.  [Int 0] stands for both zeros:
    no path of the source tells them apart ([Math.max(1, -0)] is [1]). *)
Inductive number : Type :=
| NaN
| PosInf
| NegInf
| Int (z : Z).

Definition two53 : Z := 2 ^ 53.
Definition overflow : Z := 2 ^ 1024.

(** Round a positive integer to 53 significant bits, ties to even. *)
Definition round53 (z : Z) : Z :=
  let e := Z.log2 z - 52 in
  if e <=? 0 then z
  else
    let q := Z.shiftr z e in
    let r := z - Z.shiftl q e in
    let half := Z.shiftl 1 (e - 1) in
    let q' := if (half <? r) || ((r =? half) && Z.odd q) then q + 1 else q in
    Z.shiftl q' e.

(** The double nearest to a mathematical integer. *)
Definition to_double (z : Z) : number :=
  let m := round53 (Z.abs z) in
  if overflow <=? m then (if z <? 0 then NegInf else PosInf)
  else Int (Z.sgn z * m).

(** [a + b] *)
Definition add (a b : number) : number :=
  match a, b with
  | NaN, _ | _, NaN => NaN
  | PosInf, NegInf | NegInf, PosInf => NaN
  | PosInf, _ | _, PosInf => PosInf
  | NegInf, _ | _, NegInf => NegInf
  | Int x, Int y => to_double (x + y)
  end.

(** [a - b] *)
Definition sub (a b : number) : number :=
  match a, b with
  | NaN, _ | _, NaN => NaN
  | PosInf, PosInf | NegInf, NegInf => NaN
  | PosInf, _ | _, NegInf => PosInf
  | NegInf, _ | _, PosInf => NegInf
  | Int x, Int y => to_double (x - y)
  end.

(** [a * b]; zero times an infinity is [NaN]. *)
Definition mul (a b : number) : number :=
  match a, b with
  | NaN, _ | _, NaN => NaN
  | Int x, Int y => to_double (x * y)
  | PosInf, PosInf | NegInf, NegInf => PosInf
  | PosInf, NegInf | NegInf, PosInf => NegInf
  | PosInf, Int x | Int x, PosInf =>
      if x =? 0 then NaN else if x <? 0 then NegInf else PosInf
  | NegInf, Int x | Int x, NegInf =>
      if x =? 0 then NaN else if x <? 0 then PosInf else NegInf
  end.

(** [Math.max(a, b)]: [NaN] wins. *)
Definition max (a b : number) : number :=
  match a, b with
  | NaN, _ | _, NaN => NaN
  | PosInf, _ | _, PosInf => PosInf
  | NegInf, x | x, NegInf => x
  | Int x, Int y => Int (Z.max x y)
  end.

(** [Math.min(a, b)]: [NaN] wins. *)
Definition min (a b : number) : number :=
  match a, b with
  | NaN, _ | _, NaN => NaN
  | NegInf, _ | _, NegInf => NegInf
  | PosInf, x | x, PosInf => x
  | Int x, Int y => Int (Z.min x y)
  end.

(** [a < b]; every comparison with [NaN] is false. *)
Definition lt (a b : number) : bool :=
  match a, b with
  | NaN, _ | _, NaN => false
  | _, NegInf => false
  | NegInf, _ => true
  | PosInf, _ => false
  | Int _, PosInf => true
  | Int x, Int y => x <? y
  end.

(** [a === b] on numbers. *)
Definition strict_eq (a b : number) : bool :=
  match a, b with
  | PosInf, PosInf | NegInf, NegInf => true
  | Int x, Int y => x =? y
  | _, _ => false
  end.

(** [a > b] *)
Definition gt (a b : number) : bool := lt b a.

(** [a >= b] *)
Definition ge (a b : number) : bool := lt b a || strict_eq a b.

(** Truthiness of a number: [0] and [NaN] are falsy. *)
Definition truthy (a : number) : bool :=
  match a with
  | NaN => false
  | Int z => negb (z =? 0)
  | _ => true
  end.

(** *** Division followed by [Math.ceil] *)

(** The quotient [a / b] of two positive integers, correctly rounded to
    53 bits, as a pair [(m, s)] standing for [m / 2^s].  The quotient is
    first taken with 55 bits or more and a sticky bit for the remainder,
    so that [round53] sees on which side of a tie it lies. *)
Definition div_round (a b : Z) : Z * Z :=
  let s := 55 + Z.log2 b in
  let n := a * 2 ^ s in
  let sticky := if n mod b =? 0 then 0 else 1 in
  (round53 (2 * (n / b) + sticky), s + 1).

(** [Math.ceil] and [Math.floor] of the double [m / 2^s]. *)
Definition ceil_dyadic (ms : Z * Z) : Z :=
  let '(m, s) := ms in (m + 2 ^ s - 1) / 2 ^ s.

Definition floor_dyadic (ms : Z * Z) : Z :=
  let '(m, s) := ms in m / 2 ^ s.

(** [Math.ceil(a / b)].  A zero divisor is taken as [+0]. *)
Definition ceil_div (a b : number) : number :=
  match a, b with
  | NaN, _ | _, NaN => NaN
  | PosInf, Int y => if y <? 0 then NegInf else PosInf
  | NegInf, Int y => if y <? 0 then PosInf else NegInf
  | (PosInf | NegInf), (PosInf | NegInf) => NaN
  | Int _, (PosInf | NegInf) => Int 0
  | Int x, Int y =>
      if y =? 0 then
        (if x =? 0 then NaN else if x <? 0 then NegInf else PosInf)
      else if x =? 0 then Int 0
      else
        let q := div_round (Z.abs x) (Z.abs y) in
        if Z.sgn x =? Z.sgn y then to_double (ceil_dyadic q)
        else to_double (- floor_dyadic q)
  end.

End Num.
Export Num(number(..), two53, overflow, round53, to_double, div_round, ceil_dyadic, floor_dyadic, ceil_div).

(** ** Strings *)

Module Str.

(** Decimal numeral of a natural number, without leading zeros. *)
Definition decimal (n : N) : string :=
  NilEmpty.string_of_uint (N.to_uint n).

Definition digit_of (c : ascii) : option (Decimal.uint -> Decimal.uint) :=
  match c with
  | "0"%char => Some Decimal.D0 | "1"%char => Some Decimal.D1
  | "2"%char => Some Decimal.D2 | "3"%char => Some Decimal.D3
  | "4"%char => Some Decimal.D4 | "5"%char => Some Decimal.D5
  | "6"%char => Some Decimal.D6 | "7"%char => Some Decimal.D7
  | "8"%char => Some Decimal.D8 | "9"%char => Some Decimal.D9
  | _ => None
  end.

(** The longest prefix of decimal digits. *)
Fixpoint take_digits (s : string) : Decimal.uint :=
  match s with
  | String c r =>
      match digit_of c with
      | Some d => d (take_digits r)
      | None => Decimal.Nil
      end
  | EmptyString => Decimal.Nil
  end.

Definition byte (c : ascii) : N := N_of_ascii c.

(** One-byte white space and line terminators: TAB, LF, VT, FF, CR, SP. *)
Definition ws1 (c : ascii) : bool :=
  let b := byte c in ((9 <=? b) && (b <=? 13) || (b =? 32))%N.

(** U+00A0 in UTF-8. *)
Definition ws2 (c1 c2 : ascii) : bool :=
  ((byte c1 =? 194) && (byte c2 =? 160))%N.

(** U+1680, U+2000..U+200A, U+2028, U+2029, U+202F, U+205F, U+3000 and
    U+FEFF in UTF-8. *)
Definition ws3 (c1 c2 c3 : ascii) : bool :=
  let '(a, b, c) := (byte c1, byte c2, byte c3) in
  ((a =? 225) && (b =? 154) && (c =? 128)
   || (a =? 226) && (b =? 128)
      && ((128 <=? c) && (c <=? 138) || (c =? 168) || (c =? 169) || (c =? 175))
   || (a =? 226) && (b =? 129) && (c =? 159)
   || (a =? 227) && (b =? 128) && (c =? 128)
   || (a =? 239) && (b =? 187) && (c =? 191))%N.

(** Drop leading white space, as [parseInt] does before reading. *)
Fixpoint trim_start (s : string) : string :=
  match s with
  | String c1 r1 =>
      if ws1 c1 then trim_start r1
      else
        match r1 with
        | String c2 r2 =>
            if ws2 c1 c2 then trim_start r2
            else
              match r2 with
              | String c3 r3 => if ws3 c1 c2 c3 then trim_start r3 else s
              | EmptyString => s
              end
        | EmptyString => s
        end
  | EmptyString => s
  end.

(** [s.endsWith(suffix)] *)
Fixpoint ends_with (suffix s : string) : bool :=
  if String.eqb s suffix then true
  else
    match s with
    | String _ r => ends_with suffix r
    | EmptyString => false
    end.

(** [s.slice(0, -n)] *)
Definition drop_last (n : nat) (s : string) : string :=
  substring 0 (String.length s - n) s.

(** [s.slice(1)] *)
Definition slice1 (s : string) : string :=
  match s with
  | String _ r => r
  | EmptyString => EmptyString
  end.

(** [list.includes(s)] on strings. *)
Definition includes (l : list string) (s : string) : bool :=
  existsb (String.eqb s) l.

(** Remove the zeros that end a numeral. *)
Fixpoint strip_zeros (s : string) : string :=
  match s with
  | EmptyString => EmptyString
  | String c r =>
      match strip_zeros r with
      | EmptyString => if Ascii.eqb c "0" then EmptyString else String c EmptyString
      | r' => String c r'
      end
  end.

End Str.

(** ** [parseInt(s, 10)] and [Number.prototype.toString] *)

Module Conv.
Import Str.

(** [parseInt(s, 10)]: white space, an optional sign, then the longest
    run of digits; [NaN] when there is no digit.  The exact value of the
    run is rounded to a double (the standard lets an engine read the
    digits after the twentieth as zeros; the engines in use round the
    exact value). *)
Definition parseInt (s : string) : number :=
  let t := trim_start s in
  let '(neg, body) :=
    match t with
    | String "-" r => (true, r)
    | String "+" r => (false, r)
    | _ => (false, t)
    end in
  match take_digits body with
  | Decimal.Nil => NaN
  | d =>
      let n := Z.of_N (N.of_uint d) in
      to_double (if neg then - n else n)
  end.

Definition num_digits (x : Z) : Z :=
  Z.of_nat (String.length (decimal (Z.to_N x))).

(** The decimal integers with [k] significant digits next to [x] that
    still round to the double [x]; the closer one when both do. *)
Definition near (x k : Z) : option Z :=
  let m := num_digits x - k in
  if m <? 0 then None
  else
    let lo := x / 10 ^ m * 10 ^ m in
    let hi := lo + 10 ^ m in
    let ok v := match to_double v with Int y => y =? x | _ => false end in
    match ok lo, ok hi with
    | true, true =>
        Some (if x - lo <? hi - x then lo
              else if hi - x <? x - lo then hi
              else if Z.even (x / 10 ^ m) then lo else hi)
    | true, false => Some lo
    | false, true => Some hi
    | false, false => None
    end.

Fixpoint shortest_from (fuel : nat) (k x : Z) : Z :=
  match fuel with
  | O => x
  | S f =>
      match near x k with
      | Some v => v
      | None => shortest_from f (k + 1) x
      end
  end.

(** The decimal integer with the fewest significant digits that rounds
    to the double [x] (seventeen digits always suffice). *)
Definition shortest (x : Z) : Z := shortest_from 17 1 x.

(** Digits of a positive integer-valued double: plain below [1e21],
    exponent notation from there on. *)
Definition render (x : Z) : string :=
  if x <? two53 then decimal (Z.to_N x)
  else
    let ds := decimal (Z.to_N (shortest x)) in
    let n := String.length ds in
    if (n <=? 21)%nat then ds
    else
      match strip_zeros ds with
      | String c EmptyString =>
          String c ("e+" ++ decimal (N.of_nat (n - 1)))
      | String c r =>
          String c ("." ++ r ++ "e+" ++ decimal (N.of_nat (n - 1)))
      | EmptyString => ds
      end.

(** [x.toString()] *)
Definition toString (x : number) : string :=
  match x with
  | NaN => "NaN"
  | PosInf => "Infinity"
  | NegInf => "-Infinity"
  | Int z => if z <? 0 then "-" ++ render (- z) else render z
  end.

End Conv.

(** ** [URLSearchParams]: the application/x-www-form-urlencoded codec *)

Module URLSearchParams.

(** The list of name/value pairs held by the object. *)
Definition t : Type := list (string * string).

Definition hex_value (c : ascii) : option N :=
  let b := Str.byte c in
  if ((48 <=? b) && (b <=? 57))%N then Some (b - 48)%N
  else if ((65 <=? b) && (b <=? 70))%N then Some (b - 55)%N
  else if ((97 <=? b) && (b <=? 102))%N then Some (b - 87)%N
  else None.

(** Percent-decoding: [%XY] with two hexadecimal digits is one byte, any
    other [%] stands for itself. *)
Fixpoint percent_decode (s : string) : string :=
  match s with
  | EmptyString => EmptyString
  | String c r =>
      if Ascii.eqb c "%" then
        match r with
        | String h1 (String h2 r') =>
            match hex_value h1, hex_value h2 with
            | Some a, Some b =>
                String (ascii_of_N (16 * a + b)) (percent_decode r')
            | _, _ => String c (percent_decode r)
            end
        | _ => String c (percent_decode r)
        end
      else String c (percent_decode r)
  end.

Fixpoint plus_to_space (s : string) : string :=
  match s with
  | EmptyString => EmptyString
  | String c r =>
      String (if Ascii.eqb c "+" then " "%char else c) (plus_to_space r)
  end.

(** Strict split on a separator: [n] separators give [n + 1] pieces. *)
Fixpoint split (sep : ascii) (s : string) : list string :=
  match s with
  | EmptyString => [EmptyString]
  | String c r =>
      if Ascii.eqb c sep then EmptyString :: split sep r
      else
        match split sep r with
        | h :: t => String c h :: t
        | [] => [String c EmptyString]
        end
  end.

(** Cut at the first [=]; a piece without [=] has the empty value. *)
Fixpoint cut (s : string) : string * string :=
  match s with
  | EmptyString => (EmptyString, EmptyString)
  | String c r =>
      if Ascii.eqb c "=" then (EmptyString, r)
      else let '(n, v) := cut r in (String c n, v)
  end.

Definition decode (s : string) : string := percent_decode (plus_to_space s).

Definition parse_piece (p : string) : string * string :=
  let '(n, v) := cut p in (decode n, decode v).

(** The urlencoded parser: empty pieces are skipped. *)
Definition parse (s : string) : t :=
  map parse_piece
      (filter (fun p => negb (String.eqb p EmptyString)) (split "&" s)).

(** [new URLSearchParams(init)]: one leading [?] is removed. *)
Definition create (init : string) : t :=
  match init with
  | String "?" r => parse r
  | _ => parse init
  end.

(** [params.get(name)]: the first value under [name], or [null]. *)
Fixpoint get (params : t) (name : string) : option string :=
  match params with
  | [] => None
  | (n, v) :: r => if String.eqb n name then Some v else get r name
  end.

(** [params.append(name, value)] *)
Definition append (params : t) (name value : string) : t :=
  (params ++ [(name, value)])%list.

(** [params.set(name, value)]: the first pair under [name] takes the
    value and the others go; appended when there is none. *)
Fixpoint set (params : t) (name value : string) : t :=
  match params with
  | [] => [(name, value)]
  | (n, v) :: r =>
      if String.eqb n name then
        (n, value) :: filter (fun p => negb (String.eqb (fst p) name)) r
      else (n, v) :: set r name value
  end.

(** Bytes that the serializer leaves as they are: ASCII letters and
    digits, [*], [-], [.] and [_]. *)
Definition unreserved (c : ascii) : bool :=
  let b := Str.byte c in
  ((48 <=? b) && (b <=? 57) || (65 <=? b) && (b <=? 90)
   || (97 <=? b) && (b <=? 122)
   || (b =? 42) || (b =? 45) || (b =? 46) || (b =? 95))%N.

Definition hex_digit (n : N) : ascii :=
  if (n <? 10)%N then ascii_of_N (48 + n) else ascii_of_N (55 + n).

Fixpoint encode (s : string) : string :=
  match s with
  | EmptyString => EmptyString
  | String c r =>
      if Ascii.eqb c " " then String "+" (encode r)
      else if unreserved c then String c (encode r)
      else
        String "%"
          (String (hex_digit (Str.byte c / 16))
             (String (hex_digit (Str.byte c mod 16)) (encode r)))
  end.

Definition join (pieces : list string) : string :=
  match pieces with
  | [] => EmptyString
  | p :: r => fold_left (fun acc q => acc ++ "&" ++ q) r p
  end.

(** [params.toString()] *)
Definition toString (params : t) : string :=
  join (map (fun p => encode (fst p) ++ "=" ++ encode (snd p)) params).

End URLSearchParams.

(** ** Object literals used as dictionaries *)

Module Obj.

(** The own properties of an object, in the order [Object.entries]
    lists them. *)
Definition t (V : Type) : Type := list (string * V).

(** A key is an array index when it is the canonical numeral of an
    integer below [2^32 - 1]. *)
Definition array_index (k : string) : option N :=
  match NilEmpty.uint_of_string k with
  | Some d =>
      let n := N.of_uint d in
      if String.eqb (Str.decimal n) k && (n <? 4294967295)%N then Some n
      else None
  | None => None
  end.

(** The properties every object literal inherits from
    [Object.prototype]; each of them holds a function or an object. *)
Definition prototype_names : list string :=
  [ "constructor"; "__defineGetter__"; "__defineSetter__";
    "hasOwnProperty"; "__lookupGetter__"; "__lookupSetter__";
    "isPrototypeOf"; "propertyIsEnumerable"; "toString"; "valueOf";
    "__proto__"; "toLocaleString" ].

Definition inherited (k : string) : bool := Str.includes prototype_names k.

Section Props.
Context {V : Type}.

Fixpoint own (o : t V) (k : string) : option V :=
  match o with
  | [] => None
  | (k', v) :: r => if String.eqb k' k then Some v else own r k
  end.

(** What reading [o[k]] finds. *)
Inductive lookup : Type :=
| Own (v : V)
| Inherited
| Undefined.

Definition get (o : t V) (k : string) : lookup :=
  match own o k with
  | Some v => Own v
  | None => if inherited k then Inherited else Undefined
  end.

Fixpoint replace (o : t V) (k : string) (v : V) : t V :=
  match o with
  | [] => []
  | (k', v') :: r =>
      if String.eqb k' k then (k', v) :: r else (k', v') :: replace r k v
  end.

(** A new array-index key goes before the first key that is not an
    array index or is a larger one. *)
Fixpoint insert_index (o : t V) (i : N) (k : string) (v : V) : t V :=
  match o with
  | [] => [(k, v)]
  | (k', v') :: r =>
      match array_index k' with
      | Some j =>
          if (i <? j)%N then (k, v) :: o
          else (k', v') :: insert_index r i k v
      | None => (k, v) :: o
      end
  end.

(** Define the own property [k]: an existing one keeps its place, a
    new one goes where the enumeration order puts it.  This is what
    a computed key [{[k]: v}] and a spread copy do. *)
Definition define (o : t V) (k : string) (v : V) : t V :=
  match own o k with
  | Some _ => replace o k v
  | None =>
      match array_index k with
      | Some i => insert_index o i k v
      | None => (o ++ [(k, v)])%list
      end
  end.

(** The assignment [o[k] = v].  Assigning [__proto__] runs the
    inherited setter and creates no own property. *)
Definition assign (o : t V) (k : string) (v : V) : t V :=
  if String.eqb k "__proto__" then
    match own o k with
    | Some _ => replace o k v
    | None => o
    end
  else define o k v.

(** [Object.entries(o)] *)
Definition entries (o : t V) : list (string * V) := o.

End Props.
Arguments lookup V : clear implicits.

End Obj.

(** ** [Map] and [Set] of strings, in insertion order *)

Module Coll.

(** [set.add(v)] *)
Definition set_add (s : list string) (v : string) : list string :=
  if Str.includes s v then s else (s ++ [v])%list.

(** [values.forEach(v => set.add(v))] *)
Definition set_add_all (s values : list string) : list string :=
  fold_left set_add values s.

(** [new Set(values)] *)
Definition new_Set (values : list string) : list string :=
  set_add_all [] values.

(** [set.has(v)] *)
Definition set_has (s : list string) (v : string) : bool := Str.includes s v.

(** [map.set(k, v)] *)
Definition map_set {V} (m : list (string * V)) (k : string) (v : V)
  : list (string * V) :=
  match Obj.own m k with
  | Some _ => Obj.replace m k v
  | None => (m ++ [(k, v)])%list
  end.

(** [map.get(k)] *)
Definition map_get {V} (m : list (string * V)) (k : string) : option V :=
  Obj.own m k.

(** An index argument of [Array.prototype.slice] on an array of length
    [len]: [NaN] counts as 0, a negative index counts from the end, and
    the result is kept within [0..len]. *)
Definition relative_index (len : Z) (n : number) : Z :=
  match n with
  | NaN => 0
  | NegInf => 0
  | PosInf => len
  | Int k => if k <? 0 then Z.max (len + k) 0 else Z.min k len
  end.

(** [l.slice(start, stop)] *)
Definition slice {A} (l : list A) (start stop : number) : list A :=
  let len := Z.of_nat (List.length l) in
  let k := relative_index len start in
  let final := relative_index len stop in
  firstn (Z.to_nat (Z.max (final - k) 0)) (skipn (Z.to_nat k) l).

End Coll.

(** ** data/mockApi.js: the option source and the mock report *)

Module Api.

Definition getMockFilterOptions (filterName : string) : list string :=
  if String.eqb filterName "class" then ["5"; "6"; "7"; "8"; "9"; "10"]
  else if String.eqb filterName "gender" then ["Male"; "Female"]
  else if String.eqb filterName "house" then ["Red"; "Green"; "Blue"; "Yellow"]
  else [].

(** One record of the hard-coded school data. *)
Record student : Type := Student {
  id : Z;
  name : string;
  class : Z;
  gender : string;
  house : string
}.

Definition allSchoolData : list student :=
  [
    Student 1 "Alice Smith" 8 "Female" "Red";
    Student 2 "Bob Johnson" 9 "Male" "Green";
    Student 3 "Charlie Brown" 7 "Male" "Blue";
    Student 4 "Diana Prince" 10 "Female" "Yellow";
    Student 5 "Eve Adams" 6 "Female" "Red";
    Student 6 "Frank White" 5 "Male" "Green";
    Student 7 "Grace Lee" 8 "Female" "Blue";
    Student 8 "Henry King" 9 "Male" "Yellow";
    Student 9 "Ivy Queen" 7 "Female" "Red";
    Student 10 "Jack Sparrow" 10 "Male" "Green";
    Student 11 "Karen Davis" 6 "Female" "Blue";
    Student 12 "Liam Neeson" 5 "Male" "Yellow";
    Student 13 "Mia Khalifa" 8 "Female" "Red";
    Student 14 "Noah Centineo" 9 "Male" "Green";
    Student 15 "Olivia Rodrigo" 7 "Female" "Blue";
    Student 16 "Peter Parker" 10 "Male" "Yellow";
    Student 17 "Quinn Fabray" 6 "Female" "Red";
    Student 18 "Ryan Gosling" 5 "Male" "Green";
    Student 19 "Sarah Connor" 8 "Female" "Blue";
    Student 20 "Tom Holland" 9 "Male" "Yellow";
    Student 21 "Uma Thurman" 7 "Female" "Red";
    Student 22 "Victor Stone" 10 "Male" "Green";
    Student 23 "Wendy Darling" 6 "Female" "Blue";
    Student 24 "Xavier Woods" 5 "Male" "Yellow";
    Student 25 "Yara Greyjoy" 8 "Female" "Red";
    Student 26 "Zack Morris" 9 "Male" "Green"
  ].

(** The parameters that [mockGetReport] destructures, with the types its
    documentation gives them; [None] is a parameter left [undefined].
    [p_gender] and [p_house] are the parameters [gender] and [house], whose
    names the fields of a record already bear. *)
Record params : Type := Params {
  page : number;
  limit : number;
  studentClass : option (list string);
  p_gender : option (list string);
  p_house : option (list string)
}.

(** [v && Array.isArray(v) && v.length > 0] *)
Definition selected (v : option (list string)) : bool :=
  match v with
  | Some (_ :: _) => true
  | _ => false
  end.

(** The array behind a parameter that [selected] accepted. *)
Definition values_of (v : option (list string)) : list string :=
  match v with
  | Some l => l
  | None => []
  end.

(** The callback of [allSchoolData.filter]. *)
Definition matches (p : params) (item : student) : bool :=
  let match_ := true in
  let match_ :=
    if selected (studentClass p) then
      match_ && Str.includes (values_of (studentClass p)) (Conv.toString (Int (class item)))
    else match_ in
  let match_ :=
    if selected (p_gender p) then
      match_ && Str.includes (values_of (p_gender p)) (gender item)
    else match_ in
  let match_ :=
    if selected (p_house p) then
      match_ && Str.includes (values_of (p_house p)) (house item)
    else match_ in
  match_.

Definition filteredData (p : params) : list student :=
  filter (matches p) allSchoolData.

(** A column of the table: [{ key, title }]. *)
Record column : Type := Column {
  key : string;
  title : string
}.

(** The object that [mockGetReport] resolves with. *)
Record report : Type := Report {
  dataMapping : list column;
  schoolInfo : list student;
  total : number
}.

(** [mockGetReport]: filter, count, then cut the requested page out.  The
    simulated delay always ends, so the promise always resolves. *)
Definition mockGetReport (p : params) : report :=
  let filteredData := filteredData p in
  let totalItems := Int (Z.of_nat (List.length filteredData)) in
  let startIndex := Num.mul (Num.sub (page p) (Int 1)) (limit p) in
  let paginatedData :=
    Coll.slice filteredData startIndex (Num.add startIndex (limit p)) in
  let dataMapping :=
    [ Column "id" "ID"; Column "name" "Name"; Column "class" "Class";
      Column "gender" "Gender"; Column "house" "House" ] in
  Report dataMapping paginatedData totalItems.

End Api.

(** ** The state of the view *)

(** One fragment [{[key]: values}] of [appliedFilter].  Every writer of
    [appliedFilter] ([parseUrlParams], [applyFilters], [resetFilters])
    builds fragments with a single computed key. *)
Definition fragment : Type := string * list string.

Section View.

(** Column descriptors and row records come from the data provider and
    are only stored and handed to the table. *)
Context {Col Row : Type}.

(** The [useState] cells of [Report], and [tempFilters] of the
    [FilterComponent] it renders while [filterOpen] holds. *)
Record view : Type := View {
  snackbarOpen : bool;
  snackbarMessage : string;
  snackbarSeverity : string;
  showLoader : bool;
  pageNumber : number;
  itemsPerPage : number;
  columnTitles : list Col;
  rowsData : list Row;
  totalItems : number;
  appliedFilter : list fragment;
  filterOpen : bool;
  initialized : bool;
  tempFilters : Obj.t (list string)
}.

(** The first render: the initial value of every cell. *)
Definition mount : view :=
  View false EmptyString "info" true (Int 0) (Int 20) [] [] (Int 0) [] false false [].

Definition setSnackbarOpen (b : bool) (s : view) : view :=
  View b (snackbarMessage s) (snackbarSeverity s) (showLoader s)
    (pageNumber s) (itemsPerPage s) (columnTitles s) (rowsData s)
    (totalItems s) (appliedFilter s) (filterOpen s) (initialized s)
    (tempFilters s).

Definition setSnackbarMessage (m : string) (s : view) : view :=
  View (snackbarOpen s) m (snackbarSeverity s) (showLoader s)
    (pageNumber s) (itemsPerPage s) (columnTitles s) (rowsData s)
    (totalItems s) (appliedFilter s) (filterOpen s) (initialized s)
    (tempFilters s).

Definition setSnackbarSeverity (v : string) (s : view) : view :=
  View (snackbarOpen s) (snackbarMessage s) v (showLoader s)
    (pageNumber s) (itemsPerPage s) (columnTitles s) (rowsData s)
    (totalItems s) (appliedFilter s) (filterOpen s) (initialized s)
    (tempFilters s).

Definition setShowLoader (b : bool) (s : view) : view :=
  View (snackbarOpen s) (snackbarMessage s) (snackbarSeverity s) b
    (pageNumber s) (itemsPerPage s) (columnTitles s) (rowsData s)
    (totalItems s) (appliedFilter s) (filterOpen s) (initialized s)
    (tempFilters s).

Definition setPageNumber (n : number) (s : view) : view :=
  View (snackbarOpen s) (snackbarMessage s) (snackbarSeverity s)
    (showLoader s) n (itemsPerPage s) (columnTitles s) (rowsData s)
    (totalItems s) (appliedFilter s) (filterOpen s) (initialized s)
    (tempFilters s).

Definition setItemsPerPage (n : number) (s : view) : view :=
  View (snackbarOpen s) (snackbarMessage s) (snackbarSeverity s)
    (showLoader s) (pageNumber s) n (columnTitles s) (rowsData s)
    (totalItems s) (appliedFilter s) (filterOpen s) (initialized s)
    (tempFilters s).

Definition setColumnTitles (c : list Col) (s : view) : view :=
  View (snackbarOpen s) (snackbarMessage s) (snackbarSeverity s)
    (showLoader s) (pageNumber s) (itemsPerPage s) c (rowsData s)
    (totalItems s) (appliedFilter s) (filterOpen s) (initialized s)
    (tempFilters s).

Definition setRowsData (r : list Row) (s : view) : view :=
  View (snackbarOpen s) (snackbarMessage s) (snackbarSeverity s)
    (showLoader s) (pageNumber s) (itemsPerPage s) (columnTitles s) r
    (totalItems s) (appliedFilter s) (filterOpen s) (initialized s)
    (tempFilters s).

Definition setTotalItems (n : number) (s : view) : view :=
  View (snackbarOpen s) (snackbarMessage s) (snackbarSeverity s)
    (showLoader s) (pageNumber s) (itemsPerPage s) (columnTitles s)
    (rowsData s) n (appliedFilter s) (filterOpen s) (initialized s)
    (tempFilters s).

Definition setAppliedFilter (f : list fragment) (s : view) : view :=
  View (snackbarOpen s) (snackbarMessage s) (snackbarSeverity s)
    (showLoader s) (pageNumber s) (itemsPerPage s) (columnTitles s)
    (rowsData s) (totalItems s) f (filterOpen s) (initialized s)
    (tempFilters s).

Definition setFilterOpen (b : bool) (s : view) : view :=
  View (snackbarOpen s) (snackbarMessage s) (snackbarSeverity s)
    (showLoader s) (pageNumber s) (itemsPerPage s) (columnTitles s)
    (rowsData s) (totalItems s) (appliedFilter s) b (initialized s)
    (tempFilters s).

Definition setInitialized (b : bool) (s : view) : view :=
  View (snackbarOpen s) (snackbarMessage s) (snackbarSeverity s)
    (showLoader s) (pageNumber s) (itemsPerPage s) (columnTitles s)
    (rowsData s) (totalItems s) (appliedFilter s) (filterOpen s) b
    (tempFilters s).

Definition setTempFilters (t : Obj.t (list string)) (s : view) : view :=
  View (snackbarOpen s) (snackbarMessage s) (snackbarSeverity s)
    (showLoader s) (pageNumber s) (itemsPerPage s) (columnTitles s)
    (rowsData s) (totalItems s) (appliedFilter s) (filterOpen s)
    (initialized s) t.

End View.
Arguments view : clear implicits.

(** Successive state updates of one handler, in source order. *)
Notation "s |> f" := (f s) (at level 45, left associativity, only parsing).

(** ** components/Report/FilterComponent.jsx *)

Module FilterComponent.
Import Str Coll.

Definition getFilterName (filterKey : string) : string :=
  if String.eqb filterKey "studentClass" then "class"
  else if String.eqb filterKey "gender" then "gender"
  else if String.eqb filterKey "house" then "house"
  else filterKey.

(** The map from each allowed key to the set of its valid options. *)
Definition filterKeyToValidOptionsMap (allowedFilterKeys : list string)
  : list (string * list string) :=
  fold_left
    (fun m key =>
       map_set m key (new_Set (Api.getMockFilterOptions (getFilterName key))))
    allowedFilterKeys [].

(** [initialTemp]: the applied filters whose key is allowed, each
    reduced to the values that are valid options.  The [useState]
    initializer of [tempFilters] and [handleClose] hold the same code. *)
Definition initialTemp (allowedFilterKeys : list string)
    (appliedFilter : list fragment) : Obj.t (list string) :=
  let validMap := filterKeyToValidOptionsMap allowedFilterKeys in
  fold_left
    (fun (acc : Obj.t (list string)) (filterObj : fragment) =>
       let '(key, values) := filterObj in
       match map_get validMap key with
       | Some validOptions =>
           Obj.assign acc key (filter (fun value => set_has validOptions value) values)
       | None => acc
       end)
    appliedFilter [].

Section Handlers.
Context {Col Row : Type}.
Local Abbreviation view := (view Col Row).

(** Mounting the drawer runs the [useState] initializer. *)
Definition useState_tempFilters (allowedFilterKeys : list string)
    (s : view) : view :=
  s |> setTempFilters (initialTemp allowedFilterKeys (appliedFilter s)).

Definition handleFilterChange (filterKey : string)
    (newSelectedValues : list string) (s : view) : view :=
  s |> setTempFilters (Obj.define (tempFilters s) filterKey newSelectedValues).

Definition newAppliedFilter (temp : Obj.t (list string)) : list fragment :=
  map (fun kv => (fst kv, snd kv))
      (filter (fun kv => (0 <? List.length (snd kv))%nat) (Obj.entries temp)).

Definition applyFilters (s : view) : view :=
  s |> setAppliedFilter (newAppliedFilter (tempFilters s))
    |> setFilterOpen false.

Definition resetTemp (allowedFilterKeys : list string) : Obj.t (list string) :=
  fold_left (fun acc key => Obj.assign acc key []) allowedFilterKeys [].

Definition resetFilters (allowedFilterKeys : list string) (s : view) : view :=
  s |> setTempFilters (resetTemp allowedFilterKeys)
    |> setAppliedFilter []
    |> setFilterOpen false.

Definition handleClose (allowedFilterKeys : list string) (s : view) : view :=
  s |> setTempFilters (initialTemp allowedFilterKeys (appliedFilter s))
    |> setFilterOpen false.

End Handlers.

End FilterComponent.

(** ** components/Report/DynamicTable.jsx: the two pagination handlers *)

Module DynamicTable.
Section Handlers.
Context {Col Row : Type}.
Local Abbreviation view := (view Col Row).

Definition handleChangePage (newPage : number) (s : view) : view :=
  s |> setPageNumber newPage.

Definition handleChangeRowsPerPage (value : string) (s : view) : view :=
  s |> setItemsPerPage (Conv.parseInt value) |> setPageNumber (Int 0).

End Handlers.
End DynamicTable.

(** ** components/Report/Report.jsx *)

Module Report.
Import Str Coll.

(** What [parseUrlParams] returns; [page] is already 0-indexed. *)
Record parsed : Type := Parsed {
  page : number;
  limit : number;
  filters : list fragment
}.

(** [v || d] on the result of [params.get]: [null] and the empty
    string are falsy. *)
Definition or_default (v : option string) (d : string) : string :=
  match v with
  | Some (String _ _ as s) => s
  | _ => d
  end.

Definition cleanKey (key : string) : string :=
  if ends_with "[]" key then drop_last 2 key else key.

(** One turn of the loop over [params.entries()].  Spreading what
    [filters[cleanKey]] finds throws when that is an inherited property
    (a function or [Object.prototype], neither is iterable). *)
Definition collect (allowedFilterKeys : list string)
    (filters : Obj.t (list string)) (entry : string * string)
  : result (Obj.t (list string)) :=
  let '(key, value) := entry in
  let cleanKey := cleanKey key in
  if includes allowedFilterKeys cleanKey
     && negb (includes ["page"; "limit"] cleanKey)
  then
    match Obj.get filters cleanKey with
    | Obj.Own vs => Ok (Obj.assign filters cleanKey (vs ++ [value])%list)
    | Obj.Inherited => TypeError
    | Obj.Undefined => Ok (Obj.assign filters cleanKey [value])
    end
  else Ok filters.

Fixpoint collect_all (allowedFilterKeys : list string)
    (filters : Obj.t (list string)) (entries : list (string * string))
  : result (Obj.t (list string)) :=
  match entries with
  | [] => Ok filters
  | e :: r =>
      f <- collect allowedFilterKeys filters e ;;
      collect_all allowedFilterKeys f r
  end.

(** [parseUrlParams], reading [location.search]. *)
Definition parseUrlParams (allowedFilterKeys : list string)
    (search : string) : result parsed :=
  let params := URLSearchParams.create search in
  let page :=
    Num.max (Int 1)
      (Conv.parseInt (or_default (URLSearchParams.get params "page") "1")) in
  let limit :=
    Num.min
      (Num.max (Int 1)
         (Conv.parseInt (or_default (URLSearchParams.get params "limit") "20")))
      (Int 50) in
  filters <- collect_all allowedFilterKeys [] params ;;
  let filterArray := map (fun kv => (fst kv, snd kv)) (Obj.entries filters) in
  Ok (Parsed (Num.sub page (Int 1)) limit filterArray).

(** *** The two serializers *)

(** Initialization: page, limit, then every value of every fragment,
    appended as it comes. *)
Definition initQuery (page limit : number) (filters : list fragment) : string :=
  let params : URLSearchParams.t := [] in
  let params := URLSearchParams.set params "page" (Conv.toString (Num.add page (Int 1))) in
  let params := URLSearchParams.set params "limit" (Conv.toString limit) in
  let params :=
    fold_left
      (fun ps (filter : fragment) =>
         fold_left (fun ps v => URLSearchParams.append ps (fst filter ++ "[]") v)
                   (snd filter) ps)
      filters params in
  URLSearchParams.toString params.

(** State change: the fragments are first consolidated into one object
    of [Set]s.  Calling [add] on an inherited property throws. *)
Definition consolidate (filterValues : Obj.t (list string)) (filter : fragment)
  : result (Obj.t (list string)) :=
  let '(key, values) := filter in
  match Obj.get filterValues key with
  | Obj.Undefined => Ok (Obj.assign filterValues key (new_Set values))
  | Obj.Own s => Ok (Obj.replace filterValues key (set_add_all s values))
  | Obj.Inherited =>
      match values with
      | [] => Ok filterValues
      | _ :: _ => TypeError
      end
  end.

Fixpoint consolidate_all (filterValues : Obj.t (list string))
    (appliedFilter : list fragment) : result (Obj.t (list string)) :=
  match appliedFilter with
  | [] => Ok filterValues
  | f :: r =>
      fv <- consolidate filterValues f ;;
      consolidate_all fv r
  end.

Definition syncQuery (pageNumber itemsPerPage : number)
    (appliedFilter : list fragment) : result string :=
  let params : URLSearchParams.t := [] in
  let params := URLSearchParams.set params "page" (Conv.toString (Num.add pageNumber (Int 1))) in
  let params := URLSearchParams.set params "limit" (Conv.toString itemsPerPage) in
  filterValues <- consolidate_all [] appliedFilter ;;
  let params :=
    fold_left
      (fun ps (kv : string * list string) =>
         fold_left (fun ps v => URLSearchParams.append ps (fst kv ++ "[]") v)
                   (snd kv) ps)
      (Obj.entries filterValues) params in
  Ok (URLSearchParams.toString params).

(** A call of [navigate]: the new query string and the [replace] flag. *)
Record navigation : Type := Navigate {
  query : string;
  replace : bool
}.

(** *** The parameters of the data provider *)

(** A value of [apiParams]: a number or an array of strings. *)
Inductive param : Type :=
| PNumber (n : number)
| PArray (values : list string).

(** [{...target, ...source}]: the own properties of [source] are defined
    on the object under construction, in their order. *)
Definition spread {V} (target source : Obj.t V) : Obj.t V :=
  fold_left (fun o kv => Obj.define o (fst kv) (snd kv)) (Obj.entries source) target.

(** [appliedFilter.reduce((acc, filterObj) => ({...acc, ...filterObj}), {})] *)
Definition filterData (appliedFilter : list fragment) : Obj.t (list string) :=
  fold_left
    (fun (acc : Obj.t (list string)) (filterObj : fragment) =>
       spread (spread [] acc) [filterObj])
    appliedFilter [].

(** [{ page: pageNumber + 1, limit: itemsPerPage, ...filterData }] *)
Definition apiParams (pageNumber itemsPerPage : number)
    (appliedFilter : list fragment) : Obj.t param :=
  let literal : Obj.t param := [] in
  let literal := Obj.define literal "page" (PNumber (Num.add pageNumber (Int 1))) in
  let literal := Obj.define literal "limit" (PNumber itemsPerPage) in
  spread literal
    (map (fun kv => (fst kv, PArray (snd kv))) (filterData appliedFilter)).

(** *** The data provider's answers *)

Section Fetch.
Context {Col Row : Type}.
Local Abbreviation view := (view Col Row).

(** What [await getReport(apiParams)] yields.  [NotObject] is any
    value failing [data && typeof data === "object"]; an object is
    read through its three fields, each of them missing ([None]) or of
    the type the component expects: an array of columns, an array of
    rows, a number.  The source checks no field's type and stores a
    truthy value of another type as it finds it; such answers are not
    values of this type, and nothing below speaks about them. *)
Inductive response : Type :=
| NotObject
| Data (dataMapping : option (list Col)) (rows : option (list Row))
       (total : option number).

(** The reason of a rejection, as the [catch] block reads it.  The block
    evaluates [error.message] inside a template.  That throws when the
    reason is [null] or [undefined] (or holds a [message] that cannot be
    turned into text): the reason is [Unreadable].  On any other value it
    is a property read followed by a conversion to text: [Readable (Some m)]
    when the message reads [m], [Readable None] when the value has no
    [message], as a string or a bare object has none. *)
Inductive reason : Type :=
| Unreadable
| Readable (message : option string).

Inductive outcome : Type :=
| Resolved (data : response)
| Rejected (error : reason).

Definition showSnackbar (message severity : string) (s : view) : view :=
  s |> setSnackbarMessage message
    |> setSnackbarSeverity severity
    |> setSnackbarOpen true.

Definition closeSnackbar (s : view) : view := s |> setSnackbarOpen false.

(** [undefined] becomes [NaN] in arithmetic and comparisons. *)
Definition to_number (v : option number) : number :=
  match v with
  | Some n => n
  | None => NaN
  end.

(** [v || d] *)
Definition or_else {A} (v : option A) (d : A) : A :=
  match v with
  | Some a => a
  | None => d
  end.

(** [data.total || 0] *)
Definition total_or_zero (v : option number) : number :=
  match v with
  | Some n => if Num.truthy n then n else Int 0
  | None => Int 0
  end.

(** [data[dataKey]?.length === 0] *)
Definition no_rows (rows : option (list Row)) : bool :=
  match rows with
  | Some [] => true
  | _ => false
  end.

(** The values one run of the fetch effect closes over. *)
Record fetch : Type := Fetch {
  f_pageNumber : number;
  f_itemsPerPage : number;
  f_appliedFilter : list fragment
}.

(** [fetchData] up to the [await]. *)
Definition fetchData_start (s : view) : view * fetch :=
  (s |> setShowLoader true,
   Fetch (pageNumber s) (itemsPerPage s) (appliedFilter s)).

(** The [try] block after the [await]; the two early [return]s are the
    pagination correction. *)
Definition on_data (f : fetch) (data : response) (s : view) : view :=
  match data with
  | Data dataMapping rows total =>
      let totalPages := Num.ceil_div (to_number total) (f_itemsPerPage f) in
      if Num.ge (f_pageNumber f) totalPages && Num.gt totalPages (Int 0)
      then s |> setPageNumber (Int 0)
      else if Num.strict_eq totalPages (Int 0)
              && negb (Num.strict_eq (f_pageNumber f) (Int 0))
      then s |> setPageNumber (Int 0)
      else
        let s :=
          s |> setColumnTitles (or_else dataMapping [])
            |> setRowsData (or_else rows [])
            |> setTotalItems (total_or_zero total) in
        if no_rows rows && Num.gt (to_number total) (Int 0) then
          s |> showSnackbar "No data for current page. Adjust filters or page." "warning"
        else if Num.strict_eq (to_number total) (Int 0) then
          s |> showSnackbar "No data found matching current filters." "info"
        else s
  | NotObject =>
      s |> setColumnTitles []
        |> setRowsData []
        |> setTotalItems (Int 0)
        |> showSnackbar "No valid data returned from API." "warning"
  end.

(** The text of [${error.message}] in the template of the notice. *)
Definition message_text (message : option string) : string :=
  match message with
  | Some m => m
  | None => "undefined"
  end.

(** The [catch] block.  After the log its first statement builds the
    notice from [error.message]; on an unreadable reason that throws,
    before any setter has run. *)
Definition on_error (error : reason) (s : view) : result view :=
  match error with
  | Unreadable => TypeError
  | Readable message =>
      Ok (s |> showSnackbar ("Failed to fetch data: " ++ message_text message) "error"
            |> setColumnTitles []
            |> setRowsData []
            |> setTotalItems (Int 0))
  end.

(** [fetchData] from the [await] on: [try], [catch], [finally].  An
    exception thrown inside [catch] leaves [fetchData], once [finally]
    has run, as a rejection that nobody handles: the cells keep what
    they held. *)
Definition fetchData_settle (f : fetch) (o : outcome) (s : view) : view :=
  match o with
  | Resolved data => on_data f data s
  | Rejected error =>
      match on_error error s with
      | Ok s' => s'
      | TypeError => s
      end
  end
  |> setShowLoader false.

(** *** Effects *)

(** The initialization effect. *)
Definition initEffect (allowedFilterKeys : list string) (search : string)
    (s : view) : result (view * option navigation) :=
  if initialized s then Ok (s, None)
  else
    p <- parseUrlParams allowedFilterKeys search ;;
    let s :=
      s |> setPageNumber (page p)
        |> setItemsPerPage (limit p)
        |> setAppliedFilter (filters p) in
    let newQuery := initQuery (page p) (limit p) (filters p) in
    let nav :=
      if String.eqb newQuery (slice1 search) then None
      else Some (Navigate newQuery true) in
    Ok (s |> setInitialized true, nav).

(** The URL-sync effect. *)
Definition syncEffect (search : string) (s : view)
  : result (option navigation) :=
  if negb (initialized s) then Ok None
  else
    newQuery <- syncQuery (pageNumber s) (itemsPerPage s) (appliedFilter s) ;;
    let currentQuery := slice1 search in
    Ok (if String.eqb newQuery currentQuery then None
        else Some (Navigate newQuery false)).

(** The fetch effect: a fetch starts only once initialized. *)
Definition fetchEffect (s : view) : view * option fetch :=
  if negb (initialized s) then (s, None)
  else let '(s', f) := fetchData_start s in (s', Some f).

(** Both effects after the first list the same dependencies; they
    run again exactly when one of these changed.  The filter array
    is compared by identity: every [setAppliedFilter] call of the
    source passes a fresh array. *)
Definition same_page_state (a b : view) : Prop :=
  pageNumber a = pageNumber b /\ itemsPerPage a = itemsPerPage b
  /\ appliedFilter a = appliedFilter b /\ initialized a = initialized b.

(** *** Events of a mounted view *)

Inductive event : Type :=
| ChangePage (newPage : number)
| ChangeRowsPerPage (value : string)
| OpenFilter
| EditFilter (filterKey : string) (newSelectedValues : list string)
| ApplyFilters
| ResetFilters
| CloseFilter
| CloseSnackbar
| StartFetch
| Settle (f : fetch) (o : outcome).

Definition handle (allowedFilterKeys : list string) (e : event) (s : view)
  : view :=
  match e with
  | ChangePage newPage => DynamicTable.handleChangePage newPage s
  | ChangeRowsPerPage value => DynamicTable.handleChangeRowsPerPage value s
  | OpenFilter =>
      s |> setFilterOpen true
        |> FilterComponent.useState_tempFilters allowedFilterKeys
  | EditFilter k vs => FilterComponent.handleFilterChange k vs s
  | ApplyFilters => FilterComponent.applyFilters s
  | ResetFilters => FilterComponent.resetFilters allowedFilterKeys s
  | CloseFilter => FilterComponent.handleClose allowedFilterKeys s
  | CloseSnackbar => closeSnackbar s
  | StartFetch => fst (fetchEffect s)
  | Settle f o => fetchData_settle f o s
  end.

(** The drawer offers one select per allowed key, so an edit always
    names an allowed key; the drawer's handlers need it open. *)
Definition enabled (allowedFilterKeys : list string) (e : event) (s : view)
  : Prop :=
  match e with
  | EditFilter k _ => filterOpen s = true /\ In k allowedFilterKeys
  | ApplyFilters | ResetFilters | CloseFilter => filterOpen s = true
  | OpenFilter => filterOpen s = false /\ showLoader s = false
  | ChangePage _ | ChangeRowsPerPage _ => showLoader s = false
  | _ => True
  end.

(** The views a mount on [search] can reach. *)
Inductive reachable (allowedFilterKeys : list string) (search : string)
  : view -> Prop :=
| reach_init s nav :
    initEffect allowedFilterKeys search mount = Ok (s, nav) ->
    reachable allowedFilterKeys search s
| reach_step s e :
    reachable allowedFilterKeys search s ->
    enabled allowedFilterKeys e s ->
    reachable allowedFilterKeys search (handle allowedFilterKeys e s).

End Fetch.
Arguments response : clear implicits.
Arguments outcome : clear implicits.
Arguments event : clear implicits.

End Report.

(** ** pages/SchoolDataPage.jsx: the report of the demo *)

Module SchoolDataPage.

Definition dataKey : string := "schoolInfo".

Definition allowedFilterKeys : list string := ["studentClass"; "gender"; "house"].

(** A filter parameter as [mockGetReport] tests it: anything that is not
    an array is passed over. *)
Definition array_of (v : option Report.param) : option (list string) :=
  match v with
  | Some (Report.PArray l) => Some l
  | _ => None
  end.

(** [const { page, limit, studentClass, gender, house } = params].
    [None] when [page] or [limit] is not a number, which is outside the
    types that [mockGetReport] documents. *)
Definition destructure (params : Obj.t Report.param) : option Api.params :=
  match Obj.own params "page", Obj.own params "limit" with
  | Some (Report.PNumber page), Some (Report.PNumber limit) =>
      Some (Api.Params page limit
              (array_of (Obj.own params "studentClass"))
              (array_of (Obj.own params "gender"))
              (array_of (Obj.own params "house")))
  | _, _ => None
  end.

(** [await getReport(apiParams)] with [getReport = mockGetReport], as
    [Report] reads the answer: [data.dataMapping], [data[dataKey]] and
    [data.total]. *)
Definition getReport (apiParams : Obj.t Report.param)
  : option (Report.outcome Api.column Api.student) :=
  match destructure apiParams with
  | Some p =>
      let data := Api.mockGetReport p in
      Some (Report.Resolved
              (Report.Data (Some (Api.dataMapping data))
                 (Some (Api.schoolInfo data)) (Some (Api.total data))))
  | None => None
  end.

(** The call that a fetch makes: [apiParams] is built from the page, the
    limit and the filters the fetch closed over. *)
Definition answer (f : Report.fetch)
  : option (Report.outcome Api.column Api.student) :=
  getReport
    (Report.apiParams (Report.f_pageNumber f) (Report.f_itemsPerPage f)
       (Report.f_appliedFilter f)).

End SchoolDataPage.

(** ** Auxiliary notions for the statements *)

(** [c] occurs in [s]. *)
Fixpoint occurs (c : ascii) (s : string) : bool :=
  match s with
  | EmptyString => false
  | String c' r => Ascii.eqb c' c || occurs c r
  end.

(** One serialized pair, as [toString] writes it between two [&]. *)
Definition piece (p : string * string) : string :=
  URLSearchParams.encode (fst p) ++ "=" ++ URLSearchParams.encode (snd p).

(** The keys of an object, in enumeration order. *)
Definition keys {V} (o : Obj.t V) : list string := map fst o.

(** [a] is enumerated before [b]: array indices come first, ascending;
    the other keys keep the order in which they were created. *)
Definition key_before (a b : string) : Prop :=
  match Obj.array_index a, Obj.array_index b with
  | Some i, Some j => (i < j)%N
  | Some _, None => True
  | None, Some _ => False
  | None, None => True
  end.

(** The own properties of an object as the engine lists them: distinct
    keys, in enumeration order. *)
Definition enumerated (ks : list string) : Prop :=
  NoDup ks /\ StronglySorted key_before ks.

(** The pairs that the serializers append for a list of fragments. *)
Definition filter_pairs (fs : list fragment) : list (string * string) :=
  flat_map (fun f => map (fun v => (fst f ++ "[]", v)) (snd f)) fs.

(** What every property of the object built by [parseUrlParams] obeys:
    an allowed key, not a pagination key, not an inherited name, with at
    least one value. *)
Definition collected (allowedFilterKeys : list string) (f : fragment) : Prop :=
  In (fst f) allowedFilterKeys
  /\ Str.includes ["page"; "limit"] (fst f) = false
  /\ Obj.inherited (fst f) = false
  /\ snd f <> [].

(** A page that the round trip through the URL keeps exact: [NaN], or an
    integer whose successor is below [2^53]. *)
Definition exact_page (n : number) : Prop :=
  match n with
  | NaN => True
  | Int z => z + 1 < two53
  | _ => False
  end.

(** The invariant of the loop of [parseUrlParams]. *)
Definition collect_inv (allowedFilterKeys : list string)
    (o : Obj.t (list string)) : Prop :=
  enumerated (keys o) /\ Forall (collected allowedFilterKeys) o.

(** The configuration of the demo page, [SchoolDataPage.jsx]. *)
Definition schoolFilterKeys : list string := ["studentClass"; "gender"; "house"].

(** The object holds [value] among the values of its key [k]. *)
Definition holds_value (k value : string) (o : Obj.t (list string)) : Prop :=
  exists vs, Obj.own o k = Some vs /\ In value vs.

(** The rows that the mock report shows on the first [count] pages, one
    page after the other. *)
Definition pages_shown (limit : Z) (studentClass gender house : option (list string))
    (count : nat) : list Api.student :=
  flat_map
    (fun i =>
       Api.schoolInfo
         (Api.mockGetReport
            (Api.Params (Int (Z.of_nat i + 1)) (Int limit) studentClass gender house)))
    (seq 0 count).

(** The values of the last fragment of [fs] whose key is [k]. *)
Definition latest (fs : list fragment) (k : string) : option (list string) :=
  option_map snd (find (fun f => String.eqb (fst f) k) (rev fs)).

(** The values of the entries whose cleaned key is [k], in the order of
    the query string. *)
Definition values_for (k : string) (entries : list (string * string)) : list string :=
  map snd (filter (fun e => String.eqb (Report.cleanKey (fst e)) k) entries).

(** The cleaned key passes the two tests of the loop of [parseUrlParams]:
    it is allowed and is not a pagination parameter. *)
Definition accepted (allowedFilterKeys : list string) (k : string) : bool :=
  Str.includes allowedFilterKeys k && negb (Str.includes ["page"; "limit"] k).

(** The fragments with every value kept once, at its first place, as the
    [Set]s of the state-change serializer keep them. *)
Definition distinct_values (fs : list fragment) : list fragment :=
  map (fun f => (fst f, Coll.new_Set (snd f))) fs.

(** The values of [values] that the option source lists for the key. *)
Definition valid_values (key : string) (values : list string) : list string :=
  filter
    (fun value =>
       Str.includes (Api.getMockFilterOptions (FilterComponent.getFilterName key)) value)
    values.

(** * Properties *)

(** Case analysis on every condition that a handler tests. *)
Ltac case_conditions :=
  repeat match goal with
         | |- context [if ?b then _ else _] => destruct b
         end.

(** ** The model at work *)

(** A query string of the demo page: the unknown key is dropped, both
    spellings of a key are read, values keep their order. *)
Example parse_school_query :
  Report.parseUrlParams schoolFilterKeys
    "?page=2&limit=10&studentClass[]=5&bogus=1&studentClass%5B%5D=6&gender=Fe+male"
  = Ok (Report.Parsed (Int 1) (Int 10)
          [("studentClass", ["5"; "6"]); ("gender", ["Fe male"])]).
Proof. vm_compute. reflexivity. Qed.

(** The scenario of the specification: page 1, 20 rows, one gender. *)
Example school_query_written :
  Report.initQuery (Int 0) (Int 20) [("gender", ["Female"])]
  = "page=1&limit=20&gender%5B%5D=Female"
  /\ Report.syncQuery (Int 0) (Int 20) [("gender", ["Female"])]
     = Ok "page=1&limit=20&gender%5B%5D=Female".
Proof. split; vm_compute; reflexivity. Qed.

(** Doubles as the engine prints them. *)
Example numbers_printed :
  map Conv.toString
      [Int 45; Int (-7); NaN; PosInf; to_double (2 ^ 53 + 1); to_double (2 ^ 64);
       to_double (10 ^ 21); to_double (2 ^ 70); to_double (10 ^ 23)]
  = ["45"; "-7"; "NaN"; "Infinity"; "9007199254740992"; "18446744073709552000";
     "1e+21"; "1.1805916207174113e+21"; "1e+23"].
Proof. vm_compute. reflexivity. Qed.

Example numbers_read :
  map Conv.parseInt ["12"; " 12px"; "-3"; "+4"; EmptyString; "abc"; "1e+21"; "9007199254740993"]
  = [Int 12; Int 12; Int (-3); Int 4; NaN; NaN; Int 1; Int 9007199254740992].
Proof. vm_compute. reflexivity. Qed.

(** Array-index keys are enumerated first, whatever the order of
    creation. *)
Example keys_enumerated :
  Obj.entries
    (Obj.define (Obj.define (Obj.define (Obj.define [] "house" 1) "10" 2) "2" 3)
       "gender" 4)
  = [("2", 3); ("10", 2); ("house", 1); ("gender", 4)].
Proof. vm_compute. reflexivity. Qed.

(** Page counts of the demo data: 26 records. *)
Example page_counts :
  map (fun ipp => ceil_div (Int 26) (Int ipp)) [5; 10; 20; 50]
  = [Int 6; Int 3; Int 2; Int 1].
Proof. vm_compute. reflexivity. Qed.

(** ** Doubles *)

Lemma two53_lt_overflow : two53 < overflow.
Proof. unfold two53, overflow. apply Z.pow_lt_mono_r; lia. Qed.

Lemma two53_eq : two53 = 9007199254740992.
Proof. reflexivity. Qed.

Lemma round53_small z : 0 <= z < two53 -> round53 z = z.
Proof.
  intros [H0 H1]. unfold round53.
  assert (Z.log2 z < 53) as Hl.
  { destruct (Z.eq_dec z 0) as [->|Hz]; [reflexivity|].
    apply Z.log2_lt_pow2; [lia|exact H1]. }
  destruct (Z.leb_spec (Z.log2 z - 52) 0); [reflexivity|lia].
Qed.

Lemma round53_pos z : 0 < z -> 0 < round53 z.
Proof.
  intros Hz. unfold round53.
  destruct (Z.leb_spec (Z.log2 z - 52) 0) as [|He]; [exact Hz|].
  set (e := Z.log2 z - 52) in *.
  assert (0 < Z.shiftr z e) as Hq.
  { rewrite Z.shiftr_div_pow2 by lia.
    apply Z.div_str_pos. split; [apply Z.pow_pos_nonneg; lia|].
    transitivity (2 ^ Z.log2 z).
    - apply Z.pow_le_mono_r; lia.
    - apply Z.log2_spec; exact Hz. }
  rewrite Z.shiftl_mul_pow2 by lia.
  apply Z.mul_pos_pos; [|apply Z.pow_pos_nonneg; lia].
  destruct (_ || _); lia.
Qed.

Lemma to_double_small z : - two53 < z < two53 -> to_double z = Int z.
Proof.
  intros H. unfold to_double.
  rewrite round53_small by lia.
  pose proof two53_lt_overflow.
  destruct (Z.leb_spec overflow (Z.abs z)); [lia|].
  f_equal. destruct z; reflexivity.
Qed.

Lemma to_double_pos z : 0 < z -> Num.gt (to_double z) (Int 0) = true.
Proof.
  intros Hz. unfold to_double.
  pose proof (round53_pos (Z.abs z)) as Hr.
  destruct (Z.leb_spec overflow (round53 (Z.abs z))).
  - destruct (Z.ltb_spec z 0); [lia|reflexivity].
  - unfold Num.gt, Num.lt. apply Z.ltb_lt.
    rewrite Z.sgn_pos by exact Hz. lia.
Qed.

(** ** [Math.ceil(total / itemsPerPage)] keeps the sign of the total *)

Lemma div_round_pos a b : 0 < a -> 0 < b -> 0 < fst (div_round a b).
Proof.
  intros Ha Hb. unfold div_round. cbn [fst].
  apply round53_pos.
  assert (0 <= a * 2 ^ (55 + Z.log2 b) / b).
  { apply Z.div_pos; [|exact Hb].
    apply Z.mul_nonneg_nonneg; [lia|apply Z.pow_nonneg; lia]. }
  assert (b <= a * 2 ^ (55 + Z.log2 b)).
  { pose proof (Z.log2_nonneg b).
    assert (b < 2 ^ (55 + Z.log2 b)).
    { apply Z.log2_lt_pow2; lia. }
    nia. }
  assert (1 <= a * 2 ^ (55 + Z.log2 b) / b).
  { apply Z.div_le_lower_bound; lia. }
  destruct (_ =? 0); lia.
Qed.

Lemma ceil_dyadic_pos m s : 0 < m -> 0 <= s -> 0 < ceil_dyadic (m, s).
Proof.
  intros Hm Hs. unfold ceil_dyadic.
  assert (0 < 2 ^ s) by (apply Z.pow_pos_nonneg; lia).
  apply Z.div_str_pos. lia.
Qed.

Lemma ceil_div_pos total ipp :
  0 < total -> 0 < ipp ->
  Num.gt (ceil_div (Int total) (Int ipp)) (Int 0) = true.
Proof.
  intros Ht Hi. unfold ceil_div.
  destruct (Z.eqb_spec ipp 0); [lia|].
  destruct (Z.eqb_spec total 0); [lia|].
  rewrite !Z.sgn_pos, Z.eqb_refl by lia.
  apply to_double_pos.
  rewrite !Z.abs_eq by lia.
  pose proof (div_round_pos total ipp Ht Hi) as Hq.
  unfold div_round in *. cbn [fst] in Hq.
  apply ceil_dyadic_pos; [exact Hq|].
  pose proof (Z.log2_nonneg ipp). lia.
Qed.

Lemma ceil_div_zero ipp : 0 < ipp -> ceil_div (Int 0) (Int ipp) = Int 0.
Proof.
  intros Hi. unfold ceil_div.
  destruct (Z.eqb_spec ipp 0); [lia|reflexivity].
Qed.

(** ** The rounded quotient and the integer ceiling *)

(** [round53] moves its argument to a neighbouring multiple of [2^e],
    [e] being the number of bits it drops, and only when it is no
    multiple itself. *)
Lemma round53_between t L U e :
  0 < t -> e = Z.max 0 (Z.log2 t - 52) ->
  (exists l, L = l * 2 ^ e) -> (exists u, U = u * 2 ^ e) ->
  L <= t <= U -> L <= round53 t <= U.
Proof.
  intros Ht He [l HL] [u HU] Hb. unfold round53.
  destruct (Z.leb_spec (Z.log2 t - 52) 0) as [Hle|Hgt]; [exact Hb|].
  rewrite Z.max_r in He by lia. rewrite <- He.
  assert (0 < 2 ^ e) as Hp by (apply Z.pow_pos_nonneg; lia).
  rewrite Z.shiftr_div_pow2, !Z.shiftl_mul_pow2 by lia.
  pose proof (Z.div_mod t (2 ^ e) ltac:(lia)) as Hdm.
  pose proof (Z.mod_pos_bound t (2 ^ e) Hp) as Hm.
  set (q := t / 2 ^ e) in *. set (r := t mod 2 ^ e) in *.
  replace (t - q * 2 ^ e) with r by lia.
  assert (0 < 1 * 2 ^ (e - 1)) as Hh by (rewrite Z.mul_1_l; apply Z.pow_pos_nonneg; lia).
  assert (l <= q) by nia.
  destruct (Z.eq_dec r 0) as [Hr0|Hr0].
  - rewrite Hr0.
    destruct (Z.ltb_spec (1 * 2 ^ (e - 1)) 0); [lia|].
    destruct (Z.eqb_spec 0 (1 * 2 ^ (e - 1))); [lia|]. cbn [orb andb]. nia.
  - assert (q + 1 <= u) by nia.
    destruct (_ || _); nia.
Qed.

(** For a total and a page size whose sum is below [2^52] the division
    on doubles followed by [Math.ceil] is the integer ceiling. *)
Lemma ceil_div_exact a b :
  0 < a -> 0 < b -> a + b < 2 ^ 52 ->
  ceil_div (Int a) (Int b) = Int ((a + b - 1) / b).
Proof.
  intros Ha Hb Hab. unfold ceil_div.
  destruct (Z.eqb_spec b 0) as [|_]; [lia|]. destruct (Z.eqb_spec a 0) as [|_]; [lia|].
  rewrite !Z.sgn_pos, Z.eqb_refl, !Z.abs_eq by lia.
  set (c := (a + b - 1) / b).
  assert (Hc : (c - 1) * b < a <= c * b).
  { unfold c. pose proof (Z.div_mod (a + b - 1) b ltac:(lia)).
    pose proof (Z.mod_pos_bound (a + b - 1) b Hb). nia. }
  assert (0 < c) as Hc0 by nia.
  assert (c * b < 2 ^ 52) as Hcb by nia.
  unfold div_round, ceil_dyadic.
  pose proof (Z.log2_nonneg b) as Hlb.
  set (s := 55 + Z.log2 b).
  assert (Hs : 2 ^ s = 2 ^ 54 * 2 ^ (Z.log2 b + 1)).
  { rewrite <- Z.pow_add_r by lia. f_equal. lia. }
  assert (Hbs : b < 2 ^ (Z.log2 b + 1)).
  { pose proof (Z.log2_spec b Hb). replace (Z.log2 b + 1) with (Z.succ (Z.log2 b)) by lia. lia. }
  assert (HS : 2 ^ (s + 1) = 2 * 2 ^ s).
  { rewrite Z.pow_add_r by lia. lia. }
  assert (0 < 2 ^ s) as Hps by (apply Z.pow_pos_nonneg; lia).
  set (n := a * 2 ^ s).
  pose proof (Z.div_mod n b ltac:(lia)) as Hdm.
  pose proof (Z.mod_pos_bound n b Hb) as Hmb.
  set (f := n / b) in *. set (r := n mod b) in *.
  set (t := 2 * f + (if r =? 0 then 0 else 1)).
  (* the bounds on [t] *)
  assert (Hf1 : (c - 1) * 2 ^ s <= f).
  { apply Z.lt_succ_r. apply Z.mul_lt_mono_pos_l with b; [lia|].
    unfold n in Hdm. nia. }
  assert (Hf2 : f <= c * 2 ^ s).
  { apply Z.mul_le_mono_pos_l with b; [lia|]. unfold n in Hdm. nia. }
  assert (Hlow : (c - 1) * 2 ^ (s + 1) < t).
  { unfold t. destruct (Z.eqb_spec r 0) as [Hr|Hr]; [|lia].
    assert ((c - 1) * 2 ^ s <> f); [|lia].
    intros E. unfold n in Hdm. rewrite <- E, Hr in Hdm. nia. }
  assert (Hup : t <= c * 2 ^ (s + 1)).
  { unfold t. destruct (Z.eqb_spec r 0) as [Hr|Hr]; [lia|].
    assert (f <> c * 2 ^ s); [|lia].
    intros E. unfold n in Hdm. rewrite E in Hdm. nia. }
  assert (0 < t) as Ht by nia.
  (* the number of bits that [round53] drops *)
  set (e := Z.max 0 (Z.log2 t - 52)).
  assert (He : e <= 55 /\ e <= s + 1).
  { assert (Z.log2 t <= Z.log2 (c * 2 ^ (s + 1))) as Hl by (apply Z.log2_le_mono; lia).
    rewrite Z.log2_mul_pow2 in Hl by lia.
    assert (Z.log2 (c * b) < 52) as Hl2 by (apply Z.log2_lt_pow2; lia).
    pose proof (Z.log2_mul_below c b Hc0 Hb).
    pose proof (Z.log2_nonneg c). unfold e, s in *. lia. }
  assert (0 <= e) as He0 by (unfold e; lia).
  assert (Hmul : forall j, e <= j -> exists w, 2 ^ j = w * 2 ^ e).
  { intros j Hj. exists (2 ^ (j - e)). rewrite <- Z.pow_add_r by lia. f_equal. lia. }
  (* [t] lies between two multiples that [round53] cannot cross *)
  assert (Hm : (c - 1) * 2 ^ (s + 1) < round53 t <= c * 2 ^ (s + 1)).
  { destruct (Z.eq_dec a (c * b)) as [Hex|Hnex].
    - (* the quotient is the integer [c] *)
      assert (t = c * 2 ^ (s + 1)) as Htc.
      { assert (n = c * 2 ^ s * b) as Hn by (unfold n; rewrite Hex; ring).
        assert (r = 0) as Hr by (unfold r; rewrite Hn; apply Z.mod_mul; lia).
        assert (f = c * 2 ^ s) as Hf by (unfold f; rewrite Hn; apply Z.div_mul; lia).
        unfold t. rewrite Hr, Hf, Z.eqb_refl, HS. ring. }
      destruct (Hmul (s + 1) ltac:(lia)) as [w Hw].
      destruct (round53_between t t t e Ht eq_refl) as [H1 H2];
        try lia; try (exists (c * w); rewrite Htc, Hw; ring).
    - (* a proper fraction: at least [1/b] away from both integers *)
      assert (b * 2 ^ 54 <= 2 ^ s) as Hq.
      { rewrite Hs, Z.mul_comm. apply Z.mul_le_mono_nonneg_l; [|lia].
        apply Z.pow_nonneg. lia. }
      assert ((c - 1) * 2 ^ s + 2 ^ 54 <= f) as Hf.
      { unfold f. apply Z.div_le_lower_bound; [lia|]. unfold n.
        assert (((c - 1) * b + 1) * 2 ^ s <= a * 2 ^ s)
          by (apply Z.mul_le_mono_nonneg_r; lia).
        remember (2 ^ 54) as K. remember (2 ^ s) as P.
        replace (b * ((c - 1) * P + K)) with ((c - 1) * b * P + b * K) by ring.
        replace (((c - 1) * b + 1) * P) with ((c - 1) * b * P + P) in * by ring.
        lia. }
      destruct (Hmul (s + 1) ltac:(lia)) as [w Hw].
      destruct (Hmul 55 ltac:(lia)) as [w' Hw'].
      destruct (round53_between t ((c - 1) * 2 ^ (s + 1) + 2 ^ 55) (c * 2 ^ (s + 1)) e
                  Ht eq_refl) as [H1 H2].
      + exists ((c - 1) * w + w'). rewrite Hw, Hw'. ring.
      + exists (c * w). rewrite Hw. ring.
      + split; [|exact Hup]. unfold t.
        replace (2 ^ 55) with (2 * 2 ^ 54) by reflexivity.
        remember (2 ^ 54) as K. destruct (r =? 0); lia.
      + assert (0 < 2 ^ 55) by (apply Z.pow_pos_nonneg; lia). lia. }
  assert (0 < 2 ^ (s + 1)) as HpS by (apply Z.pow_pos_nonneg; lia).
  assert ((round53 t + 2 ^ (s + 1) - 1) / 2 ^ (s + 1) = c) as ->.
  { symmetry. apply Z.div_unique with (round53 t + 2 ^ (s + 1) - 1 - 2 ^ (s + 1) * c); lia. }
  apply to_double_small. unfold two53.
  assert (2 ^ 52 < 2 ^ 53) by (apply Z.pow_lt_mono_r; lia).
  assert (c <= c * b) by nia. lia.
Qed.

(** ** Numerals: printing then reading *)

Lemma take_digits_numeral d : Str.take_digits (NilEmpty.string_of_uint d) = d.
Proof. induction d; simpl; congruence. Qed.

Lemma trim_start_digit c r :
  Str.digit_of c <> None -> Str.trim_start (String c r) = String c r.
Proof.
  intros H.
  destruct c as [[] [] [] [] [] [] [] []]; simpl in H; try congruence;
    destruct r as [|c2 [|c3 r3]]; reflexivity.
Qed.

Lemma parseInt_numeral d :
  d <> Decimal.Nil ->
  Conv.parseInt (NilEmpty.string_of_uint d) = to_double (Z.of_N (N.of_uint d)).
Proof.
  intros Hd. unfold Conv.parseInt.
  destruct d; try congruence; cbn [NilEmpty.string_of_uint];
    (rewrite trim_start_digit by (simpl; congruence));
    cbv iota beta;
    change (Str.take_digits (String ?c ?r)) with
      (match Str.digit_of c with
       | Some d => d (Str.take_digits r)
       | None => Decimal.Nil
       end);
    rewrite take_digits_numeral; reflexivity.
Qed.

Lemma to_uint_not_nil n : N.to_uint n <> Decimal.Nil.
Proof.
  destruct n as [|p]; [discriminate|].
  unfold N.to_uint. intros H.
  pose proof (DecimalPos.Unsigned.to_uint_nonnil p). congruence.
Qed.

Lemma parseInt_decimal n : Conv.parseInt (Str.decimal n) = to_double (Z.of_N n).
Proof.
  unfold Str.decimal. rewrite parseInt_numeral by apply to_uint_not_nil.
  now rewrite DecimalN.Unsigned.of_to.
Qed.

Lemma toString_small z : 0 <= z < two53 -> Conv.toString (Int z) = Str.decimal (Z.to_N z).
Proof.
  intros [H0 H1]. unfold Conv.toString, Conv.render.
  destruct (Z.ltb_spec z 0); [lia|].
  destruct (Z.ltb_spec z two53); [reflexivity|lia].
Qed.

(** Within the exact range a number survives [toString] then [parseInt]. *)
Lemma parseInt_toString z :
  0 <= z < two53 -> Conv.parseInt (Conv.toString (Int z)) = Int z.
Proof.
  intros H. rewrite toString_small by exact H.
  rewrite parseInt_decimal, Z2N.id by lia.
  apply to_double_small. lia.
Qed.

Lemma decimal_not_empty n : Str.decimal n <> EmptyString.
Proof.
  unfold Str.decimal. pose proof (to_uint_not_nil n) as H.
  destruct (N.to_uint n); try congruence; discriminate.
Qed.

(** ** Keys and their [[]] suffix *)

Lemma ends_with_app k suffix : Str.ends_with suffix (k ++ suffix) = true.
Proof.
  induction k as [|c k IH].
  - destruct suffix; simpl; [reflexivity|].
    now rewrite Ascii.eqb_refl, String.eqb_refl.
  - change (String c k ++ suffix) with (String c (k ++ suffix)).
    cbn [Str.ends_with].
    destruct (String.eqb (String c (k ++ suffix)) suffix); [reflexivity|exact IH].
Qed.

Lemma length_app (a b : string) :
  String.length (a ++ b) = (String.length a + String.length b)%nat.
Proof. induction a; simpl; congruence. Qed.

Lemma substring_prefix (a b : string) :
  substring 0 (String.length a) (a ++ b) = a.
Proof.
  induction a as [|c a IH]; simpl.
  - destruct b; reflexivity.
  - now rewrite IH.
Qed.

Lemma cleanKey_brackets k : Report.cleanKey (k ++ "[]") = k.
Proof.
  unfold Report.cleanKey, Str.drop_last.
  rewrite ends_with_app, length_app. simpl String.length.
  replace (String.length k + 2 - 2)%nat with (String.length k) by lia.
  apply substring_prefix.
Qed.

(** ** The urlencoded codec: serializing then parsing *)

Lemma decode_encode s : URLSearchParams.decode (URLSearchParams.encode s) = s.
Proof.
  unfold URLSearchParams.decode.
  induction s as [|c s IH]; [reflexivity|].
  destruct c as [[] [] [] [] [] [] [] []]; simpl; rewrite IH; reflexivity.
Qed.

Lemma encode_no_delimiter s :
  occurs "&" (URLSearchParams.encode s) = false
  /\ occurs "=" (URLSearchParams.encode s) = false.
Proof.
  induction s as [|c s [IH1 IH2]]; [split; reflexivity|].
  destruct c as [[] [] [] [] [] [] [] []]; simpl; rewrite IH1, IH2; split; reflexivity.
Qed.

Lemma cut_app n v :
  occurs "=" n = false -> URLSearchParams.cut (n ++ String "=" v) = (n, v).
Proof.
  induction n as [|c n IH]; simpl; intros H.
  - reflexivity.
  - apply orb_false_iff in H as [Hc Hn].
    rewrite Hc, (IH Hn). reflexivity.
Qed.

Lemma parse_piece_piece p : URLSearchParams.parse_piece (piece p) = p.
Proof.
  destruct p as [n v]. unfold URLSearchParams.parse_piece, piece. cbn [fst snd].
  change ("=" ++ URLSearchParams.encode v) with (String "=" (URLSearchParams.encode v)).
  rewrite cut_app by apply encode_no_delimiter.
  now rewrite !decode_encode.
Qed.

Lemma occurs_app c a b : occurs c (a ++ b) = occurs c a || occurs c b.
Proof. induction a as [|x a IH]; simpl; [reflexivity|]. now rewrite IH, orb_assoc. Qed.

Lemma piece_no_amp p : occurs "&" (piece p) = false.
Proof.
  unfold piece. rewrite !occurs_app.
  rewrite (proj1 (encode_no_delimiter (fst p))), (proj1 (encode_no_delimiter (snd p))).
  reflexivity.
Qed.

Lemma piece_not_empty p : String.eqb (piece p) EmptyString = false.
Proof.
  unfold piece. destruct (URLSearchParams.encode (fst p)); reflexivity.
Qed.

Lemma split_single s :
  occurs "&" s = false -> URLSearchParams.split "&" s = [s].
Proof.
  induction s as [|c s IH]; simpl; intros H; [reflexivity|].
  apply orb_false_iff in H as [Hc Hs].
  rewrite Hc, (IH Hs). reflexivity.
Qed.

Lemma split_app s t :
  occurs "&" s = false ->
  URLSearchParams.split "&" (s ++ String "&" t) = s :: URLSearchParams.split "&" t.
Proof.
  induction s as [|c s IH]; simpl; intros H; [reflexivity|].
  apply orb_false_iff in H as [Hc Hs].
  rewrite Hc, (IH Hs). reflexivity.
Qed.

Lemma append_assoc (a b c : string) : ((a ++ b) ++ c = a ++ (b ++ c))%string.
Proof. induction a; simpl; congruence. Qed.

Lemma join_cons p q r :
  URLSearchParams.join (p :: q :: r) = p ++ String "&" (URLSearchParams.join (q :: r)).
Proof.
  unfold URLSearchParams.join. cbn [fold_left].
  revert p q. induction r as [|x r IH]; intros p q; cbn [fold_left].
  - reflexivity.
  - rewrite IH, (IH q x). now rewrite !append_assoc.
Qed.

Lemma parse_join l :
  URLSearchParams.parse (URLSearchParams.join (map piece l)) = l.
Proof.
  unfold URLSearchParams.parse.
  induction l as [|p l IH]; [reflexivity|].
  destruct l as [|q l].
  - cbn [map URLSearchParams.join fold_left].
    rewrite split_single by apply piece_no_amp.
    cbn [filter map]. rewrite piece_not_empty. cbn [negb map].
    now rewrite parse_piece_piece.
  - cbn [map]. rewrite join_cons.
    rewrite split_app by apply piece_no_amp.
    cbn [filter]. rewrite piece_not_empty. cbn [negb map].
    rewrite parse_piece_piece. f_equal. exact IH.
Qed.

(** Parsing what [toString] wrote gives back the pairs. *)
Lemma parse_toString (params : URLSearchParams.t) :
  URLSearchParams.parse (URLSearchParams.toString params) = params.
Proof. apply parse_join. Qed.

Lemma create_toString (params : URLSearchParams.t) :
  URLSearchParams.create ("?" ++ URLSearchParams.toString params) = params.
Proof. apply parse_toString. Qed.

(** ** Own properties and their order *)

Section ObjFacts.
Context {V : Type}.
Implicit Types (o : Obj.t V) (k : string) (v : V).

Lemma own_None o k : Obj.own o k = None <-> ~ In k (keys o).
Proof.
  induction o as [|[k' v'] o IH]; simpl; [tauto|].
  destruct (String.eqb_spec k' k) as [->|Hne].
  - split; [discriminate|intros H; exfalso; apply H; now left].
  - rewrite IH. split; [intros H [?|?]; [congruence|tauto]|tauto].
Qed.

Lemma own_Some_In o k v : Obj.own o k = Some v -> In (k, v) o.
Proof.
  induction o as [|[k' v'] o IH]; simpl; [discriminate|].
  destruct (String.eqb_spec k' k) as [->|Hne]; intros H.
  - left. congruence.
  - right. auto.
Qed.

Lemma own_snoc o k v : ~ In k (keys o) -> Obj.own (o ++ [(k, v)])%list k = Some v.
Proof.
  induction o as [|[k' v'] o IH]; simpl; intros H.
  - now rewrite String.eqb_refl.
  - destruct (String.eqb_spec k' k) as [->|Hne]; [tauto|]. apply IH. tauto.
Qed.

Lemma replace_snoc o k v v' :
  ~ In k (keys o) -> Obj.replace (o ++ [(k, v)])%list k v' = (o ++ [(k, v')])%list.
Proof.
  induction o as [|[k' w] o IH]; simpl; intros H.
  - now rewrite String.eqb_refl.
  - destruct (String.eqb_spec k' k) as [->|Hne]; [tauto|]. f_equal. apply IH. tauto.
Qed.

Lemma keys_replace o k v : keys (Obj.replace o k v) = keys o.
Proof.
  induction o as [|[k' w] o IH]; simpl; [reflexivity|].
  destruct (String.eqb k' k); simpl; congruence.
Qed.

Lemma In_replace o k v k' v' :
  In (k', v') (Obj.replace o k v) -> (k' = k /\ v' = v) \/ In (k', v') o.
Proof.
  induction o as [|[k0 w] o IH]; simpl; [tauto|].
  destruct (String.eqb_spec k0 k) as [->|Hne]; simpl.
  - intros [H|H]; [left; split; congruence|tauto].
  - intros [H|H]; [tauto|]. destruct (IH H); tauto.
Qed.

Lemma insert_index_last o i k v :
  Obj.array_index k = Some i ->
  Forall (fun k' => key_before k' k) (keys o) ->
  Obj.insert_index o i k v = (o ++ [(k, v)])%list.
Proof.
  intros Hk. induction o as [|[k' w] o IH]; simpl; intros H; [reflexivity|].
  inversion H as [|? ? Hb Hrest]; subst.
  unfold key_before in Hb. rewrite Hk in Hb.
  destruct (Obj.array_index k') as [j|]; [|tauto].
  destruct (N.ltb_spec i j); [lia|]. f_equal. auto.
Qed.

(** A fresh key that every present key precedes goes to the end. *)
Lemma define_last o k v :
  ~ In k (keys o) ->
  Forall (fun k' => key_before k' k) (keys o) ->
  Obj.define o k v = (o ++ [(k, v)])%list.
Proof.
  intros Hin Hb. unfold Obj.define.
  apply own_None in Hin. rewrite Hin.
  destruct (Obj.array_index k) as [i|] eqn:Hk; [|reflexivity].
  now apply insert_index_last.
Qed.

Lemma In_insert_index o i k v k' v' :
  In (k', v') (Obj.insert_index o i k v) <-> (k', v') = (k, v) \/ In (k', v') o.
Proof.
  induction o as [|[k0 w] o IH]; simpl; [intuition congruence|].
  destruct (Obj.array_index k0) as [j|]; [destruct (i <? j)%N|]; simpl;
    rewrite ?IH; intuition congruence.
Qed.

Lemma In_define o k v k' v' :
  In (k', v') (Obj.define o k v) -> (k' = k /\ v' = v) \/ In (k', v') o.
Proof.
  unfold Obj.define. destruct (Obj.own o k).
  - apply In_replace.
  - destruct (Obj.array_index k).
    + rewrite In_insert_index. intros [H|H]; [left; split; congruence|tauto].
    + rewrite in_app_iff. simpl. intros [H|[H|[]]]; [tauto|left; split; congruence].
Qed.

Lemma In_assign o k v k' v' :
  In (k', v') (Obj.assign o k v) -> (k' = k /\ v' = v) \/ In (k', v') o.
Proof.
  unfold Obj.assign. destruct (String.eqb k "__proto__").
  - destruct (Obj.own o k); [apply In_replace|tauto].
  - apply In_define.
Qed.

End ObjFacts.

Lemma inherited_proto : Obj.inherited "__proto__" = true.
Proof. reflexivity. Qed.

Lemma assign_define {V} (o : Obj.t V) k v :
  Obj.inherited k = false -> Obj.assign o k v = Obj.define o k v.
Proof.
  intros H. unfold Obj.assign.
  destruct (String.eqb_spec k "__proto__") as [->|]; [discriminate|reflexivity].
Qed.

Lemma array_index_canonical k i :
  Obj.array_index k = Some i -> k = Str.decimal i.
Proof.
  unfold Obj.array_index. destruct (NilEmpty.uint_of_string k); [|discriminate].
  destruct (String.eqb_spec (Str.decimal (N.of_uint u)) k); simpl; [|discriminate].
  destruct (_ <? _)%N; [|discriminate]. congruence.
Qed.

Lemma key_before_trans_index a b c :
  key_before a b -> key_before b c -> key_before a c.
Proof.
  unfold key_before.
  destruct (Obj.array_index a), (Obj.array_index b), (Obj.array_index c); try tauto; lia.
Qed.

Lemma sorted_snoc (l : list string) k :
  StronglySorted key_before l ->
  Forall (fun k' => key_before k' k) l ->
  StronglySorted key_before (l ++ [k])%list.
Proof.
  induction 1 as [|a l Hs IH Ha]; simpl; intros Hf.
  - repeat constructor.
  - inversion Hf; subst. constructor; [auto|].
    apply Forall_app. split; [exact Ha|]. now repeat constructor.
Qed.

Lemma sorted_middle (l1 l2 : list string) k :
  StronglySorted key_before (l1 ++ k :: l2)%list ->
  Forall (fun k' => key_before k' k) l1.
Proof.
  induction l1 as [|a l1 IH]; simpl; intros H; [constructor|].
  inversion H as [|? ? Hs Ha]; subst.
  constructor; [|auto].
  apply Forall_app in Ha as [_ Ha]. now inversion Ha.
Qed.

Lemma sorted_prefix (l1 l2 : list string) :
  StronglySorted key_before (l1 ++ l2)%list -> StronglySorted key_before l1.
Proof.
  induction l1 as [|a l1 IH]; simpl; intros H; [constructor|].
  inversion H as [|? ? Hs Ha]; subst.
  constructor; [auto|]. now apply Forall_app in Ha as [Ha _].
Qed.

(** ** [parseUrlParams]: the loop over the entries *)

Lemma includes_In l s : Str.includes l s = true <-> In s l.
Proof.
  unfold Str.includes. rewrite existsb_exists. split.
  - intros [x [Hx He]]. apply String.eqb_eq in He. now subst.
  - intros H. exists s. split; [exact H|apply String.eqb_refl].
Qed.

Lemma nodup_snoc (l : list string) k : NoDup l -> ~ In k l -> NoDup (l ++ [k])%list.
Proof.
  induction 1 as [|a l Ha Hl IH]; simpl; intros Hk.
  - repeat constructor. tauto.
  - constructor.
    + rewrite in_app_iff. simpl. intuition congruence.
    + apply IH. tauto.
Qed.

Lemma keys_app {V} (a b : Obj.t V) : keys (a ++ b)%list = (keys a ++ keys b)%list.
Proof. apply map_app. Qed.

Lemma In_keys_insert_index {V} (o : Obj.t V) i k v x :
  In x (keys (Obj.insert_index o i k v)) <-> x = k \/ In x (keys o).
Proof.
  induction o as [|[k0 w] o IH]; simpl; [intuition congruence|].
  destruct (Obj.array_index k0) as [j|]; [destruct (i <? j)%N|]; simpl;
    rewrite ?IH; intuition congruence.
Qed.

Lemma insert_index_enumerated {V} (o : Obj.t V) i k v :
  Obj.array_index k = Some i ->
  ~ In k (keys o) ->
  enumerated (keys o) ->
  enumerated (keys (Obj.insert_index o i k v)).
Proof.
  intros Hk. induction o as [|[k0 w] o IH]; intros Hin [Hnd Hs].
  - split; repeat constructor. tauto.
  - simpl in Hin, Hnd, Hs.
    inversion Hnd as [|? ? Hk0 Hnd']; subst.
    inversion Hs as [|? ? Hs' Hf]; subst.
    assert (Hfront : key_before k k0 -> enumerated (k :: k0 :: keys o)).
    { intros Hb. split.
      - constructor; [simpl; tauto|exact Hnd].
      - constructor; [exact Hs|]. constructor; [exact Hb|].
        revert Hf. apply Forall_impl. intros y. now apply key_before_trans_index. }
    cbn [Obj.insert_index].
    destruct (Obj.array_index k0) as [j|] eqn:Hk0i.
    + destruct (N.ltb_spec i j) as [Hlt|Hge].
      * apply Hfront. unfold key_before. now rewrite Hk, Hk0i.
      * assert (j <> i) as Hne.
        { intros ->. apply array_index_canonical in Hk, Hk0i. apply Hin. left. congruence. }
        destruct IH as [IHnd IHs]; [tauto|split; assumption|].
        cbn [keys map fst] in *. split.
        -- constructor; [|exact IHnd].
           change (map fst (Obj.insert_index o i k v)) with (keys (Obj.insert_index o i k v)).
           rewrite In_keys_insert_index. intros [->|H]; [apply Hin; now left|tauto].
        -- constructor; [exact IHs|].
           apply Forall_forall. intros y Hy.
           change (map fst (Obj.insert_index o i k v)) with (keys (Obj.insert_index o i k v)) in Hy.
           apply In_keys_insert_index in Hy as [->|Hy].
           ++ unfold key_before. rewrite Hk, Hk0i. lia.
           ++ rewrite Forall_forall in Hf. now apply Hf.
    + apply Hfront. unfold key_before. now rewrite Hk, Hk0i.
Qed.

Lemma define_enumerated {V} (o : Obj.t V) k v :
  enumerated (keys o) -> enumerated (keys (Obj.define o k v)).
Proof.
  intros He. unfold Obj.define.
  destruct (Obj.own o k) eqn:Ho; [now rewrite keys_replace|].
  apply own_None in Ho.
  destruct (Obj.array_index k) as [i|] eqn:Hk.
  - now apply insert_index_enumerated.
  - destruct He as [Hnd Hs]. rewrite keys_app. cbn [keys map fst]. split.
    + now apply nodup_snoc.
    + apply sorted_snoc; [exact Hs|].
      apply Forall_forall. intros y _. unfold key_before. rewrite Hk.
      now destruct (Obj.array_index y).
Qed.

Section Collect.
Variable allowedFilterKeys : list string.
Local Abbreviation inv := (collect_inv allowedFilterKeys).

Lemma collect_preserves o e o' :
  inv o -> Report.collect allowedFilterKeys o e = Ok o' -> inv o'.
Proof.
  intros [He Hf] H. destruct e as [key value]. unfold Report.collect in H.
  set (ck := Report.cleanKey key) in *.
  destruct (Str.includes allowedFilterKeys ck) eqn:Hal; cbn [andb] in H;
    [|injection H as <-; now split].
  destruct (Str.includes ["page"; "limit"] ck) eqn:Hpl; cbn [negb] in H;
    [injection H as <-; now split|].
  apply includes_In in Hal.
  unfold Obj.get in H. destruct (Obj.own o ck) as [vs|] eqn:Ho.
  - injection H as <-.
    pose proof (own_Some_In _ _ _ Ho) as Hin.
    rewrite Forall_forall in Hf. destruct (Hf _ Hin) as (_ & _ & Hinh & _).
    cbn [fst] in Hinh. rewrite assign_define by exact Hinh.
    split; [now apply define_enumerated|].
    apply Forall_forall. intros [k' v'] Hk'.
    apply In_define in Hk' as [[-> ->]|Hk']; [|now apply Hf].
    repeat split; cbn [fst snd]; auto. now destruct vs.
  - destruct (Obj.inherited ck) eqn:Hinh; [discriminate|]. injection H as <-.
    rewrite assign_define by exact Hinh.
    split; [now apply define_enumerated|].
    rewrite Forall_forall in Hf. apply Forall_forall. intros [k' v'] Hk'.
    apply In_define in Hk' as [[-> ->]|Hk']; [|now apply Hf].
    repeat split; cbn [fst snd]; auto. discriminate.
Qed.

Lemma collect_all_preserves entries : forall o o',
  inv o -> Report.collect_all allowedFilterKeys o entries = Ok o' -> inv o'.
Proof.
  induction entries as [|e r IH]; simpl; intros o o' Hi H.
  - now injection H as <-.
  - destruct (Report.collect allowedFilterKeys o e) as [o1|] eqn:Hc; [|discriminate].
    simpl in H. eapply IH; [|exact H]. eapply collect_preserves; eassumption.
Qed.

Lemma collect_all_app l1 : forall o l2,
  Report.collect_all allowedFilterKeys o (l1 ++ l2)%list
  = (o' <- Report.collect_all allowedFilterKeys o l1 ;;
     Report.collect_all allowedFilterKeys o' l2).
Proof.
  induction l1 as [|e l1 IH]; simpl; intros o l2; [reflexivity|].
  destruct (Report.collect allowedFilterKeys o e); simpl; [apply IH|reflexivity].
Qed.

(** The loop never throws when no allowed key is an inherited name. *)
Lemma collect_all_total entries :
  (forall k, In k allowedFilterKeys -> Obj.inherited k = false) ->
  forall o, exists o', Report.collect_all allowedFilterKeys o entries = Ok o'.
Proof.
  intros Hal. induction entries as [|[key value] r IH]; simpl; intros o; [eauto|].
  unfold Report.collect.
  destruct (Str.includes allowedFilterKeys (Report.cleanKey key)) eqn:Hin; cbn [andb];
    [|apply IH].
  destruct (negb _); [|apply IH].
  apply includes_In, Hal in Hin.
  unfold Obj.get. destruct (Obj.own o _); [apply IH|]. rewrite Hin. apply IH.
Qed.

(** Reading back the pairs written for one key. *)
Lemma collect_pair o k v :
  In k allowedFilterKeys -> Str.includes ["page"; "limit"] k = false ->
  Report.collect allowedFilterKeys o (k ++ "[]", v)
  = match Obj.get o k with
    | Obj.Own vs => Ok (Obj.assign o k (vs ++ [v])%list)
    | Obj.Inherited => TypeError
    | Obj.Undefined => Ok (Obj.assign o k [v])
    end.
Proof.
  intros Hal Hpl. unfold Report.collect. rewrite cleanKey_brackets.
  apply includes_In in Hal. now rewrite Hal, Hpl.
Qed.

Lemma collect_more_values o k vs : forall cur,
  In k allowedFilterKeys -> Str.includes ["page"; "limit"] k = false ->
  Obj.inherited k = false -> ~ In k (keys o) ->
  Report.collect_all allowedFilterKeys (o ++ [(k, cur)])%list
    (map (fun v => (k ++ "[]", v)) vs)
  = Ok (o ++ [(k, (cur ++ vs)%list)])%list.
Proof.
  induction vs as [|v vs IH]; intros cur Hal Hpl Hinh Hk; cbn [map Report.collect_all].
  - now rewrite app_nil_r.
  - rewrite collect_pair by assumption.
    unfold Obj.get. rewrite own_snoc by exact Hk.
    rewrite assign_define by exact Hinh.
    unfold Obj.define. rewrite own_snoc by exact Hk.
    rewrite replace_snoc by exact Hk. cbn [bind].
    rewrite IH by assumption. now rewrite <- app_assoc.
Qed.

Lemma collect_fragment o k vs :
  collected allowedFilterKeys (k, vs) -> ~ In k (keys o) ->
  Forall (fun k' => key_before k' k) (keys o) ->
  Report.collect_all allowedFilterKeys o (map (fun v => (k ++ "[]", v)) vs)
  = Ok (o ++ [(k, vs)])%list.
Proof.
  intros (Hal & Hpl & Hinh & Hne) Hk Hb. cbn [fst snd] in *.
  destruct vs as [|v vs]; [congruence|]. cbn [map Report.collect_all].
  rewrite collect_pair by assumption.
  unfold Obj.get. rewrite (proj2 (own_None o k) Hk), Hinh.
  rewrite assign_define by exact Hinh.
  rewrite define_last by assumption. cbn [bind].
  now rewrite collect_more_values.
Qed.

(** Reading back what the serializers append for a whole object gives
    the object again. *)
Lemma collect_rebuild rest : forall o,
  enumerated (keys (o ++ rest)%list) ->
  Forall (collected allowedFilterKeys) rest ->
  Report.collect_all allowedFilterKeys o (filter_pairs rest) = Ok (o ++ rest)%list.
Proof.
  induction rest as [|[k vs] rest IH]; intros o He Hf; cbn [filter_pairs flat_map].
  - now rewrite app_nil_r.
  - inversion Hf as [|? ? Hkv Hrest]; subst. cbn [fst snd].
    rewrite collect_all_app.
    destruct He as [Hnd Hs]. rewrite keys_app in Hnd, Hs. cbn [keys map fst] in Hnd, Hs.
    rewrite collect_fragment.
    + cbn [bind]. change (flat_map _ rest) with (filter_pairs rest).
      rewrite IH; [now rewrite <- app_assoc| |exact Hrest].
      rewrite <- app_assoc. cbn [app]. rewrite keys_app. now split.
    + exact Hkv.
    + now apply NoDup_remove_2 in Hnd; rewrite in_app_iff in Hnd; tauto.
    + eapply sorted_middle. exact Hs.
Qed.

End Collect.

Lemma collect_inv_nil allowed : collect_inv allowed [].
Proof. split; [split|]; constructor. Qed.

(** ** The shape of what [parseUrlParams] returns *)

Lemma map_pair_id {A B} (l : list (A * B)) : map (fun kv => (fst kv, snd kv)) l = l.
Proof. induction l as [|[a b] l IH]; simpl; congruence. Qed.

Lemma to_double_nonneg z :
  0 <= z -> to_double z = PosInf \/ exists y, 0 <= y /\ to_double z = Int y.
Proof.
  intros Hz. unfold to_double.
  destruct (Z.leb_spec overflow (round53 (Z.abs z))).
  - destruct (Z.ltb_spec z 0); [lia|now left].
  - right. eexists. split; [|reflexivity].
    destruct (Z.eq_dec z 0) as [->|Hne]; [reflexivity|].
    pose proof (round53_pos (Z.abs z)). rewrite Z.sgn_pos by lia. lia.
Qed.

(** [Math.max(1, x) - 1] is [NaN], [Infinity] or a non-negative integer. *)
Lemma page_shape x :
  let pg := Num.sub (Num.max (Int 1) x) (Int 1) in
  pg = NaN \/ pg = PosInf \/ exists y, 0 <= y /\ pg = Int y.
Proof.
  destruct x as [| | |z]; cbn [Num.max Num.sub]; auto.
  - right. right. exists 0. split; [lia|reflexivity].
  - destruct (to_double_nonneg (Z.max 1 z - 1)) as [H|H]; [lia|auto|auto].
Qed.

(** [Math.min(Math.max(1, x), 50)] is [NaN] or an integer of [1..50]. *)
Lemma limit_shape x :
  let l := Num.min (Num.max (Int 1) x) (Int 50) in
  l = NaN \/ exists n, 1 <= n <= 50 /\ l = Int n.
Proof.
  destruct x as [| | |z]; cbn [Num.max Num.min]; auto.
  - right. exists 50. split; [lia|reflexivity].
  - right. exists 1. split; [lia|reflexivity].
  - right. eexists. split; [|reflexivity]. lia.
Qed.

Lemma or_default_some s d : s <> EmptyString -> Report.or_default (Some s) d = s.
Proof. destruct s; [congruence|reflexivity]. Qed.

Lemma toString_not_empty_small z : 0 <= z < two53 -> Conv.toString (Int z) <> EmptyString.
Proof. intros H. rewrite toString_small by exact H. apply decimal_not_empty. Qed.

(** Writing a page to the URL and reading it back. *)
Lemma reread_page pg d :
  pg = NaN \/ (exists y, 0 <= y /\ y + 1 < two53 /\ pg = Int y) ->
  Num.sub
    (Num.max (Int 1)
       (Conv.parseInt (Report.or_default (Some (Conv.toString (Num.add pg (Int 1)))) d)))
    (Int 1) = pg.
Proof.
  intros [->|(y & H0 & H1 & ->)]; [reflexivity|].
  cbn [Num.add]. rewrite to_double_small by lia.
  rewrite or_default_some by (apply toString_not_empty_small; lia).
  rewrite parseInt_toString by lia.
  cbn [Num.max Num.sub]. rewrite Z.max_r by lia.
  replace (y + 1 - 1) with y by lia. apply to_double_small. lia.
Qed.

(** Writing a limit to the URL and reading it back. *)
Lemma reread_limit l d :
  l = NaN \/ (exists n, 1 <= n <= 50 /\ l = Int n) ->
  Num.min
    (Num.max (Int 1)
       (Conv.parseInt (Report.or_default (Some (Conv.toString l)) d)))
    (Int 50) = l.
Proof.
  pose proof two53_eq as E.
  intros [->|(n & Hn & ->)]; [reflexivity|].
  rewrite or_default_some by (apply toString_not_empty_small; lia).
  rewrite parseInt_toString by lia.
  cbn [Num.max Num.min]. f_equal. lia.
Qed.

Lemma append_pairs (fs : list fragment) : forall params : URLSearchParams.t,
  fold_left
    (fun ps (filter : fragment) =>
       fold_left (fun ps v => URLSearchParams.append ps (fst filter ++ "[]") v)
                 (snd filter) ps)
    fs params
  = (params ++ filter_pairs fs)%list.
Proof.
  assert (Hin : forall k (vs : list string) (ps : URLSearchParams.t),
             fold_left (fun ps v => URLSearchParams.append ps (k ++ "[]") v) vs ps
             = (ps ++ map (fun v => ((k ++ "[]")%string, v)) vs)%list).
  { intros k vs. induction vs as [|v vs IH]; intros ps; cbn [fold_left map].
    - now rewrite app_nil_r.
    - rewrite IH. unfold URLSearchParams.append. now rewrite <- app_assoc. }
  induction fs as [|f fs IH]; intros params; cbn [fold_left filter_pairs flat_map].
  - now rewrite app_nil_r.
  - rewrite IH, Hin. now rewrite <- app_assoc.
Qed.

(** The pairs that the initialization serializer writes. *)
Lemma initQuery_pairs pg l fs :
  URLSearchParams.create ("?" ++ Report.initQuery pg l fs)
  = (("page", Conv.toString (Num.add pg (Int 1)))
       :: ("limit", Conv.toString l) :: filter_pairs fs).
Proof.
  unfold Report.initQuery. rewrite create_toString, append_pairs. reflexivity.
Qed.

Lemma parseUrlParams_inv allowed search p :
  Report.parseUrlParams allowed search = Ok p ->
  Report.collect_all allowed [] (URLSearchParams.create search) = Ok (Report.filters p)
  /\ Report.page p
     = Num.sub
         (Num.max (Int 1)
            (Conv.parseInt
               (Report.or_default
                  (URLSearchParams.get (URLSearchParams.create search) "page") "1")))
         (Int 1)
  /\ Report.limit p
     = Num.min
         (Num.max (Int 1)
            (Conv.parseInt
               (Report.or_default
                  (URLSearchParams.get (URLSearchParams.create search) "limit") "20")))
         (Int 50).
Proof.
  unfold Report.parseUrlParams. intros H.
  destruct (Report.collect_all allowed [] (URLSearchParams.create search)) as [o|];
    [|discriminate].
  cbn [bind] in H. injection H as <-. cbn [Report.filters Report.page Report.limit].
  unfold Obj.entries. now rewrite map_pair_id.
Qed.

(** [parseUrlParams] returns whenever no allowed key names a property
    inherited from [Object.prototype]. *)
Lemma parseUrlParams_total allowed search :
  (forall k, In k allowed -> Obj.inherited k = false) ->
  exists p, Report.parseUrlParams allowed search = Ok p.
Proof.
  intros H. unfold Report.parseUrlParams.
  destruct (collect_all_total allowed (URLSearchParams.create search) H []) as [o ->].
  cbn [bind]. eauto.
Qed.

(** The filters that [parseUrlParams] returns are the own properties of
    one object: distinct allowed keys in enumeration order, each with at
    least one value. *)
Lemma parseUrlParams_filters allowed search p :
  Report.parseUrlParams allowed search = Ok p ->
  collect_inv allowed (Report.filters p).
Proof.
  intros H. apply parseUrlParams_inv in H as (H & _).
  eapply collect_all_preserves; [apply collect_inv_nil|exact H].
Qed.

(** ** C1: one normalization pass *)

(** C1, as amended.  Decoding a query string, writing the decoded state
    back as the initialization effect does and decoding that again gives
    the same state, provided the decoded page is [NaN] or an integer
    whose successor is below [2^53] (the range in which the page survives
    [+ 1], [toString] and [parseInt]).  States are compared field by
    field, a [NaN] being equal to a [NaN]. *)
Theorem normalization_idempotent allowed search p :
  Report.parseUrlParams allowed search = Ok p ->
  exact_page (Report.page p) ->
  Report.parseUrlParams allowed
    ("?" ++ Report.initQuery (Report.page p) (Report.limit p) (Report.filters p))
  = Ok p.
Proof.
  intros Hp Hex.
  pose proof (parseUrlParams_filters _ _ _ Hp) as [Hen Hcol].
  apply parseUrlParams_inv in Hp as (_ & Hpage & Hlimit).
  unfold Report.parseUrlParams. rewrite initQuery_pairs.
  cbn [URLSearchParams.get String.eqb Ascii.eqb Bool.eqb].
  cbn [Report.collect_all].
  assert (Hskip : forall v o name,
             Str.includes ["page"; "limit"] name = true ->
             Report.cleanKey name = name ->
             Report.collect allowed o (name, v) = Ok o).
  { intros v o name H1 H2. unfold Report.collect. rewrite H2, H1.
    now rewrite andb_false_r. }
  rewrite Hskip by reflexivity. cbn [bind].
  rewrite Hskip by reflexivity. cbn [bind].
  rewrite (collect_rebuild allowed (Report.filters p) []) by assumption.
  cbn [bind app]. unfold Obj.entries. rewrite map_pair_id.
  rewrite reread_page, reread_limit.
  - now destruct p.
  - rewrite Hlimit. apply limit_shape.
  - destruct (page_shape
                (Conv.parseInt
                   (Report.or_default
                      (URLSearchParams.get (URLSearchParams.create search) "page") "1")))
      as [H|[H|(y & Hy & H)]]; rewrite <- Hpage in H.
    + now left.
    + rewrite H in Hex. contradiction.
    + right. exists y. rewrite H in Hex. simpl in Hex. auto.
Qed.

Lemma normalization_idempotent_witness :
  Report.parseUrlParams schoolFilterKeys
    ("?" ++ Report.initQuery (Int 2) (Int 50) [("gender", ["Male"; "Other"])])
  = Ok (Report.Parsed (Int 2) (Int 50) [("gender", ["Male"; "Other"])]).
Proof.
  apply (normalization_idempotent schoolFilterKeys
           "?page=3&limit=500&gender[]=Male&secretKey[]=x&gender=Other"
           (Report.Parsed (Int 2) (Int 50) [("gender", ["Male"; "Other"])])).
  - vm_compute. reflexivity.
  - vm_compute. reflexivity.
Defined.

(** C1 as stated fails on a page of 22 digits: [parseInt] reads it as the
    double [1e21], which [toString] writes as [1e+21], and [parseInt]
    reads that back as [1]. *)
Lemma huge_page_not_idempotent :
  exists p,
    Report.parseUrlParams schoolFilterKeys "?page=1000000000000000000000" = Ok p
    /\ Report.initQuery (Report.page p) (Report.limit p) (Report.filters p)
       = "page=1e%2B21&limit=20"
    /\ Report.parseUrlParams schoolFilterKeys
         ("?" ++ Report.initQuery (Report.page p) (Report.limit p) (Report.filters p))
       = Ok (Report.Parsed (Int 0) (Int 20) [])
    /\ Report.parseUrlParams schoolFilterKeys
         ("?" ++ Report.initQuery (Report.page p) (Report.limit p) (Report.filters p))
       <> Ok p.
Proof.
  exists (Report.Parsed (Int 1000000000000000000000) (Int 20) []).
  repeat split; try (vm_compute; reflexivity).
  vm_compute. discriminate.
Qed.

(** ** C3: the limit *)

(** C3, as amended.  An absent or empty limit decodes to 20.  A limit
    that [parseInt] reads as a number decodes to an integer of [1..50]:
    1 for zero and negatives, 50 above 50, itself in between. *)
Theorem limit_clamped allowed search p :
  Report.parseUrlParams allowed search = Ok p ->
  let given := URLSearchParams.get (URLSearchParams.create search) "limit" in
  (given = None \/ given = Some EmptyString -> Report.limit p = Int 20)
  /\ (forall s, given = Some s -> Conv.parseInt s <> NaN ->
      exists n, Report.limit p = Int n /\ 1 <= n <= 50
        /\ forall z, Conv.parseInt s = Int z ->
             (z <= 0 -> n = 1) /\ (1 <= z <= 50 -> n = z) /\ (50 < z -> n = 50)).
Proof.
  intros Hp given. apply parseUrlParams_inv in Hp as (_ & _ & Hl).
  fold given in Hl. split.
  - intros [H|H]; rewrite H in Hl; exact Hl.
  - intros s Hs Hnum. rewrite Hs in Hl.
    assert (s <> EmptyString) as Hne by (intros ->; now apply Hnum).
    rewrite or_default_some in Hl by exact Hne.
    destruct (Conv.parseInt s) as [| | |z] eqn:Hz; cbn [Num.max Num.min] in Hl.
    + congruence.
    + exists 50. repeat split; try lia; try exact Hl; discriminate.
    + exists 1. repeat split; try lia; try exact Hl; discriminate.
    + exists (Z.min (Z.max 1 z) 50). split; [exact Hl|]. split; [lia|].
      intros z' [= <-]. lia.
Qed.

Lemma limit_clamped_witness :
  exists n, Report.limit (Report.Parsed (Int 0) (Int 50) []) = Int n /\ 1 <= n <= 50
    /\ forall z, Conv.parseInt "1000" = Int z ->
         (z <= 0 -> n = 1) /\ (1 <= z <= 50 -> n = z) /\ (50 < z -> n = 50).
Proof.
  refine (proj2 (limit_clamped schoolFilterKeys "?limit=1000"
                   (Report.Parsed (Int 0) (Int 50) []) _) "1000" _ _).
  - vm_compute. reflexivity.
  - vm_compute. reflexivity.
  - vm_compute. discriminate.
Defined.

(** The four numeric inputs of the claim. *)
Example limit_examples :
  map (fun s => option_map Report.limit
                  (match Report.parseUrlParams schoolFilterKeys ("?limit=" ++ s) with
                   | Ok p => Some p
                   | TypeError => None
                   end))
      ["0"; "-5"; "51"; "1000"; EmptyString]
  = [Some (Int 1); Some (Int 1); Some (Int 50); Some (Int 50); Some (Int 20)].
Proof. vm_compute. reflexivity. Qed.

(** C3 as stated fails: a limit of 0 or -5 decodes to 1, not to the
    default 20. *)
Lemma zero_limit_is_one :
  exists p q,
    Report.parseUrlParams schoolFilterKeys "?limit=0" = Ok p
    /\ Report.limit p = Int 1 /\ Report.limit p <> Int 20
    /\ Report.parseUrlParams schoolFilterKeys "?limit=-5" = Ok q
    /\ Report.limit q = Int 1 /\ Report.limit q <> Int 20.
Proof.
  exists (Report.Parsed (Int 0) (Int 1) []), (Report.Parsed (Int 0) (Int 1) []).
  repeat split; try (vm_compute; reflexivity); vm_compute; discriminate.
Qed.

(** A limit without a leading number is left as [NaN] by the two
    [Math] calls. *)
Example text_limit_is_NaN :
  Report.parseUrlParams schoolFilterKeys "?limit=abc"
  = Ok (Report.Parsed (Int 0) NaN []).
Proof. vm_compute. reflexivity. Qed.

(** ** C2: the pagination correction *)

Lemma gt_zero_not_zero x : Num.gt x (Int 0) = true -> Num.strict_eq x (Int 0) = false.
Proof.
  destruct x as [| | |z]; try reflexivity; cbn.
  intros H. apply Z.ltb_lt in H. apply Z.eqb_neq. lia.
Qed.

(** The correction as the source comments describe it, for a fetch
    started with [itemsPerPage] a positive integer that settles with a
    well-formed result whose [total] is a non-negative integer.  With
    [totalPages = ceil(total / itemsPerPage)]: when [total > 0] and
    [pageNumber >= totalPages], or [total = 0] and [pageNumber <> 0], the
    page is reset to 0 and columns, rows and total stay as they were;
    otherwise the result is committed and the page stays. *)
Theorem pagination_correction {Col Row} (f : Report.fetch) (cols : list Col)
    (rows : list Row) (total ipp : Z) (s : view Col Row) :
  Report.f_itemsPerPage f = Int ipp -> 1 <= ipp -> 0 <= total ->
  let totalPages := Num.ceil_div (Int total) (Int ipp) in
  let s' :=
    Report.fetchData_settle f
      (Report.Resolved (Report.Data (Some cols) (Some rows) (Some (Int total)))) s in
  if (0 <? total) && Num.ge (Report.f_pageNumber f) totalPages
     || (total =? 0) && negb (Num.strict_eq (Report.f_pageNumber f) (Int 0))
  then pageNumber s' = Int 0
       /\ columnTitles s' = columnTitles s
       /\ rowsData s' = rowsData s
       /\ totalItems s' = totalItems s
  else pageNumber s' = pageNumber s
       /\ columnTitles s' = cols
       /\ rowsData s' = rows
       /\ totalItems s' = Int total.
Proof.
  intros Hipp Hi Ht totalPages s'. subst s' totalPages.
  unfold Report.fetchData_settle, Report.on_data. rewrite Hipp.
  cbn [Report.to_number].
  assert (Report.total_or_zero (Some (Int total)) = Int total) as ->.
  { cbn. now destruct (Z.eqb_spec total 0) as [->|]. }
  destruct (Z.eq_dec total 0) as [->|Hne].
  - rewrite ceil_div_zero by lia. cbn [Z.ltb Z.compare andb orb Z.eqb].
    replace (Num.gt (Int 0) (Int 0)) with false by reflexivity.
    rewrite !andb_false_r.
    replace (Num.strict_eq (Int 0) (Int 0)) with true by reflexivity.
    cbn [andb].
    destruct (negb (Num.strict_eq (Report.f_pageNumber f) (Int 0)));
      repeat split.
  - assert (0 < total) as Hpos by lia.
    pose proof (ceil_div_pos total ipp Hpos ltac:(lia)) as Hgt.
    rewrite Hgt, (gt_zero_not_zero _ Hgt), andb_true_r. cbn [andb].
    destruct (Z.ltb_spec 0 total); [|lia].
    destruct (Z.eqb_spec total 0); [lia|]. cbn [andb]. rewrite orb_false_r.
    destruct (Num.ge (Report.f_pageNumber f) (ceil_div (Int total) (Int ipp)));
      [repeat split|].
    destruct (Report.no_rows (Some rows) && Num.gt (Int total) (Int 0));
      [|destruct (Num.strict_eq (Int total) (Int 0))]; repeat split.
Qed.

(** The example of the specification: 45 rows, 20 per page, page 5. *)
Lemma pagination_correction_witness :
  let s := setPageNumber (Int 5) (@mount string string) in
  let s' :=
    Report.fetchData_settle (Report.Fetch (Int 5) (Int 20) [])
      (Report.Resolved (Report.Data (Some ["id"]) (Some []) (Some (Int 45)))) s in
  pageNumber s' = Int 0
  /\ columnTitles s' = columnTitles s
  /\ rowsData s' = rowsData s
  /\ totalItems s' = totalItems s.
Proof.
  exact (pagination_correction (Report.Fetch (Int 5) (Int 20) []) ["id"] [] 45 20
           (setPageNumber (Int 5) (@mount string string))
           eq_refl ltac:(lia) ltac:(lia)).
Defined.

(** With [itemsPerPage] a positive integer, [Math.ceil(total / itemsPerPage)]
    is the integer ceiling, and the page is at or beyond it exactly when its
    first row is at or beyond the total. *)
Lemma total_pages_ceiling total ipp page :
  0 < total -> 0 < ipp -> total + ipp < 2 ^ 52 ->
  exists totalPages,
    ceil_div (Int total) (Int ipp) = Int totalPages
    /\ ipp * (totalPages - 1) < total <= ipp * totalPages
    /\ (Num.ge (Int page) (Int totalPages) = true <-> total <= page * ipp).
Proof.
  intros Ht Hi Hb. exists ((total + ipp - 1) / ipp).
  split; [now apply ceil_div_exact|].
  pose proof (Z.div_mod (total + ipp - 1) ipp ltac:(lia)) as E.
  pose proof (Z.mod_pos_bound (total + ipp - 1) ipp ltac:(lia)) as B.
  remember ((total + ipp - 1) / ipp) as q. remember ((total + ipp - 1) mod ipp) as r.
  split; [nia|].
  unfold Num.ge, Num.lt, Num.strict_eq.
  rewrite orb_true_iff, Z.ltb_lt, Z.eqb_eq. nia.
Qed.

(** C2.  The claim fails on the demo page at the URL
    [?limit=abc&page=3&gender[]=Other].  [parseInt] reads no number in
    [abc] and the clamp lets [NaN] through, so the view starts on page 2
    with [itemsPerPage = NaN].  The fetch effect starts a fetch, the mock
    report answers it with no rows and [total = 0], and [totalPages] is
    [NaN]: neither test of the correction holds.  The empty answer is
    committed with the notice for no data, and the page stays 2, where the
    claim and the comment of the source ask for page 0. *)
Theorem nan_limit_keeps_empty_page :
  exists (s0 : view Api.column Api.student) nav f columns,
    Report.initEffect SchoolDataPage.allowedFilterKeys
      "?limit=abc&page=3&gender[]=Other" mount = Ok (s0, nav)
    /\ pageNumber s0 = Int 2 /\ itemsPerPage s0 = NaN
    /\ Report.fetchEffect s0 = (setShowLoader true s0, Some f)
    /\ SchoolDataPage.answer f
       = Some (Report.Resolved (Report.Data (Some columns) (Some []) (Some (Int 0))))
    /\ columns <> []
    /\ let s' :=
         Report.handle SchoolDataPage.allowedFilterKeys
           (Report.Settle f
              (Report.Resolved (Report.Data (Some columns) (Some []) (Some (Int 0)))))
           (Report.handle SchoolDataPage.allowedFilterKeys Report.StartFetch s0) in
       Report.reachable SchoolDataPage.allowedFilterKeys
         "?limit=abc&page=3&gender[]=Other" s'
       /\ pageNumber s' = Int 2
       /\ columnTitles s' = columns /\ rowsData s' = [] /\ totalItems s' = Int 0
       /\ snackbarOpen s' = true
       /\ snackbarMessage s' = "No data found matching current filters."
       /\ showLoader s' = false.
Proof.
  do 4 eexists.
  split; [vm_compute; reflexivity|].
  split; [reflexivity|]. split; [reflexivity|].
  split; [vm_compute; reflexivity|].
  split; [vm_compute; reflexivity|].
  split; [discriminate|].
  cbv zeta. split.
  - apply Report.reach_step; [|exact I].
    apply Report.reach_step; [|exact I].
    eapply Report.reach_init. vm_compute. reflexivity.
  - vm_compute. repeat split.
Qed.

(** ** C7: a rejected fetch *)

(** A rejection whose reason is not [null] or [undefined]: columns and
    rows are emptied, the total is zero, the notice carries the text of
    the reason's [message] with severity [error], and the loader is
    hidden.  No dependency of the fetch effect changes, so no new fetch
    starts. *)
Lemma rejection_with_reason {Col Row} (f : Report.fetch) (message : option string)
    (s : view Col Row) :
  let s' := Report.fetchData_settle f (Report.Rejected (Report.Readable message)) s in
  columnTitles s' = [] /\ rowsData s' = [] /\ totalItems s' = Int 0
  /\ snackbarOpen s' = true
  /\ snackbarMessage s' = "Failed to fetch data: " ++ Report.message_text message
  /\ snackbarSeverity s' = "error"
  /\ showLoader s' = false
  /\ Report.same_page_state s s'.
Proof. repeat split. Qed.

(** C7.  The claim fails when the data provider rejects with [null] or
    [undefined] (a bare [Promise.reject()]): the [catch] block throws at
    [error.message] before its first setter.  Columns, rows, total and the
    notice stay as they were; only [finally] runs and hides the loader. *)
Theorem rejection_without_reason {Col Row} (f : Report.fetch) (s : view Col Row) :
  Report.on_error Report.Unreadable s = TypeError
  /\ let s' := Report.fetchData_settle f (Report.Rejected Report.Unreadable) s in
     columnTitles s' = columnTitles s /\ rowsData s' = rowsData s
     /\ totalItems s' = totalItems s
     /\ snackbarOpen s' = snackbarOpen s
     /\ snackbarMessage s' = snackbarMessage s
     /\ snackbarSeverity s' = snackbarSeverity s
     /\ showLoader s' = false
     /\ Report.same_page_state s s'.
Proof. repeat split. Qed.

(** On a view that shows rows, such a rejection leaves them on display
    with no notice. *)
Example rejection_without_reason_shows_stale_rows :
  let s : view string string :=
    View false EmptyString "info" true (Int 0) (Int 20) ["name"] ["Alice Smith"] (Int 1)
      [] false true [] in
  let s' :=
    Report.fetchData_settle (Report.Fetch (Int 0) (Int 20) [])
      (Report.Rejected Report.Unreadable) s in
  rowsData s' = ["Alice Smith"] /\ totalItems s' = Int 1
  /\ snackbarOpen s' = false /\ showLoader s' = false.
Proof. repeat split. Qed.

(** ** C8: an answer of unexpected shape *)

(** C8, as amended.  An answer that is not an object empties columns and
    rows, sets the total to zero and raises the warning.  An object whose
    fields are each missing or of the expected type is never refused for
    its shape: it goes through the pagination check like any answer, and
    either the page is reset and display and notice stay as they were, or
    it is committed with each missing field replaced by its default (no
    columns, no rows, total 0).  A committed object leaves the notice as
    it was, or raises the warning for an empty page (the rows are an
    empty array) or the notice for no data (the total is 0); the warning
    for an invalid answer is not raised.  Without [total] the object is
    always committed, with no notice.  In every case the loader is
    hidden. *)
Theorem unexpected_shape {Col Row} (f : Report.fetch) (s : view Col Row) :
  (let s' := Report.fetchData_settle f (Report.Resolved Report.NotObject) s in
   columnTitles s' = [] /\ rowsData s' = [] /\ totalItems s' = Int 0
   /\ snackbarOpen s' = true
   /\ snackbarMessage s' = "No valid data returned from API."
   /\ snackbarSeverity s' = "warning"
   /\ showLoader s' = false)
  /\ (forall dataMapping rows total,
      let s' :=
        Report.fetchData_settle f
          (Report.Resolved (Report.Data dataMapping rows total)) s in
      showLoader s' = false
      /\ ((pageNumber s' = Int 0
           /\ columnTitles s' = columnTitles s /\ rowsData s' = rowsData s
           /\ totalItems s' = totalItems s
           /\ snackbarOpen s' = snackbarOpen s
           /\ snackbarMessage s' = snackbarMessage s
           /\ snackbarSeverity s' = snackbarSeverity s)
          \/ (pageNumber s' = pageNumber s
              /\ columnTitles s' = Report.or_else dataMapping []
              /\ rowsData s' = Report.or_else rows []
              /\ totalItems s' = Report.total_or_zero total
              /\ ((snackbarOpen s' = snackbarOpen s
                   /\ snackbarMessage s' = snackbarMessage s
                   /\ snackbarSeverity s' = snackbarSeverity s)
                  \/ (rows = Some []
                      /\ snackbarOpen s' = true
                      /\ snackbarMessage s'
                         = "No data for current page. Adjust filters or page."
                      /\ snackbarSeverity s' = "warning")
                  \/ (total = Some (Int 0)
                      /\ snackbarOpen s' = true
                      /\ snackbarMessage s' = "No data found matching current filters."
                      /\ snackbarSeverity s' = "info")))))
  /\ (forall dataMapping rows,
      let s' :=
        Report.fetchData_settle f
          (Report.Resolved (Report.Data dataMapping rows None)) s in
      columnTitles s' = Report.or_else dataMapping []
      /\ rowsData s' = Report.or_else rows []
      /\ totalItems s' = Int 0
      /\ snackbarOpen s' = snackbarOpen s
      /\ snackbarMessage s' = snackbarMessage s
      /\ snackbarSeverity s' = snackbarSeverity s
      /\ pageNumber s' = pageNumber s
      /\ showLoader s' = false).
Proof.
  split; [repeat split|]. split.
  - intros dataMapping rows total s'. subst s'.
    unfold Report.fetchData_settle, Report.on_data.
    destruct (Num.ge (Report.f_pageNumber f)
                (ceil_div (Report.to_number total) (Report.f_itemsPerPage f))
              && Num.gt (ceil_div (Report.to_number total) (Report.f_itemsPerPage f)) (Int 0));
      [split; [reflexivity|left; repeat split]|].
    destruct (Num.strict_eq (ceil_div (Report.to_number total) (Report.f_itemsPerPage f)) (Int 0)
              && negb (Num.strict_eq (Report.f_pageNumber f) (Int 0)));
      [split; [reflexivity|left; repeat split]|].
    destruct (Report.no_rows rows && Num.gt (Report.to_number total) (Int 0)) eqn:Hw.
    + apply andb_true_iff in Hw as [Hr _].
      assert (rows = Some []) as -> by (now destruct rows as [[|]|]).
      split; [reflexivity|]. right. repeat split. right. left. repeat split.
    + destruct (Num.strict_eq (Report.to_number total) (Int 0)) eqn:Hz.
      * assert (total = Some (Int 0)) as ->.
        { destruct total as [[| | |z]|]; try discriminate Hz.
          cbn in Hz. apply Z.eqb_eq in Hz. now subst. }
        split; [reflexivity|]. right. repeat split. right. right. repeat split.
      * split; [reflexivity|]. right. repeat split. left. repeat split.
  - intros dataMapping rows s'. subst s'.
    unfold Report.fetchData_settle, Report.on_data. cbn [Report.to_number].
    replace (ceil_div NaN (Report.f_itemsPerPage f)) with NaN by reflexivity.
    replace (Num.ge (Report.f_pageNumber f) NaN) with false
      by (now destruct (Report.f_pageNumber f)).
    cbn [andb Num.strict_eq Num.gt Num.lt]. rewrite andb_false_r.
    repeat split.
Qed.

(** C8 as stated fails on the empty object: the display is cleared by
    the defaults, but no notice is raised; and an object that only lacks
    its [total] keeps its columns and rows. *)
Lemma empty_object_raises_no_warning :
  let f := Report.Fetch (Int 0) (Int 20) [] in
  let s := @mount string string in
  snackbarOpen (Report.fetchData_settle f (Report.Resolved (Report.Data None None None)) s)
  = false
  /\ rowsData
       (Report.fetchData_settle f
          (Report.Resolved (Report.Data (Some ["id"]) (Some ["row 1"]) None)) s)
     = ["row 1"].
Proof. split; reflexivity. Qed.

(** ** What settling a fetch leaves alone *)

Lemma settle_frame {Col Row} (f : Report.fetch) (o : Report.outcome Col Row)
    (s : view Col Row) :
  appliedFilter (Report.fetchData_settle f o s) = appliedFilter s
  /\ tempFilters (Report.fetchData_settle f o s) = tempFilters s
  /\ itemsPerPage (Report.fetchData_settle f o s) = itemsPerPage s
  /\ filterOpen (Report.fetchData_settle f o s) = filterOpen s
  /\ initialized (Report.fetchData_settle f o s) = initialized s.
Proof.
  destruct o as [[|dataMapping rows total]|[|message]];
    unfold Report.fetchData_settle, Report.on_data, Report.on_error;
    case_conditions; repeat split.
Qed.

(** ** C6: overlapping fetches *)




(** ** Reading a property after a write *)

Section OwnAfterWrite.
Context {V : Type}.
Implicit Types (o : Obj.t V) (k : string) (v : V).

Lemma own_replace o k v k' :
  Obj.own (Obj.replace o k v) k'
  = if String.eqb k k' then option_map (fun _ => v) (Obj.own o k) else Obj.own o k'.
Proof.
  induction o as [|[k0 w] o IH]; cbn [Obj.replace Obj.own].
  - now destruct (String.eqb k k').
  - destruct (String.eqb_spec k0 k) as [->|Hne]; cbn [Obj.own].
    + now destruct (String.eqb k k').
    + rewrite IH. destruct (String.eqb_spec k0 k') as [->|Hne'].
      * destruct (String.eqb_spec k k'); [congruence|reflexivity].
      * reflexivity.
Qed.

Lemma own_insert_index o i k v k' :
  Obj.own o k = None ->
  Obj.own (Obj.insert_index o i k v) k'
  = if String.eqb k k' then Some v else Obj.own o k'.
Proof.
  induction o as [|[k0 w] o IH]; cbn [Obj.insert_index Obj.own]; intros Hk.
  - reflexivity.
  - destruct (String.eqb_spec k0 k) as [->|Hne]; [discriminate|].
    destruct (Obj.array_index k0) as [j|]; [destruct (i <? j)%N|];
      cbn [Obj.own]; try reflexivity.
    rewrite (IH Hk). destruct (String.eqb_spec k0 k') as [->|]; [|reflexivity].
    destruct (String.eqb_spec k k'); [congruence|reflexivity].
Qed.

Lemma own_app o k v k' :
  Obj.own (o ++ [(k, v)])%list k'
  = match Obj.own o k' with
    | Some w => Some w
    | None => if String.eqb k k' then Some v else None
    end.
Proof.
  induction o as [|[k0 w] o IH]; cbn [app Obj.own]; [reflexivity|].
  now destruct (String.eqb k0 k').
Qed.

(** [o[k]] after defining [k] is the new value; the other keys read as
    before. *)
Lemma own_define o k v k' :
  Obj.own (Obj.define o k v) k' = if String.eqb k k' then Some v else Obj.own o k'.
Proof.
  unfold Obj.define. destruct (Obj.own o k) eqn:Hk.
  - rewrite own_replace, Hk. reflexivity.
  - destruct (Obj.array_index k).
    + now apply own_insert_index.
    + rewrite own_app. destruct (String.eqb_spec k k') as [->|].
      * now rewrite Hk.
      * now destruct (Obj.own o k').
Qed.

Lemma own_map_set (m : list (string * V)) k v k' :
  Coll.map_get (Coll.map_set m k v) k'
  = if String.eqb k k' then Some v else Coll.map_get m k'.
Proof.
  unfold Coll.map_get, Coll.map_set. destruct (Obj.own m k) eqn:Hk.
  - rewrite own_replace, Hk. reflexivity.
  - rewrite own_app. destruct (String.eqb_spec k k') as [->|].
    + now rewrite Hk.
    + now destruct (Obj.own m k').
Qed.

End OwnAfterWrite.

(** ** The filter editor *)

Lemma set_add_all_In s values v :
  In v (Coll.set_add_all s values) -> In v s \/ In v values.
Proof.
  unfold Coll.set_add_all. revert s.
  induction values as [|x values IH]; cbn [fold_left]; intros s H; [tauto|].
  apply IH in H as [H|H]; [|simpl; tauto].
  unfold Coll.set_add in H. destruct (Str.includes s x); [tauto|].
  apply in_app_iff in H as [H|[H|[]]]; simpl; tauto.
Qed.

Lemma new_Set_In values v : In v (Coll.new_Set values) -> In v values.
Proof. intros H. apply set_add_all_In in H as [[]|H]. exact H. Qed.

Lemma valid_options_lookup allowed key opts :
  Coll.map_get (FilterComponent.filterKeyToValidOptionsMap allowed) key = Some opts ->
  In key allowed
  /\ opts = Coll.new_Set (Api.getMockFilterOptions (FilterComponent.getFilterName key)).
Proof.
  unfold FilterComponent.filterKeyToValidOptionsMap.
  assert (G : forall l (m : list (string * list string)),
             (Coll.map_get m key = Some opts ->
              In key allowed
              /\ opts = Coll.new_Set (Api.getMockFilterOptions (FilterComponent.getFilterName key))) ->
             (forall x, In x l -> In x allowed) ->
             Coll.map_get
               (fold_left
                  (fun m key =>
                     Coll.map_set m key
                       (Coll.new_Set (Api.getMockFilterOptions (FilterComponent.getFilterName key))))
                  l m) key = Some opts ->
             In key allowed
             /\ opts = Coll.new_Set (Api.getMockFilterOptions (FilterComponent.getFilterName key))).
  { induction l as [|x l IH]; cbn [fold_left]; intros m Hm Hl; [exact Hm|].
    apply IH; [|intros y Hy; apply Hl; now right].
    rewrite own_map_set. destruct (String.eqb_spec x key) as [->|]; [|exact Hm].
    intros [= <-]. split; [apply Hl; now left|reflexivity]. }
  apply G; [discriminate|auto].
Qed.

(** Every entry of [initialTemp] has an allowed key and only values that
    the option source lists for that key. *)
Lemma initialTemp_sound allowed fs k vs :
  In (k, vs) (FilterComponent.initialTemp allowed fs) ->
  In k allowed
  /\ forall v, In v vs ->
       In v (Api.getMockFilterOptions (FilterComponent.getFilterName k)).
Proof.
  unfold FilterComponent.initialTemp.
  set (P := fun kv : string * list string =>
              In (fst kv) allowed
              /\ forall v, In v (snd kv) ->
                   In v (Api.getMockFilterOptions (FilterComponent.getFilterName (fst kv)))).
  change (In (k, vs) (fold_left
            (fun (acc : Obj.t (list string)) (filterObj : fragment) =>
               let '(key, values) := filterObj in
               match Coll.map_get (FilterComponent.filterKeyToValidOptionsMap allowed) key with
               | Some validOptions =>
                   Obj.assign acc key
                     (filter (fun value => Coll.set_has validOptions value) values)
               | None => acc
               end) fs []) -> P (k, vs)).
  assert (G : forall (acc : Obj.t (list string)),
             (forall kv, In kv acc -> P kv) ->
             forall kv,
               In kv (fold_left
                 (fun (acc : Obj.t (list string)) (filterObj : fragment) =>
                    let '(key, values) := filterObj in
                    match Coll.map_get (FilterComponent.filterKeyToValidOptionsMap allowed) key with
                    | Some validOptions =>
                        Obj.assign acc key
                          (filter (fun value => Coll.set_has validOptions value) values)
                    | None => acc
                    end) fs acc) -> P kv).
  { induction fs as [|[key values] fs IH]; cbn [fold_left]; intros acc Hacc; [exact Hacc|].
    apply IH.
    destruct (Coll.map_get _ key) as [opts|] eqn:Hget; [|exact Hacc].
    apply valid_options_lookup in Hget as [Hal ->].
    intros [k' vs'] Hin. apply In_assign in Hin as [[-> ->]|Hin]; [|now apply Hacc].
    split; [exact Hal|]. cbn [fst snd]. intros v Hv.
    apply filter_In in Hv as [_ Hv]. apply includes_In in Hv.
    now apply new_Set_In. }
  apply G. intros kv [].
Qed.

Lemma resetTemp_keys allowed kv :
  In kv (FilterComponent.resetTemp allowed) -> In (fst kv) allowed.
Proof.
  unfold FilterComponent.resetTemp.
  assert (G : forall l (acc : Obj.t (list string)),
             (forall kv, In kv acc -> In (fst kv) allowed) ->
             (forall x, In x l -> In x allowed) ->
             forall kv, In kv (fold_left (fun acc key => Obj.assign acc key []) l acc) ->
                        In (fst kv) allowed).
  { induction l as [|x l IH]; cbn [fold_left]; intros acc Hacc Hl; [exact Hacc|].
    apply IH; [|intros y Hy; apply Hl; now right].
    intros [k' vs'] Hin. apply In_assign in Hin as [[-> ->]|Hin]; [|now apply Hacc].
    apply Hl. now left. }
  revert kv. apply G; [intros ? []|auto].
Qed.

Lemma newAppliedFilter_In temp f :
  In f (FilterComponent.newAppliedFilter temp) -> In f temp.
Proof.
  unfold FilterComponent.newAppliedFilter, Obj.entries. rewrite map_pair_id.
  intros H. now apply filter_In in H.
Qed.

(** ** C9: staging and committing filters *)

(** C9.  An edit replaces the values of one key of [tempFilters], leaves
    the other keys and [appliedFilter] as they are.  Closing the drawer
    sets [tempFilters] to what [appliedFilter] seeds and leaves
    [appliedFilter] as it is.  Of all events of the view only applying
    and resetting can change [appliedFilter]. *)
Theorem staging_is_isolated {Col Row} (allowed : list string) (s : view Col Row) :
  (forall k vs,
      let s' := FilterComponent.handleFilterChange k vs s in
      appliedFilter s' = appliedFilter s
      /\ Obj.own (tempFilters s') k = Some vs
      /\ forall k', k' <> k ->
           Obj.own (tempFilters s') k' = Obj.own (tempFilters s) k')
  /\ (let s' := FilterComponent.handleClose allowed s in
      appliedFilter s' = appliedFilter s
      /\ tempFilters s' = FilterComponent.initialTemp allowed (appliedFilter s)
      /\ filterOpen s' = false)
  /\ (forall e : Report.event Col Row,
      match e with
      | Report.ApplyFilters | Report.ResetFilters => True
      | _ => appliedFilter (Report.handle allowed e s) = appliedFilter s
      end).
Proof.
  split; [|split].
  - intros k vs s'. subst s'. unfold FilterComponent.handleFilterChange.
    cbn [appliedFilter tempFilters setTempFilters].
    split; [reflexivity|]. split.
    + now rewrite own_define, String.eqb_refl.
    + intros k' Hne. rewrite own_define.
      destruct (String.eqb_spec k k'); [congruence|reflexivity].
  - repeat split.
  - intros [ | | | | | | | | |f o]; cbn [Report.handle]; try exact I; try reflexivity.
    + unfold Report.fetchEffect. now destruct (negb (initialized s)).
    + apply settle_frame.
Qed.

(** The scenario of the specification: with [house = Red] applied, the
    user selects [gender = Male] in the drawer and closes it; nothing is
    applied and the selection is gone.  Applying instead commits it and
    leaves out the keys without a value. *)
Example edit_then_close_or_apply :
  let s0 := setAppliedFilter [("house", ["Red"])] (@mount string string) in
  let opened := Report.handle schoolFilterKeys Report.OpenFilter s0 in
  let edited :=
    Report.handle schoolFilterKeys (Report.EditFilter "studentClass" [])
      (Report.handle schoolFilterKeys (Report.EditFilter "gender" ["Male"]) opened) in
  let closed := Report.handle schoolFilterKeys Report.CloseFilter edited in
  let applied := Report.handle schoolFilterKeys Report.ApplyFilters edited in
  tempFilters edited = [("house", ["Red"]); ("gender", ["Male"]); ("studentClass", [])]
  /\ appliedFilter edited = [("house", ["Red"])]
  /\ tempFilters closed = [("house", ["Red"])]
  /\ appliedFilter closed = [("house", ["Red"])]
  /\ appliedFilter applied = [("house", ["Red"]); ("gender", ["Male"])].
Proof. vm_compute. repeat split. Qed.

(** ** C4: the whitelist of filter keys *)

Lemma consolidate_all_keys fs : forall (o o' : Obj.t (list string)),
  Report.consolidate_all o fs = Ok o' ->
  forall kv, In kv o' -> In (fst kv) (keys o) \/ In (fst kv) (map fst fs).
Proof.
  induction fs as [|[k vs] fs IH]; cbn [Report.consolidate_all]; intros o o' H kv Hkv.
  - injection H as <-. left. now apply in_map.
  - destruct (Report.consolidate o (k, vs)) as [o1|] eqn:Hc; [|discriminate].
    cbn [bind] in H. destruct (IH _ _ H _ Hkv) as [Hin|Hin]; [|right; now right].
    unfold Report.consolidate in Hc.
    apply in_map_iff in Hin as ([k1 v1] & <- & Hin). cbn [fst].
    destruct (Obj.get o k) as [s| |].
    + injection Hc as <-. apply In_replace in Hin as [[-> _]|Hin].
      * right. now left.
      * left. now apply (in_map fst) in Hin.
    + destruct vs; [|discriminate]. injection Hc as <-.
      left. now apply (in_map fst) in Hin.
    + injection Hc as <-. apply In_assign in Hin as [[-> _]|Hin].
      * right. now left.
      * left. now apply (in_map fst) in Hin.
Qed.

(** The pairs that the state-change serializer writes. *)
Lemma syncQuery_pairs pg l fs q :
  Report.syncQuery pg l fs = Ok q ->
  exists filterValues,
    Report.consolidate_all [] fs = Ok filterValues
    /\ URLSearchParams.create ("?" ++ q)
       = (("page", Conv.toString (Num.add pg (Int 1)))
            :: ("limit", Conv.toString l) :: filter_pairs filterValues).
Proof.
  unfold Report.syncQuery.
  destruct (Report.consolidate_all [] fs) as [fv|]; [|discriminate].
  cbn [bind]. intros [= <-]. exists fv. split; [reflexivity|].
  unfold Obj.entries.
  rewrite create_toString.
  rewrite (append_pairs fv). reflexivity.
Qed.

Lemma filter_pairs_names fs name value :
  In (name, value) (filter_pairs fs) -> exists f, In f fs /\ name = fst f ++ "[]".
Proof.
  unfold filter_pairs. rewrite in_flat_map. intros (f & Hf & Hin).
  apply in_map_iff in Hin as (v & [= <- _] & _). eauto.
Qed.

Lemma reachable_keys {Col Row} allowed search (s : view Col Row) :
  Report.reachable allowed search s ->
  (forall f, In f (appliedFilter s) -> In (fst f) allowed)
  /\ (forall kv, In kv (tempFilters s) -> In (fst kv) allowed).
Proof.
  induction 1 as [s nav Hinit|s e Hr [IHa IHt] Hen].
  - unfold Report.initEffect in Hinit. cbn [initialized mount] in Hinit.
    destruct (Report.parseUrlParams allowed search) as [p|] eqn:Hp; [|discriminate].
    cbn [bind] in Hinit. injection Hinit as <- _.
    cbn. split; [|tauto].
    apply parseUrlParams_filters in Hp as [_ Hcol].
    rewrite Forall_forall in Hcol. intros f Hf. now apply Hcol in Hf as [Hal _].
  - destruct e as [newPage|value| |k vs| | | | | |f o];
      cbn [Report.handle Report.enabled] in *.
    + now split.
    + now split.
    + split; [exact IHa|]. cbn. intros [k vs] Hin.
      now apply initialTemp_sound in Hin as [Hal _].
    + split; [exact IHa|]. cbn. intros [k' vs'] Hin.
      apply In_define in Hin as [[-> _]|Hin]; [tauto|now apply (IHt (k', vs'))].
    + split; [|exact IHt]. cbn. intros f Hf.
      apply newAppliedFilter_In in Hf. now apply IHt.
    + split; [cbn; tauto|]. cbn. apply resetTemp_keys.
    + split; [exact IHa|]. cbn. intros [k vs] Hin.
      now apply initialTemp_sound in Hin as [Hal _].
    + now split.
    + unfold Report.fetchEffect. destruct (negb (initialized s)); now split.
    + destruct (settle_frame f o s) as (-> & -> & _). now split.
Qed.

(** C4.  On every view that a mount can reach, every key of
    [appliedFilter] and of [tempFilters] is an allowed key, and a query
    string written from the view by either serializer holds only the
    parameters [page], [limit] and [k[]] for allowed keys [k].  So is
    every key of the filters that [parseUrlParams] returns. *)
Theorem whitelist_enforced {Col Row} allowed search (s : view Col Row) :
  Report.reachable allowed search s ->
  (forall f, In f (appliedFilter s) -> In (fst f) allowed)
  /\ (forall kv, In kv (tempFilters s) -> In (fst kv) allowed)
  /\ (forall query name value,
        query = Report.initQuery (pageNumber s) (itemsPerPage s) (appliedFilter s)
        \/ Report.syncQuery (pageNumber s) (itemsPerPage s) (appliedFilter s) = Ok query ->
        In (name, value) (URLSearchParams.create ("?" ++ query)) ->
        name = "page" \/ name = "limit"
        \/ exists k, In k allowed /\ name = k ++ "[]")
  /\ (forall q p f,
        Report.parseUrlParams allowed q = Ok p ->
        In f (Report.filters p) -> In (fst f) allowed).
Proof.
  intros Hr. destruct (reachable_keys _ _ _ Hr) as [Ha Ht].
  split; [exact Ha|]. split; [exact Ht|]. split.
  - intros query name value [->|Hq] Hin.
    + rewrite initQuery_pairs in Hin.
      destruct Hin as [[= <- _]|[[= <- _]|Hin]]; auto.
      apply filter_pairs_names in Hin as (f & Hf & ->). eauto 6.
    + apply syncQuery_pairs in Hq as (fv & Hfv & Hq). rewrite Hq in Hin.
      destruct Hin as [[= <- _]|[[= <- _]|Hin]]; auto.
      apply filter_pairs_names in Hin as (f & Hf & ->).
      destruct (consolidate_all_keys _ _ _ Hfv _ Hf) as [[]|Hk].
      apply in_map_iff in Hk as (f' & <- & Hf'). eauto 6.
  - intros q p f Hp Hf.
    apply parseUrlParams_filters in Hp as [_ Hcol].
    rewrite Forall_forall in Hcol. now apply Hcol in Hf as [Hal _].
Qed.

Lemma whitelist_enforced_witness :
  let s :=
    View false EmptyString "info" true (Int 0) (Int 20) (@nil string) (@nil string) (Int 0)
      [("gender", ["Male"])] false true [] in
  (forall f, In f (appliedFilter s) -> In (fst f) schoolFilterKeys)
  /\ (forall kv, In kv (tempFilters s) -> In (fst kv) schoolFilterKeys)
  /\ (forall query name value,
        query = Report.initQuery (pageNumber s) (itemsPerPage s) (appliedFilter s)
        \/ Report.syncQuery (pageNumber s) (itemsPerPage s) (appliedFilter s) = Ok query ->
        In (name, value) (URLSearchParams.create ("?" ++ query)) ->
        name = "page" \/ name = "limit"
        \/ exists k, In k schoolFilterKeys /\ name = k ++ "[]")
  /\ (forall q p f,
        Report.parseUrlParams schoolFilterKeys q = Ok p ->
        In f (Report.filters p) -> In (fst f) schoolFilterKeys).
Proof.
  apply (whitelist_enforced schoolFilterKeys "?secretKey[]=x&gender[]=Male").
  apply (Report.reach_init _ _ _ (Some (Report.Navigate "page=1&limit=20&gender%5B%5D=Male" true))).
  vm_compute. reflexivity.
Defined.

(** ** C5: validation against the option source *)

Lemma assign_own {V} (o : Obj.t V) k v w :
  Obj.own o k = Some w -> Obj.assign o k v = Obj.define o k v.
Proof.
  intros H. unfold Obj.assign, Obj.define. rewrite H.
  now destruct (String.eqb k "__proto__").
Qed.

Section Kept.
Variable allowed : list string.
Variables (k value : string).
Local Abbreviation kept := (holds_value k value).

Lemma collect_keeps o e o' :
  Report.collect allowed o e = Ok o' -> kept o -> kept o'.
Proof.
  destruct e as [key value']. unfold Report.collect.
  destruct (_ && _); [|now intros [= <-]].
  unfold Obj.get. intros H (vs & Hvs & Hin).
  destruct (Obj.own o (Report.cleanKey key)) as [vs0|] eqn:Hown.
  - injection H as <-. rewrite (assign_own _ _ _ _ Hown).
    unfold holds_value. rewrite own_define.
    destruct (String.eqb_spec (Report.cleanKey key) k) as [E|]; [|eauto].
    rewrite E in Hown. exists (vs0 ++ [value'])%list. split; [reflexivity|].
    apply in_app_iff. left. congruence.
  - destruct (Obj.inherited (Report.cleanKey key)) eqn:Hinh; [discriminate|].
    injection H as <-. rewrite assign_define by exact Hinh.
    unfold holds_value. rewrite own_define.
    destruct (String.eqb_spec (Report.cleanKey key) k) as [E|]; [|eauto].
    congruence.
Qed.

Lemma collect_all_keeps entries : forall o o',
  Report.collect_all allowed o entries = Ok o' -> kept o -> kept o'.
Proof.
  induction entries as [|e r IH]; cbn [Report.collect_all]; intros o o' H Hk.
  - now injection H as <-.
  - destruct (Report.collect allowed o e) as [o1|] eqn:Hc; [|discriminate].
    cbn [bind] in H. eapply IH; [exact H|]. eapply collect_keeps; eassumption.
Qed.

Lemma collect_adds o name o' :
  Report.cleanKey name = k ->
  In k allowed -> Str.includes ["page"; "limit"] k = false ->
  Report.collect allowed o (name, value) = Ok o' -> kept o'.
Proof.
  intros Hck Hal Hpl. unfold Report.collect. rewrite Hck.
  apply includes_In in Hal. rewrite Hal, Hpl. cbn [andb negb].
  unfold Obj.get, holds_value. destruct (Obj.own o k) as [vs0|] eqn:Hown.
  - intros [= <-]. rewrite (assign_own _ _ _ _ Hown), own_define, String.eqb_refl.
    eexists. split; [reflexivity|]. apply in_app_iff. right. now left.
  - destruct (Obj.inherited k) eqn:Hinh; [discriminate|].
    intros [= <-]. rewrite assign_define, own_define, String.eqb_refl by exact Hinh.
    eexists. split; [reflexivity|]. now left.
Qed.

Lemma collect_all_adds entries name : forall o o',
  Report.cleanKey name = k ->
  In k allowed -> Str.includes ["page"; "limit"] k = false ->
  In (name, value) entries ->
  Report.collect_all allowed o entries = Ok o' -> kept o'.
Proof.
  induction entries as [|e r IH]; cbn [Report.collect_all]; intros o o' Hck Hal Hpl Hin H.
  - destruct Hin.
  - destruct (Report.collect allowed o e) as [o1|] eqn:Hc; [|discriminate].
    cbn [bind] in H. destruct Hin as [->|Hin].
    + eapply collect_all_keeps; [exact H|]. eapply collect_adds; eassumption.
    + eapply IH; eassumption.
Qed.

End Kept.

(** C5, as amended.  Validation against the option source happens where
    [tempFilters] is seeded from [appliedFilter] (when the drawer opens
    and when it is closed): every seeded value is a listed option of its
    key, the others are dropped without a notice.  [appliedFilter] as
    derived from the URL is not validated: every value given under an
    allowed key is kept. *)
Theorem values_validated_when_seeded allowed :
  (forall fs k vs v,
      In (k, vs) (FilterComponent.initialTemp allowed fs) -> In v vs ->
      In k allowed
      /\ In v (Api.getMockFilterOptions (FilterComponent.getFilterName k)))
  /\ (forall search p name value,
        Report.parseUrlParams allowed search = Ok p ->
        In (name, value) (URLSearchParams.create search) ->
        In (Report.cleanKey name) allowed ->
        Str.includes ["page"; "limit"] (Report.cleanKey name) = false ->
        exists vs, In (Report.cleanKey name, vs) (Report.filters p) /\ In value vs).
Proof.
  split.
  - intros fs k vs v Hin Hv. apply initialTemp_sound in Hin as [Hal Hopt]. auto.
  - intros search p name value Hp Hin Hal Hpl.
    apply parseUrlParams_inv in Hp as (Hc & _).
    destruct (collect_all_adds allowed (Report.cleanKey name) value _ name _ _
                eq_refl Hal Hpl Hin Hc) as (vs & Hown & Hv).
    exists vs. split; [now apply own_Some_In|exact Hv].
Qed.

Lemma values_validated_when_seeded_witness :
  (In "gender" schoolFilterKeys
   /\ In "Male" (Api.getMockFilterOptions (FilterComponent.getFilterName "gender")))
  /\ exists vs,
       In (Report.cleanKey "gender[]", vs) [("gender", ["Male"; "Other"])]
       /\ In "Other" vs.
Proof.
  split.
  - apply (proj1 (values_validated_when_seeded schoolFilterKeys)
             [("gender", ["Male"; "Other"])] "gender" ["Male"] "Male").
    + vm_compute. now left.
    + now left.
  - apply (proj2 (values_validated_when_seeded schoolFilterKeys)
             "?gender[]=Male&gender[]=Other"
             (Report.Parsed (Int 0) (Int 20) [("gender", ["Male"; "Other"])])
             "gender[]" "Other").
    + vm_compute. reflexivity.
    + vm_compute. right. now left.
    + vm_compute. right. now left.
    + vm_compute. reflexivity.
Defined.

(** C5 as stated fails: a value that is no option of its key goes from
    the URL into [appliedFilter]. *)
Lemma invalid_value_is_applied :
  exists (s : view string string) nav,
    Report.initEffect schoolFilterKeys "?gender[]=Other" mount = Ok (s, nav)
    /\ appliedFilter s = [("gender", ["Other"])]
    /\ ~ In "Other" (Api.getMockFilterOptions (FilterComponent.getFilterName "gender")).
Proof.
  eexists. eexists. split; [vm_compute; reflexivity|]. split; [reflexivity|].
  vm_compute. intros [H|[H|[]]]; discriminate.
Qed.

(** ** C10: the two serializers *)

Lemma set_add_all_fresh values : forall s,
  NoDup (s ++ values)%list -> Coll.set_add_all s values = (s ++ values)%list.
Proof.
  unfold Coll.set_add_all.
  induction values as [|v values IH]; cbn [fold_left]; intros s H.
  - now rewrite app_nil_r.
  - assert (Coll.set_add s v = (s ++ [v])%list) as ->.
    { unfold Coll.set_add. destruct (Str.includes s v) eqn:Hi; [|reflexivity].
      apply includes_In in Hi. apply NoDup_remove_2 in H.
      exfalso. apply H. apply in_app_iff. now left. }
    rewrite IH; rewrite <- app_assoc; [reflexivity|exact H].
Qed.

Lemma new_Set_NoDup values : NoDup values -> Coll.new_Set values = values.
Proof. intros H. unfold Coll.new_Set. now rewrite set_add_all_fresh. Qed.

Lemma consolidate_rebuild rest : forall o,
  enumerated (keys (o ++ rest)%list) ->
  (forall f, In f rest -> Obj.inherited (fst f) = false /\ NoDup (snd f)) ->
  Report.consolidate_all o rest = Ok (o ++ rest)%list.
Proof.
  induction rest as [|[k vs] rest IH]; intros o He Hf; cbn [Report.consolidate_all].
  - now rewrite app_nil_r.
  - destruct (Hf (k, vs) (or_introl eq_refl)) as [Hinh Hnd]. cbn [fst snd] in Hinh, Hnd.
    pose proof He as [Hkeys Hsort]. rewrite keys_app in Hkeys, Hsort.
    cbn [keys map fst] in Hkeys, Hsort.
    assert (~ In k (keys o)) as Hk.
    { apply NoDup_remove_2 in Hkeys. rewrite in_app_iff in Hkeys. tauto. }
    unfold Report.consolidate, Obj.get.
    rewrite (proj2 (own_None o k) Hk), Hinh.
    rewrite assign_define by exact Hinh.
    rewrite define_last; [|exact Hk|eapply sorted_middle; exact Hsort].
    rewrite new_Set_NoDup by exact Hnd. cbn [bind].
    rewrite IH; [now rewrite <- app_assoc| |intros f Hin; apply Hf; now right].
    now rewrite <- app_assoc.
Qed.

(** C10, as amended.  On a state whose fragments have pairwise-distinct
    keys listed in enumeration order (array-index keys first, ascending),
    none of them the name of a property inherited from
    [Object.prototype], and duplicate-free value sequences, the
    state-change serializer returns the query string of the
    initialization serializer. *)
Theorem serializers_agree pageNumber itemsPerPage (appliedFilter : list fragment) :
  enumerated (map fst appliedFilter) ->
  (forall f, In f appliedFilter -> Obj.inherited (fst f) = false /\ NoDup (snd f)) ->
  Report.syncQuery pageNumber itemsPerPage appliedFilter
  = Ok (Report.initQuery pageNumber itemsPerPage appliedFilter).
Proof.
  intros He Hf. unfold Report.syncQuery, Report.initQuery.
  rewrite (consolidate_rebuild appliedFilter []) by assumption.
  cbn [bind app]. unfold Obj.entries. reflexivity.
Qed.

Lemma serializers_agree_witness :
  Report.syncQuery (Int 1) (Int 20) [("2", ["x"]); ("gender", ["Male"; "Female"]); ("house", [])]
  = Ok (Report.initQuery (Int 1) (Int 20)
          [("2", ["x"]); ("gender", ["Male"; "Female"]); ("house", [])]).
Proof.
  apply serializers_agree.
  - split.
    + repeat constructor; simpl; intuition discriminate.
    + repeat constructor; vm_compute; trivial.
  - intros f [<-|[<-|[<-|[]]]]; (split; [reflexivity|]);
      repeat constructor; simpl; intuition discriminate.
Defined.

(** C10 as stated fails.  With an array-index key after another key the
    object of [Set]s lists the index key first, so the two query strings
    differ; with a key that names an inherited property the state-change
    serializer throws. *)
Lemma index_key_reorders :
  let fs := [("house", ["Red"]); ("1", ["x"])] in
  NoDup (map fst fs)
  /\ (forall f, In f fs -> NoDup (snd f))
  /\ Report.initQuery (Int 0) (Int 20) fs = "page=1&limit=20&house%5B%5D=Red&1%5B%5D=x"
  /\ Report.syncQuery (Int 0) (Int 20) fs = Ok "page=1&limit=20&1%5B%5D=x&house%5B%5D=Red"
  /\ Report.syncQuery (Int 0) (Int 20) fs <> Ok (Report.initQuery (Int 0) (Int 20) fs)
  /\ Report.syncQuery (Int 0) (Int 20) [("constructor", ["x"])] = TypeError.
Proof.
  cbv zeta. split; [|split; [|split; [|split; [|split]]]].
  - repeat constructor; simpl; intuition discriminate.
  - intros f [<-|[<-|[]]]; repeat constructor; simpl; tauto.
  - vm_compute. reflexivity.
  - vm_compute. reflexivity.
  - vm_compute. discriminate.
  - vm_compute. reflexivity.
Qed.

Lemma staging_is_isolated_witness :
  let s := setTempFilters [("gender", ["Male"]); ("house", ["Red"])]
             (setAppliedFilter [("house", ["Red"])] (@mount string string)) in
  Obj.own (tempFilters (FilterComponent.handleFilterChange "gender" ["Female"] s)) "house"
  = Obj.own (tempFilters s) "house".
Proof.
  refine (proj2 (proj2 (proj1 (staging_is_isolated schoolFilterKeys
            (setTempFilters [("gender", ["Male"]); ("house", ["Red"])]
               (setAppliedFilter [("house", ["Red"])] (@mount string string))))
            "gender" ["Female"])) "house" _).
  discriminate.
Defined.

(** ** The order of keys on reachable views *)

Lemma assign_enumerated {V} (o : Obj.t V) k v :
  enumerated (keys o) -> enumerated (keys (Obj.assign o k v)).
Proof.
  intros He. unfold Obj.assign. destruct (String.eqb k "__proto__").
  - destruct (Obj.own o k); [now rewrite keys_replace|exact He].
  - now apply define_enumerated.
Qed.

Lemma filter_enumerated {V} (P : string * V -> bool) (o : Obj.t V) :
  enumerated (keys o) -> enumerated (keys (filter P o)).
Proof.
  induction o as [|[k v] o IH]; cbn [filter]; [auto|].
  intros [Hnd Hs]. cbn [keys map fst] in Hnd, Hs.
  inversion Hnd as [|? ? Hk Hnd']; subst. inversion Hs as [|? ? Hs' Hf]; subst.
  destruct IH as [IHnd IHs]; [now split|].
  destruct (P (k, v)); [|now split].
  assert (Hsub : forall x, In x (keys (filter P o)) -> In x (keys o)).
  { intros x Hx. apply in_map_iff in Hx as (kv & <- & Hkv).
    apply filter_In in Hkv as [Hkv _]. now apply in_map. }
  cbn [keys map fst]. split.
  - constructor; [|exact IHnd]. intros Hx. apply Hk. now apply Hsub.
  - constructor; [exact IHs|].
    rewrite Forall_forall in *. intros x Hx. apply Hf. now apply Hsub.
Qed.

Lemma initialTemp_enumerated allowed fs :
  enumerated (keys (FilterComponent.initialTemp allowed fs)).
Proof.
  unfold FilterComponent.initialTemp.
  assert (G : forall (acc : Obj.t (list string)),
             enumerated (keys acc) ->
             enumerated (keys (fold_left
               (fun (acc : Obj.t (list string)) (filterObj : fragment) =>
                  let '(key, values) := filterObj in
                  match Coll.map_get (FilterComponent.filterKeyToValidOptionsMap allowed) key with
                  | Some validOptions =>
                      Obj.assign acc key
                        (filter (fun value => Coll.set_has validOptions value) values)
                  | None => acc
                  end) fs acc))).
  { induction fs as [|[key values] fs IH]; cbn [fold_left]; intros acc Hacc; [exact Hacc|].
    apply IH. destruct (Coll.map_get _ key); [now apply assign_enumerated|exact Hacc]. }
  apply G. split; constructor.
Qed.

Lemma resetTemp_enumerated allowed :
  enumerated (keys (FilterComponent.resetTemp allowed)).
Proof.
  unfold FilterComponent.resetTemp.
  assert (G : forall l (acc : Obj.t (list string)),
             enumerated (keys acc) ->
             enumerated (keys (fold_left (fun acc key => Obj.assign acc key []) l acc))).
  { induction l as [|x l IH]; cbn [fold_left]; intros acc Hacc; [exact Hacc|].
    apply IH. now apply assign_enumerated. }
  apply G. split; constructor.
Qed.

(** On every reachable view the fragments of [appliedFilter] and the
    entries of [tempFilters] have distinct keys in enumeration order. *)
Lemma reachable_enumerated {Col Row} allowed search (s : view Col Row) :
  Report.reachable allowed search s ->
  enumerated (map fst (appliedFilter s)) /\ enumerated (keys (tempFilters s)).
Proof.
  induction 1 as [s nav Hinit|s e Hr [IHa IHt] Hen].
  - unfold Report.initEffect in Hinit. cbn [initialized mount] in Hinit.
    destruct (Report.parseUrlParams allowed search) as [p|] eqn:Hp; [|discriminate].
    cbn [bind] in Hinit. injection Hinit as <- _. cbn.
    split; [|split; constructor].
    now apply parseUrlParams_filters in Hp as [He _].
  - destruct e as [newPage|value| |k vs| | | | | |f o];
      cbn [Report.handle Report.enabled] in *.
    + now split.
    + now split.
    + split; [exact IHa|]. cbn. apply initialTemp_enumerated.
    + split; [exact IHa|]. cbn. now apply define_enumerated.
    + split; [|exact IHt]. cbn.
      unfold FilterComponent.newAppliedFilter, Obj.entries. rewrite map_pair_id.
      now apply filter_enumerated.
    + split; [cbn; split; constructor|]. cbn. apply resetTemp_enumerated.
    + split; [exact IHa|]. cbn. apply initialTemp_enumerated.
    + now split.
    + unfold Report.fetchEffect. destruct (negb (initialized s)); now split.
    + destruct (settle_frame f o s) as (-> & -> & _). now split.
Qed.

(** The condition on the order of keys that C10 needs holds on every
    reachable view: there the two serializers agree as soon as no allowed
    key is an inherited name and no value is repeated. *)
Corollary reachable_queries_coincide {Col Row} allowed search (s : view Col Row) :
  Report.reachable allowed search s ->
  (forall k, In k allowed -> Obj.inherited k = false) ->
  (forall f, In f (appliedFilter s) -> NoDup (snd f)) ->
  Report.syncQuery (pageNumber s) (itemsPerPage s) (appliedFilter s)
  = Ok (Report.initQuery (pageNumber s) (itemsPerPage s) (appliedFilter s)).
Proof.
  intros Hr Hal Hnd. unfold Report.syncQuery, Report.initQuery.
  rewrite (consolidate_rebuild (appliedFilter s) []).
  - reflexivity.
  - exact (proj1 (reachable_enumerated _ _ _ Hr)).
  - intros f Hf. split; [|now apply Hnd].
    apply Hal. exact (proj1 (reachable_keys _ _ _ Hr) f Hf).
Qed.

(** ** The mock report: filtering and paging *)

Lemma firstn_skipn_firstn {A} (l : list A) : forall a b : nat,
  (firstn a l ++ firstn b (skipn a l))%list = firstn (a + b) l.
Proof.
  induction l as [|x l IH]; intros [|a] b; cbn [firstn skipn app Nat.add];
    try reflexivity.
  - now rewrite firstn_nil.
  - now rewrite IH.
Qed.

(** A slice between two non-negative integers is a window of the list. *)
Lemma slice_window {A} (l : list A) a b :
  0 <= a -> 0 <= b ->
  Coll.slice l (Int a) (Int (a + b))
  = firstn (Z.to_nat b) (skipn (Z.to_nat a) l).
Proof.
  intros Ha Hb. unfold Coll.slice, Coll.relative_index.
  destruct (Z.ltb_spec a 0); [lia|]. destruct (Z.ltb_spec (a + b) 0); [lia|].
  set (len := Z.of_nat (List.length l)).
  destruct (Z.le_gt_cases len a) as [Hge|Hlt].
  - rewrite !Z.min_r by lia. rewrite Z.sub_diag. cbn [Z.max Z.compare Z.to_nat firstn].
    rewrite skipn_all2 by (subst len; lia). now rewrite firstn_nil.
  - rewrite (Z.min_l a) by lia.
    destruct (Z.le_gt_cases (a + b) len) as [Hin|Hout].
    + rewrite Z.min_l by lia. f_equal. lia.
    + rewrite Z.min_r by lia.
      rewrite !firstn_all2; [reflexivity| |];
        rewrite length_skipn; subst len; lia.
Qed.

Lemma firstn_incl {A} (n : nat) (l : list A) x : In x (firstn n l) -> In x l.
Proof. intros H. rewrite <- (firstn_skipn n l). apply in_or_app. now left. Qed.

Lemma skipn_incl {A} (n : nat) (l : list A) x : In x (skipn n l) -> In x l.
Proof. intros H. rewrite <- (firstn_skipn n l). apply in_or_app. now right. Qed.

Lemma slice_incl {A} (l : list A) a b x : In x (Coll.slice l a b) -> In x l.
Proof.
  unfold Coll.slice. intros H. now apply firstn_incl, skipn_incl in H.
Qed.

(** The three results of [mockGetReport], with the filtered list kept
    folded. *)
Lemma filteredData_eq p :
  Api.filteredData p = filter (Api.matches p) Api.allSchoolData.
Proof. reflexivity. Qed.

Lemma schoolInfo_eq p :
  Api.schoolInfo (Api.mockGetReport p)
  = Coll.slice (Api.filteredData p)
      (Num.mul (Num.sub (Api.page p) (Int 1)) (Api.limit p))
      (Num.add (Num.mul (Num.sub (Api.page p) (Int 1)) (Api.limit p)) (Api.limit p)).
Proof. reflexivity. Qed.

Lemma total_eq p :
  Api.total (Api.mockGetReport p) = Int (Z.of_nat (List.length (Api.filteredData p))).
Proof. reflexivity. Qed.

Lemma dataMapping_eq p :
  Api.dataMapping (Api.mockGetReport p)
  = [ Api.Column "id" "ID"; Api.Column "name" "Name"; Api.Column "class" "Class";
      Api.Column "gender" "Gender"; Api.Column "house" "House" ].
Proof. reflexivity. Qed.

(** The page and the limit play no part in the filtering. *)
Lemma filteredData_paging p n p' n' c g h :
  Api.filteredData (Api.Params p n c g h) = Api.filteredData (Api.Params p' n' c g h).
Proof. rewrite !filteredData_eq. apply filter_ext. intros item. reflexivity. Qed.

(** The window that [mockGetReport] cuts for a page and a limit that are
    positive integers. *)
Lemma mock_window p n c g h :
  1 <= p -> 1 <= n -> p * n < two53 ->
  Api.schoolInfo (Api.mockGetReport (Api.Params (Int p) (Int n) c g h))
  = firstn (Z.to_nat n)
      (skipn (Z.to_nat ((p - 1) * n)) (Api.filteredData (Api.Params (Int p) (Int n) c g h))).
Proof.
  intros Hp Hn Hb. rewrite schoolInfo_eq. cbn [Api.page Api.limit].
  pose proof two53_eq as E.
  assert (0 <= (p - 1) * n) by nia.
  assert ((p - 1) * n + n = p * n) as Hs by ring.
  unfold Num.sub, Num.mul.
  rewrite (to_double_small (p - 1)) by nia.
  rewrite (to_double_small ((p - 1) * n)) by nia.
  unfold Num.add. rewrite (to_double_small ((p - 1) * n + n)) by nia.
  now apply slice_window; lia.
Qed.

(** X1.  For a page [p >= 1] and a limit [n >= 1] (with [p * n] below [2^53])
    [mockGetReport] returns the rows [(p - 1) * n .. p * n - 1] of the
    records matching the filters, as many as exist: at most [n] rows, none
    exactly when the page starts at or after the end of the matching
    records; [total] is the number of matching records, whatever the page. *)
Theorem mockGetReport_page p n c g h :
  1 <= p -> 1 <= n -> p * n < two53 ->
  let params := Api.Params (Int p) (Int n) c g h in
  let matching := Api.filteredData params in
  let r := Api.mockGetReport params in
  Api.schoolInfo r
  = firstn (Z.to_nat n) (skipn (Z.to_nat ((p - 1) * n)) matching)
  /\ Api.total r = Int (Z.of_nat (List.length matching))
  /\ (List.length (Api.schoolInfo r) <= Z.to_nat n)%nat
  /\ (Api.schoolInfo r = [] <-> Z.of_nat (List.length matching) <= (p - 1) * n).
Proof.
  intros Hp Hn Hb params matching r. subst r.
  unfold params at 1 3 4. rewrite mock_window by assumption. fold params. fold matching.
  split; [reflexivity|]. split; [apply total_eq|]. split.
  - rewrite length_firstn. lia.
  - assert (0 <= (p - 1) * n) by nia.
    split.
    + intros H0. apply (f_equal (@List.length _)) in H0.
      rewrite length_firstn, length_skipn in H0. cbn [List.length] in H0. lia.
    + intros H0. rewrite skipn_all2 by lia. apply firstn_nil.
Qed.

Lemma mockGetReport_page_witness :
  let params := Api.Params (Int 3) (Int 10) None None None in
  let matching := Api.filteredData params in
  let r := Api.mockGetReport params in
  Api.schoolInfo r
  = firstn (Z.to_nat 10) (skipn (Z.to_nat ((3 - 1) * 10)) matching)
  /\ Api.total r = Int (Z.of_nat (List.length matching))
  /\ (List.length (Api.schoolInfo r) <= Z.to_nat 10)%nat
  /\ (Api.schoolInfo r = [] <-> Z.of_nat (List.length matching) <= (3 - 1) * 10).
Proof.
  apply (mockGetReport_page 3 10 None None None); [lia|lia|reflexivity].
Defined.

(** X2.  Asking [mockGetReport] for the pages [1 .. count] with the same limit
    and filters and putting the rows one after the other gives the first
    [count * limit] matching records in their order; once
    [count * limit] reaches the number of matching records, it gives all of
    them, each once. *)
Theorem mockGetReport_pages_cover n c g h (count : nat) :
  1 <= n -> Z.of_nat count * n < two53 ->
  let matching := Api.filteredData (Api.Params (Int 1) (Int n) c g h) in
  pages_shown n c g h count = firstn (count * Z.to_nat n) matching
  /\ (Z.of_nat (List.length matching) <= Z.of_nat count * n ->
      pages_shown n c g h count = matching).
Proof.
  intros Hn Hb matching.
  assert (G : pages_shown n c g h count = firstn (count * Z.to_nat n) matching).
  { unfold pages_shown. induction count as [|k IH]; [reflexivity|].
    rewrite seq_S, flat_map_app, IH by nia. cbn [flat_map Nat.add].
    rewrite app_nil_r, mock_window by nia.
    rewrite (filteredData_paging _ _ (Int 1) (Int n)). fold matching.
    replace (Z.to_nat ((Z.of_nat k + 1 - 1) * n)) with (k * Z.to_nat n)%nat by nia.
    rewrite firstn_skipn_firstn. f_equal. lia. }
  split; [exact G|]. intros Hall. rewrite G. apply firstn_all2. nia.
Qed.

Lemma mockGetReport_pages_cover_witness :
  let matching := Api.filteredData (Api.Params (Int 1) (Int 10) None (Some ["Male"]) None) in
  pages_shown 10 None (Some ["Male"]) None 2 = firstn (2 * Z.to_nat 10) matching
  /\ (Z.of_nat (List.length matching) <= Z.of_nat 2 * 10 ->
      pages_shown 10 None (Some ["Male"]) None 2 = matching).
Proof.
  apply (mockGetReport_pages_cover 10 None (Some ["Male"]) None 2); [lia|reflexivity].
Defined.

Lemma matches_selected p item :
  Api.matches p item = true ->
  (Api.selected (Api.studentClass p) = true ->
   Str.includes (Api.values_of (Api.studentClass p)) (Conv.toString (Int (Api.class item))) = true)
  /\ (Api.selected (Api.p_gender p) = true ->
      Str.includes (Api.values_of (Api.p_gender p)) (Api.gender item) = true)
  /\ (Api.selected (Api.p_house p) = true ->
      Str.includes (Api.values_of (Api.p_house p)) (Api.house item) = true).
Proof.
  unfold Api.matches. cbv zeta.
  destruct (Api.selected (Api.studentClass p)), (Api.selected (Api.p_gender p)),
    (Api.selected (Api.p_house p));
    destruct (Str.includes (Api.values_of (Api.studentClass p)) _),
      (Str.includes (Api.values_of (Api.p_gender p)) _),
      (Str.includes (Api.values_of (Api.p_house p)) _);
    cbn [andb]; intros H; try discriminate H; repeat split; auto.
Qed.

Lemma rows_matching p item :
  In item (Api.schoolInfo (Api.mockGetReport p)) ->
  In item Api.allSchoolData /\ Api.matches p item = true.
Proof.
  intros H. rewrite schoolInfo_eq in H. apply slice_incl in H.
  rewrite filteredData_eq in H. now apply filter_In in H.
Qed.

(** X3.  Whatever the page and the limit, every row that [mockGetReport]
    returns is a record of [allSchoolData], and for each of the three
    filters given as a non-empty array the row's value is one of the
    array's (the class compared through [toString]). *)
Theorem mockGetReport_rows_match (p : Api.params) (item : Api.student) :
  In item (Api.schoolInfo (Api.mockGetReport p)) ->
  In item Api.allSchoolData
  /\ (forall vs, Api.studentClass p = Some vs -> vs <> [] ->
      In (Conv.toString (Int (Api.class item))) vs)
  /\ (forall vs, Api.p_gender p = Some vs -> vs <> [] -> In (Api.gender item) vs)
  /\ (forall vs, Api.p_house p = Some vs -> vs <> [] -> In (Api.house item) vs).
Proof.
  intros H. apply rows_matching in H as [Hin Hm]. split; [exact Hin|].
  apply matches_selected in Hm as (Hc & Hg & Hh).
  repeat split; intros vs Hvs Hne; apply includes_In.
  - rewrite Hvs in Hc. apply Hc. now destruct vs.
  - rewrite Hvs in Hg. apply Hg. now destruct vs.
  - rewrite Hvs in Hh. apply Hh. now destruct vs.
Qed.

Lemma mockGetReport_rows_match_witness :
  In (Api.Student 7 "Grace Lee" 8 "Female" "Blue") Api.allSchoolData
  /\ (forall vs, Some ["8"; "9"] = Some vs -> vs <> [] ->
      In (Conv.toString (Int 8)) vs)
  /\ (forall vs, @None (list string) = Some vs -> vs <> [] -> In "Female" vs)
  /\ (forall vs, Some ["Blue"] = Some vs -> vs <> [] -> In "Blue" vs).
Proof.
  apply (mockGetReport_rows_match
           (Api.Params (Int 1) (Int 5) (Some ["8"; "9"]) None (Some ["Blue"]))
           (Api.Student 7 "Grace Lee" 8 "Female" "Blue")).
  vm_compute. tauto.
Defined.

(** ** The parameters handed to the data provider *)

Lemma own_find {V} (o : Obj.t V) k :
  Obj.own o k = option_map snd (find (fun f => String.eqb (fst f) k) o).
Proof.
  induction o as [|[k' v] o IH]; cbn [Obj.own find fst]; [reflexivity|].
  now destruct (String.eqb k' k).
Qed.

Lemma own_rev {V} (o : Obj.t V) k :
  NoDup (keys o) -> Obj.own (rev o) k = Obj.own o k.
Proof.
  induction o as [|[k' v] o IH]; cbn [rev keys map fst]; intros Hnd; [reflexivity|].
  inversion Hnd as [|? ? Hk Hnd']; subst.
  rewrite own_app, IH by exact Hnd'. cbn [Obj.own].
  destruct (String.eqb_spec k' k) as [->|Hne].
  - now rewrite (proj2 (own_None o k) Hk).
  - now destruct (Obj.own o k).
Qed.

(** Reading a property of [{...target, ...source}]. *)
Lemma own_spread {V} (source : Obj.t V) : forall (target : Obj.t V) k,
  Obj.own (Report.spread target source) k
  = match Obj.own (rev source) k with
    | Some v => Some v
    | None => Obj.own target k
    end.
Proof.
  unfold Report.spread, Obj.entries.
  induction source as [|[k' v] source IH]; intros target k; cbn [fold_left rev fst snd];
    [reflexivity|].
  rewrite IH, own_app, own_define.
  destruct (Obj.own (rev source) k); [reflexivity|].
  now destruct (String.eqb k' k).
Qed.

Lemma spread_enumerated {V} (source : Obj.t V) : forall target : Obj.t V,
  enumerated (keys target) -> enumerated (keys (Report.spread target source)).
Proof.
  unfold Report.spread, Obj.entries.
  induction source as [|[k v] source IH]; intros target Ht; cbn [fold_left]; [exact Ht|].
  apply IH. now apply define_enumerated.
Qed.

Lemma enumerated_nil : enumerated [].
Proof. split; constructor. Qed.

Lemma filterData_step (fs : list fragment) : forall acc : Obj.t (list string),
  enumerated (keys acc) ->
  let o :=
    fold_left
      (fun (acc : Obj.t (list string)) (filterObj : fragment) =>
         Report.spread (Report.spread [] acc) [filterObj])
      fs acc in
  enumerated (keys o)
  /\ forall k, Obj.own o k
       = match Obj.own (rev fs) k with
         | Some vs => Some vs
         | None => Obj.own acc k
         end.
Proof.
  induction fs as [|[k' vs] fs IH]; intros acc Hacc; cbn [fold_left rev].
  - split; [exact Hacc|reflexivity].
  - assert (He : enumerated (keys (Report.spread (Report.spread [] acc) [(k', vs)]))).
    { apply spread_enumerated, spread_enumerated, enumerated_nil. }
    destruct (IH _ He) as [H1 H2]. split; [exact H1|].
    intros k. rewrite H2. unfold fragment. rewrite own_app.
    destruct (Obj.own (rev _) k); [reflexivity|].
    rewrite !own_spread. cbn [rev app Obj.own].
    rewrite own_rev by apply Hacc.
    destruct (String.eqb k' k); [reflexivity|]. now destruct (Obj.own acc k).
Qed.

Lemma filterData_enumerated fs : enumerated (keys (Report.filterData fs)).
Proof. apply (filterData_step fs []), enumerated_nil. Qed.

Lemma filterData_own (fs : list fragment) (k : string) :
  Obj.own (Report.filterData fs) k = latest fs k.
Proof.
  unfold Report.filterData, latest.
  rewrite (proj2 (filterData_step fs [] enumerated_nil) k), <- own_find.
  now destruct (Obj.own (rev fs) k).
Qed.

Lemma own_map_values {V W} (g : V -> W) (o : Obj.t V) k :
  Obj.own (map (fun kv => (fst kv, g (snd kv))) o) k = option_map g (Obj.own o k).
Proof.
  induction o as [|[k' v] o IH]; cbn [map Obj.own fst snd]; [reflexivity|].
  now destruct (String.eqb k' k).
Qed.

Lemma keys_map_values {V W} (g : V -> W) (o : Obj.t V) :
  keys (map (fun kv => (fst kv, g (snd kv))) o) = keys o.
Proof. unfold keys. rewrite map_map. reflexivity. Qed.

Lemma apiParams_own pg l fs k :
  Obj.own (Report.apiParams pg l fs) k
  = match latest fs k with
    | Some vs => Some (Report.PArray vs)
    | None =>
        if String.eqb k "page" then Some (Report.PNumber (Num.add pg (Int 1)))
        else if String.eqb k "limit" then Some (Report.PNumber l)
        else None
    end.
Proof.
  unfold Report.apiParams. cbv zeta. rewrite own_spread, own_rev.
  - rewrite own_map_values, filterData_own.
    destruct (latest fs k); [reflexivity|]. cbn [option_map].
    rewrite !own_define. cbn [Obj.own].
    rewrite (String.eqb_sym "page"), (String.eqb_sym "limit").
    destruct (String.eqb_spec k "page") as [->|]; [reflexivity|].
    reflexivity.
  - rewrite keys_map_values. apply filterData_enumerated.
Qed.

(** X4.  Reading a name in the object of filters built for a fetch finds the
    values of the last fragment of [appliedFilter] with that key.  In
    [apiParams] a fragment named [page] or [limit] replaces the pagination
    value; otherwise [page] is the page number plus one and [limit] the
    number of rows per page. *)
Theorem apiParams_read pg l (fs : list fragment) (k : string) :
  Obj.own (Report.filterData fs) k = latest fs k
  /\ Obj.own (Report.apiParams pg l fs) k
     = match latest fs k with
       | Some vs => Some (Report.PArray vs)
       | None =>
           if String.eqb k "page" then Some (Report.PNumber (Num.add pg (Int 1)))
           else if String.eqb k "limit" then Some (Report.PNumber l)
           else None
       end.
Proof. split; [apply filterData_own|apply apiParams_own]. Qed.

(** ** A fetch of the demo page, from the view to the mock report and back *)

Lemma latest_None (fs : list fragment) k :
  (forall f, In f fs -> fst f <> k) -> latest fs k = None.
Proof.
  intros H. unfold latest.
  match goal with
  | |- option_map snd ?x = None => destruct x as [f|] eqn:Hf; [|reflexivity]
  end.
  apply find_some in Hf as [Hin Hk]. apply in_rev in Hin.
  apply String.eqb_eq in Hk. now apply H in Hin.
Qed.

(** The parameters that the mock report receives from the view. *)
Lemma destructure_apiParams pg l fs :
  latest fs "page" = None -> latest fs "limit" = None ->
  SchoolDataPage.destructure (Report.apiParams pg l fs)
  = Some (Api.Params (Num.add pg (Int 1)) l
            (latest fs "studentClass") (latest fs "gender") (latest fs "house")).
Proof.
  intros Hp Hl. unfold SchoolDataPage.destructure.
  rewrite !apiParams_own, Hp, Hl. cbn [String.eqb Ascii.eqb Bool.eqb].
  now destruct (latest fs "studentClass"), (latest fs "gender"), (latest fs "house").
Qed.

Lemma length_filteredData p : (List.length (Api.filteredData p) <= 26)%nat.
Proof.
  rewrite filteredData_eq.
  exact (filter_length_le (Api.matches p) Api.allSchoolData).
Qed.

(** The number of pages for [m] rows, [n] on a page. *)
Lemma pages_count m n :
  0 < m <= 26 -> 1 <= n < 2 ^ 51 ->
  exists tp, ceil_div (Int m) (Int n) = Int tp /\ 0 < tp
             /\ forall y, 0 <= y -> (tp <= y <-> m <= y * n).
Proof.
  intros Hm Hn. exists ((m + n - 1) / n).
  assert (2 ^ 51 + 26 < 2 ^ 52) by reflexivity.
  split; [apply ceil_div_exact; lia|].
  assert (0 < (m + n - 1) / n) by (apply Z.div_str_pos; lia).
  split; [assumption|]. intros y Hy.
  pose proof (Z.div_mod (m + n - 1) n ltac:(lia)) as E.
  pose proof (Z.mod_pos_bound (m + n - 1) n ltac:(lia)) as B.
  remember ((m + n - 1) / n) as q. remember ((m + n - 1) mod n) as r.
  split; intros Hcmp; nia.
Qed.

Lemma ge_Int a b : Num.ge (Int a) (Int b) = (b <=? a).
Proof.
  unfold Num.ge, Num.lt, Num.strict_eq.
  destruct (Z.ltb_spec b a), (Z.eqb_spec a b), (Z.leb_spec b a); lia || reflexivity.
Qed.

Lemma gt_Int a b : Num.gt (Int a) (Int b) = (b <? a).
Proof. reflexivity. Qed.

Lemma strict_eq_Int a b : Num.strict_eq (Int a) (Int b) = (a =? b).
Proof. reflexivity. Qed.

(** X5.  One fetch of the demo page, from the view through [apiParams] and
    [mockGetReport] back into the view, when the page is an integer
    [y >= 0], the number of rows per page an integer [n >= 1] and no
    fragment is named [page] or [limit].  The mock report answers and the
    loader is turned off.  When page [y] starts before the end of the [m]
    matching records the view shows the five columns and the rows
    [y * n .. y * n + n - 1] of the matching records, never an empty list,
    with total [m], and the snackbar (open flag, message and severity) is left
    as it was.  When nothing matches on page 0 it shows the columns and no
    rows and raises the notice [No data found matching current filters.].
    Otherwise the page is reset to 0 and columns, rows, total and snackbar
    are left as they were. *)
Theorem demo_fetch_settles (s : view Api.column Api.student) (y n : Z) :
  pageNumber s = Int y -> 0 <= y ->
  itemsPerPage s = Int n -> 1 <= n < 2 ^ 51 -> (y + 1) * n < two53 ->
  (forall f, In f (appliedFilter s) -> fst f <> "page" /\ fst f <> "limit") ->
  let started := Report.fetchData_start s in
  let f := snd started in
  let matching :=
    Api.filteredData
      (Api.Params (Int (y + 1)) (Int n)
         (latest (appliedFilter s) "studentClass")
         (latest (appliedFilter s) "gender")
         (latest (appliedFilter s) "house")) in
  let columns :=
    [ Api.Column "id" "ID"; Api.Column "name" "Name"; Api.Column "class" "Class";
      Api.Column "gender" "Gender"; Api.Column "house" "House" ] in
  let m := Z.of_nat (List.length matching) in
  exists o,
    SchoolDataPage.getReport
      (Report.apiParams (Report.f_pageNumber f) (Report.f_itemsPerPage f)
         (Report.f_appliedFilter f)) = Some o
    /\ let s' := Report.fetchData_settle f o (fst started) in
       showLoader s' = false
       /\ if y * n <? m then
            pageNumber s' = Int y
            /\ columnTitles s' = columns
            /\ rowsData s' = firstn (Z.to_nat n) (skipn (Z.to_nat (y * n)) matching)
            /\ rowsData s' <> []
            /\ totalItems s' = Int m
            /\ snackbarOpen s' = snackbarOpen s
            /\ snackbarMessage s' = snackbarMessage s
            /\ snackbarSeverity s' = snackbarSeverity s
          else if y =? 0 then
            pageNumber s' = Int 0
            /\ columnTitles s' = columns
            /\ rowsData s' = [] /\ totalItems s' = Int 0
            /\ snackbarOpen s' = true
            /\ snackbarMessage s' = "No data found matching current filters."
            /\ snackbarSeverity s' = "info"
          else
            pageNumber s' = Int 0
            /\ columnTitles s' = columnTitles s
            /\ rowsData s' = rowsData s /\ totalItems s' = totalItems s
            /\ snackbarOpen s' = snackbarOpen s
            /\ snackbarMessage s' = snackbarMessage s
            /\ snackbarSeverity s' = snackbarSeverity s.
Proof.
  intros Hpg Hy Hipp Hn Hb Hkeys started f matching columns m.
  subst started f. cbn [Report.fetchData_start snd fst Report.f_pageNumber
                        Report.f_itemsPerPage Report.f_appliedFilter].
  pose proof two53_eq as E53.
  unfold SchoolDataPage.getReport.
  rewrite destructure_apiParams, Hpg, Hipp
    by (apply latest_None; intros g Hg; now apply Hkeys in Hg).
  cbn [Num.add]. rewrite (to_double_small (y + 1)) by nia.
  cbv zeta. eexists. split; [reflexivity|].
  rewrite mock_window, total_eq, dataMapping_eq by lia. fold columns.
  replace (y + 1 - 1) with y by ring.
  fold matching. fold m.
  pose proof (length_filteredData
                (Api.Params (Int (y + 1)) (Int n)
                   (latest (appliedFilter s) "studentClass")
                   (latest (appliedFilter s) "gender")
                   (latest (appliedFilter s) "house"))) as Hlen.
  fold matching in Hlen.
  subst m. clearbody matching columns.
  set (m := Z.of_nat (List.length matching)) in *.
  assert (0 <= m <= 26) as Hm by (subst m; lia).
  assert (List.length (skipn (Z.to_nat (y * n)) matching) = Z.to_nat (m - y * n)) as Hskip.
  { rewrite length_skipn. subst m. nia. }
  set (rows := firstn (Z.to_nat n) (skipn (Z.to_nat (y * n)) matching)) in *.
  assert (Htp : exists tp, ceil_div (Int m) (Int n) = Int tp /\ 0 <= tp
                  /\ (tp = 0 <-> m = 0) /\ (tp <= y <-> m <= y * n)).
  { destruct (Z.eq_dec m 0) as [Hm0|Hm0].
    - exists 0. rewrite Hm0, ceil_div_zero by lia. repeat split; nia.
    - destruct (pages_count m n ltac:(lia) Hn) as (tp & Ht & Htp & Hle).
      specialize (Hle y Hy). exists tp. split; [exact Ht|]. split; [lia|].
      split; [lia|exact Hle]. }
  destruct Htp as (tp & Htp & Htp0 & Hz & Hle).
  unfold Report.fetchData_settle, Report.on_data.
  cbn [Report.f_pageNumber Report.f_itemsPerPage Report.to_number
       Report.total_or_zero Num.truthy].
  rewrite Htp, !ge_Int, !gt_Int, !strict_eq_Int.
  destruct (Z.ltb_spec (y * n) m) as [Hin|Hout].
  - assert (rows <> []) as Hrows.
    { subst rows. destruct (skipn _ matching) as [|x r] eqn:Hs.
      - cbn [List.length] in Hskip. lia.
      - destruct (Z.to_nat n) eqn:Hn'; [lia|]. discriminate. }
    assert (Report.no_rows (Some rows) = false) as ->.
    { unfold Report.no_rows. now destruct rows. }
    destruct (Z.leb_spec tp y); [lia|].
    destruct (Z.eqb_spec tp 0); [lia|].
    destruct (Z.eqb_spec m 0); [lia|].
    cbn [andb negb]. cbn. rewrite Hpg. repeat split; assumption.
  - destruct (Z.eqb_spec y 0) as [Hy0|Hy0].
    + assert (m = 0) as Hm0 by nia. assert (tp = 0) as -> by lia.
      assert (rows = []) as ->.
      { subst rows. destruct (skipn _ matching); [apply firstn_nil|].
        cbn [List.length] in Hskip. lia. }
      rewrite Hm0, Hy0. cbn. rewrite Hpg, Hy0. repeat split.
    + destruct (Z.leb_spec tp y); [|lia].
      destruct (Z.ltb_spec 0 tp); cbn [andb]; [cbn; repeat split|].
      destruct (Z.eqb_spec tp 0); [|lia]. cbn. repeat split.
Qed.

Lemma demo_fetch_settles_witness :
  let s : view Api.column Api.student :=
    View false EmptyString "info" false (Int 1) (Int 10) [] [] (Int 0)
      [("gender", ["Male"])] false true [] in
  let started := Report.fetchData_start s in
  let f := snd started in
  let matching :=
    Api.filteredData
      (Api.Params (Int (1 + 1)) (Int 10)
         (latest (appliedFilter s) "studentClass")
         (latest (appliedFilter s) "gender")
         (latest (appliedFilter s) "house")) in
  let columns :=
    [ Api.Column "id" "ID"; Api.Column "name" "Name"; Api.Column "class" "Class";
      Api.Column "gender" "Gender"; Api.Column "house" "House" ] in
  let m := Z.of_nat (List.length matching) in
  exists o,
    SchoolDataPage.getReport
      (Report.apiParams (Report.f_pageNumber f) (Report.f_itemsPerPage f)
         (Report.f_appliedFilter f)) = Some o
    /\ let s' := Report.fetchData_settle f o (fst started) in
       showLoader s' = false
       /\ if 1 * 10 <? m then
            pageNumber s' = Int 1
            /\ columnTitles s' = columns
            /\ rowsData s' = firstn (Z.to_nat 10) (skipn (Z.to_nat (1 * 10)) matching)
            /\ rowsData s' <> []
            /\ totalItems s' = Int m
            /\ snackbarOpen s' = snackbarOpen s
            /\ snackbarMessage s' = snackbarMessage s
            /\ snackbarSeverity s' = snackbarSeverity s
          else if 1 =? 0 then
            pageNumber s' = Int 0
            /\ columnTitles s' = columns
            /\ rowsData s' = [] /\ totalItems s' = Int 0
            /\ snackbarOpen s' = true
            /\ snackbarMessage s' = "No data found matching current filters."
            /\ snackbarSeverity s' = "info"
          else
            pageNumber s' = Int 0
            /\ columnTitles s' = columnTitles s
            /\ rowsData s' = rowsData s /\ totalItems s' = totalItems s
            /\ snackbarOpen s' = snackbarOpen s
            /\ snackbarMessage s' = snackbarMessage s
            /\ snackbarSeverity s' = snackbarSeverity s.
Proof.
  apply (demo_fetch_settles
           (View false EmptyString "info" false (Int 1) (Int 10) [] [] (Int 0)
              [("gender", ["Male"])] false true []) 1 10).
  - reflexivity.
  - lia.
  - reflexivity.
  - split; [lia|reflexivity].
  - reflexivity.
  - intros f [<-|[]]. split; discriminate.
Defined.

(** The hypothesis on the number of rows per page matters: on [?limit=abc]
    it is [NaN], the mock report returns no rows with total 26, and the
    view raises the warning for an empty page. *)
Example nan_limit_raises_page_warning :
  exists (s0 : view Api.column Api.student) nav f o,
    Report.initEffect SchoolDataPage.allowedFilterKeys "?limit=abc" mount = Ok (s0, nav)
    /\ itemsPerPage s0 = NaN
    /\ Report.fetchEffect s0 = (setShowLoader true s0, Some f)
    /\ SchoolDataPage.answer f = Some o
    /\ let s' := Report.fetchData_settle f o (setShowLoader true s0) in
       rowsData s' = [] /\ totalItems s' = Int 26
       /\ snackbarOpen s' = true
       /\ snackbarMessage s' = "No data for current page. Adjust filters or page."
       /\ snackbarSeverity s' = "warning".
Proof.
  do 4 eexists.
  split; [vm_compute; reflexivity|].
  split; [reflexivity|].
  split; [vm_compute; reflexivity|].
  split; [vm_compute; reflexivity|].
  vm_compute. repeat split.
Qed.

(** ** [parseUrlParams]: which values end under which key *)

Lemma collect_own allowed o key value o' k :
  Report.collect allowed o (key, value) = Ok o' ->
  Obj.own o' k
  = if String.eqb (Report.cleanKey key) k && accepted allowed k then
      Some (match Obj.own o k with
            | Some cur => (cur ++ [value])%list
            | None => [value]
            end)
    else Obj.own o k.
Proof.
  unfold Report.collect, accepted. set (ck := Report.cleanKey key).
  destruct (String.eqb_spec ck k) as [<-|Hne]; cbn [andb].
  - destruct (Str.includes allowed ck && negb (Str.includes ["page"; "limit"] ck));
      [|now intros [= <-]].
    unfold Obj.get. destruct (Obj.own o ck) as [cur|] eqn:Ho.
    + intros [= <-]. rewrite (assign_own _ _ _ _ Ho), own_define.
      now rewrite String.eqb_refl.
    + destruct (Obj.inherited ck) eqn:Hi; [discriminate|]. intros [= <-].
      rewrite assign_define, own_define by exact Hi. now rewrite String.eqb_refl.
  - destruct (Str.includes allowed ck && negb (Str.includes ["page"; "limit"] ck));
      [|now intros [= <-]].
    unfold Obj.get. destruct (Obj.own o ck) as [cur|] eqn:Ho.
    + intros [= <-]. rewrite (assign_own _ _ _ _ Ho), own_define.
      now destruct (String.eqb_spec ck k).
    + destruct (Obj.inherited ck) eqn:Hi; [discriminate|]. intros [= <-].
      rewrite assign_define, own_define by exact Hi.
      now destruct (String.eqb_spec ck k).
Qed.

Lemma collect_all_own allowed k entries : forall o o',
  Report.collect_all allowed o entries = Ok o' ->
  Obj.own o' k
  = if accepted allowed k then
      match Obj.own o k, values_for k entries with
      | None, [] => None
      | None, vs => Some vs
      | Some cur, vs => Some (cur ++ vs)%list
      end
    else Obj.own o k.
Proof.
  induction entries as [|[key value] r IH]; intros o o'; cbn [Report.collect_all].
  - intros [= <-]. unfold values_for. cbn [filter map].
    destruct (accepted allowed k); [|reflexivity].
    destruct (Obj.own o k); [now rewrite app_nil_r|reflexivity].
  - destruct (Report.collect allowed o (key, value)) as [o1|] eqn:Hc; [|discriminate].
    cbn [bind]. intros H. rewrite (IH _ _ H), (collect_own _ _ _ _ _ k Hc).
    unfold values_for. cbn [filter fst].
    destruct (accepted allowed k); [|now rewrite andb_false_r].
    rewrite andb_true_r.
    destruct (String.eqb (Report.cleanKey key) k); cbn [map snd]; [|reflexivity].
    fold (values_for k r).
    destruct (Obj.own o k) as [cur|].
    + now rewrite <- app_assoc.
    + reflexivity.
Qed.

Lemma own_of_In {V} (o : Obj.t V) k v :
  NoDup (keys o) -> In (k, v) o -> Obj.own o k = Some v.
Proof.
  induction o as [|[k' v'] o IH]; cbn [keys map fst In Obj.own]; intros Hnd; [tauto|].
  inversion Hnd as [|? ? Hk Hnd']; subst. intros [[= -> ->]|Hin].
  - now rewrite String.eqb_refl.
  - destruct (String.eqb_spec k' k) as [->|]; [|now apply IH].
    exfalso. apply Hk. change k with (fst (k, v)). now apply in_map.
Qed.

Lemma accepted_spec allowed k :
  accepted allowed k = true <-> In k allowed /\ k <> "page" /\ k <> "limit".
Proof.
  unfold accepted. rewrite andb_true_iff, negb_true_iff, includes_In. split.
  - intros [Ha Hr]. split; [exact Ha|].
    split; intros ->; discriminate Hr.
  - intros (Ha & Hp & Hl). split; [exact Ha|].
    destruct (Str.includes ["page"; "limit"] k) eqn:Hr; [|reflexivity].
    apply includes_In in Hr as [<-|[<-|[]]]; congruence.
Qed.

(** X6.  The fragments that [parseUrlParams] returns have distinct keys, and
    [(k, vs)] is one of them exactly when [k] is an allowed key other than
    [page] and [limit] and [vs] is the non-empty list of all values of the
    entries named [k] or [k[]], in the order of the query string. *)
Theorem decoded_fragments allowed search p :
  Report.parseUrlParams allowed search = Ok p ->
  NoDup (map fst (Report.filters p))
  /\ forall k vs,
       In (k, vs) (Report.filters p)
       <-> In k allowed /\ k <> "page" /\ k <> "limit"
           /\ vs = values_for k (URLSearchParams.create search) /\ vs <> [].
Proof.
  intros Hp. pose proof (parseUrlParams_filters _ _ _ Hp) as [[Hnd _] _].
  apply parseUrlParams_inv in Hp as (Hc & _).
  split; [exact Hnd|]. intros k vs.
  pose proof (collect_all_own allowed k _ _ _ Hc) as Hown. cbn [Obj.own] in Hown.
  split.
  - intros Hin. apply own_of_In in Hin; [|exact Hnd]. rewrite Hin in Hown.
    destruct (accepted allowed k) eqn:Ha; [|discriminate].
    apply accepted_spec in Ha as (Ha & Hp & Hl).
    destruct (values_for k (URLSearchParams.create search)); [discriminate|].
    injection Hown as ->. repeat split; auto. discriminate.
  - intros (Ha & Hp & Hl & -> & Hne).
    rewrite (proj2 (accepted_spec allowed k)) in Hown by tauto.
    destruct (values_for k (URLSearchParams.create search)); [congruence|].
    now apply own_Some_In.
Qed.

Lemma decoded_fragments_witness :
  NoDup (map fst [("gender", ["Male"; "Other"]); ("house", ["Red"])])
  /\ forall k vs,
       In (k, vs) [("gender", ["Male"; "Other"]); ("house", ["Red"])]
       <-> In k schoolFilterKeys /\ k <> "page" /\ k <> "limit"
           /\ vs = values_for k
                     (URLSearchParams.create
                        "?gender[]=Male&page=3&house=Red&color=Blue&gender=Other")
           /\ vs <> [].
Proof.
  apply (decoded_fragments schoolFilterKeys
           "?gender[]=Male&page=3&house=Red&color=Blue&gender=Other"
           (Report.Parsed (Int 2) (Int 20)
              [("gender", ["Male"; "Other"]); ("house", ["Red"])])).
  vm_compute. reflexivity.
Defined.

(** ** [parseUrlParams]: when the loop throws *)

Lemma collect_all_throws allowed entries : forall o,
  collect_inv allowed o ->
  Report.collect_all allowed o entries = TypeError
  <-> exists e, In e entries
        /\ accepted allowed (Report.cleanKey (fst e)) = true
        /\ Obj.inherited (Report.cleanKey (fst e)) = true.
Proof.
  induction entries as [|[key value] r IH]; intros o Hinv; cbn [Report.collect_all].
  - split; [discriminate|]. now intros (e & [] & _).
  - destruct (accepted allowed (Report.cleanKey key) && Obj.inherited (Report.cleanKey key))
      eqn:Hbad.
    + apply andb_true_iff in Hbad as [Hacc Hinh].
      assert (Report.collect allowed o (key, value) = TypeError) as ->.
      { unfold Report.collect. unfold accepted in Hacc. rewrite Hacc.
        unfold Obj.get. destruct (Obj.own o (Report.cleanKey key)) as [vs|] eqn:Ho.
        - apply own_Some_In in Ho. destruct Hinv as [_ Hf].
          rewrite Forall_forall in Hf. apply Hf in Ho as (_ & _ & Hni & _).
          cbn [fst] in Hni. congruence.
        - now rewrite Hinh. }
      cbn [bind]. split; [intros _|reflexivity].
      exists (key, value). cbn [fst]. repeat split; auto. now left.
    + destruct (Report.collect allowed o (key, value)) as [o1|] eqn:Hc.
      * cbn [bind]. rewrite (IH o1) by (eapply collect_preserves; eassumption).
        split; intros (e & Hin & Ha & Hi).
        -- exists e. repeat split; auto. now right.
        -- destruct Hin as [<-|Hin]; [|now exists e].
           cbn [fst] in Ha, Hi. rewrite Ha, Hi in Hbad. discriminate.
      * exfalso. unfold Report.collect in Hc. unfold accepted in Hbad.
        destruct (Str.includes allowed (Report.cleanKey key)
                  && negb (Str.includes ["page"; "limit"] (Report.cleanKey key)));
          [|discriminate].
        cbn [andb] in Hbad. unfold Obj.get in Hc.
        destruct (Obj.own o (Report.cleanKey key)); [discriminate|].
        rewrite Hbad in Hc. discriminate.
Qed.

(** X7.  [parseUrlParams] throws exactly when the query string has an entry
    whose key, without its [[]] suffix, is an allowed key other than
    [page] and [limit] and names a property that object literals inherit
    from [Object.prototype]. *)
Theorem parseUrlParams_throws allowed search :
  Report.parseUrlParams allowed search = TypeError
  <-> exists name value,
        In (name, value) (URLSearchParams.create search)
        /\ In (Report.cleanKey name) allowed
        /\ Report.cleanKey name <> "page" /\ Report.cleanKey name <> "limit"
        /\ Obj.inherited (Report.cleanKey name) = true.
Proof.
  assert (Report.parseUrlParams allowed search = TypeError
          <-> Report.collect_all allowed [] (URLSearchParams.create search) = TypeError)
    as ->.
  { unfold Report.parseUrlParams.
    destruct (Report.collect_all allowed [] (URLSearchParams.create search));
      cbn [bind]; split; congruence. }
  rewrite collect_all_throws by apply collect_inv_nil. split.
  - intros ([name value] & Hin & Ha & Hi). exists name, value. cbn [fst] in Ha, Hi.
    apply accepted_spec in Ha. tauto.
  - intros (name & value & Hin & Ha & Hp & Hl & Hi). exists (name, value). cbn [fst].
    split; [exact Hin|]. split; [|exact Hi]. apply accepted_spec. tauto.
Qed.

(** ** [parseUrlParams]: the page *)

(** X8.  The page that [parseUrlParams] returns: 0 when [page] is absent or
    empty; [max(1, z) - 1] when [parseInt] reads the integer [z] (up to
    [2^53]); [NaN] when [parseInt] reads no number; never a negative
    number. *)
Theorem page_decoded allowed search p :
  Report.parseUrlParams allowed search = Ok p ->
  let given := URLSearchParams.get (URLSearchParams.create search) "page" in
  (given = None \/ given = Some EmptyString -> Report.page p = Int 0)
  /\ (forall s z, given = Some s -> Conv.parseInt s = Int z -> z <= two53 ->
      Report.page p = Int (Z.max 1 z - 1))
  /\ (forall s, given = Some s -> s <> EmptyString -> Conv.parseInt s = NaN ->
      Report.page p = NaN)
  /\ (forall z, Report.page p = Int z -> 0 <= z).
Proof.
  intros Hp given. apply parseUrlParams_inv in Hp as (_ & Hpage & _).
  fold given in Hpage. pose proof two53_eq as E.
  split; [|split; [|split]].
  - intros [H|H]; rewrite Hpage, H; reflexivity.
  - intros s z Hs Hz Hb. rewrite Hpage, Hs.
    assert (Report.or_default (Some s) "1" = s) as ->.
    { destruct s; [discriminate Hz|reflexivity]. }
    rewrite Hz. cbn [Num.max Num.sub]. apply to_double_small. lia.
  - intros s Hs Hne Hn. rewrite Hpage, Hs, or_default_some, Hn by exact Hne. reflexivity.
  - intros z Hz. rewrite Hpage in Hz.
    destruct (page_shape (Conv.parseInt (Report.or_default given "1")))
      as [H|[H|(y & Hy & H)]]; rewrite H in Hz; try discriminate.
    injection Hz as <-. exact Hy.
Qed.

Lemma page_decoded_witness :
  let given := URLSearchParams.get (URLSearchParams.create "?page=-4&limit=10") "page" in
  (given = None \/ given = Some EmptyString -> Report.page (Report.Parsed (Int 0) (Int 10) []) = Int 0)
  /\ (forall s z, given = Some s -> Conv.parseInt s = Int z -> z <= two53 ->
      Report.page (Report.Parsed (Int 0) (Int 10) []) = Int (Z.max 1 z - 1))
  /\ (forall s, given = Some s -> s <> EmptyString -> Conv.parseInt s = NaN ->
      Report.page (Report.Parsed (Int 0) (Int 10) []) = NaN)
  /\ (forall z, Report.page (Report.Parsed (Int 0) (Int 10) []) = Int z -> 0 <= z).
Proof.
  apply (page_decoded schoolFilterKeys "?page=-4&limit=10"). vm_compute. reflexivity.
Defined.

(** ** The query string written on a state change *)

Lemma set_add_NoDup s v : NoDup s -> NoDup (Coll.set_add s v).
Proof.
  intros H. unfold Coll.set_add. destruct (Str.includes s v) eqn:Hi; [exact H|].
  apply nodup_snoc; [exact H|]. intros Hin. apply includes_In in Hin. congruence.
Qed.

Lemma set_add_all_NoDup values : forall s, NoDup s -> NoDup (Coll.set_add_all s values).
Proof.
  unfold Coll.set_add_all.
  induction values as [|v r IH]; cbn [fold_left]; intros s H; [exact H|].
  apply IH. now apply set_add_NoDup.
Qed.

Lemma set_add_all_members values : forall s v,
  In v (Coll.set_add_all s values) <-> In v s \/ In v values.
Proof.
  unfold Coll.set_add_all.
  induction values as [|x r IH]; cbn [fold_left In]; intros s v; [tauto|].
  rewrite IH. unfold Coll.set_add. destruct (Str.includes s x) eqn:Hi.
  - apply includes_In in Hi. split; [tauto|]. intros [H|[<-|H]]; auto.
  - rewrite in_app_iff. cbn [In]. tauto.
Qed.

(** A [Set] built from an array: no value twice, the same values. *)
Lemma new_Set_spec values :
  NoDup (Coll.new_Set values)
  /\ forall v, In v (Coll.new_Set values) <-> In v values.
Proof.
  unfold Coll.new_Set. split.
  - apply set_add_all_NoDup. constructor.
  - intros v. rewrite set_add_all_members. cbn [In]. tauto.
Qed.

Lemma keys_distinct_values fs : keys (distinct_values fs) = keys fs.
Proof. unfold keys, distinct_values. rewrite map_map. reflexivity. Qed.

Lemma consolidate_distinct rest : forall o,
  enumerated (keys (o ++ rest)%list) ->
  (forall f, In f rest -> Obj.inherited (fst f) = false) ->
  Report.consolidate_all o rest = Ok (o ++ distinct_values rest)%list.
Proof.
  induction rest as [|[k vs] rest IH]; intros o He Hf; cbn [Report.consolidate_all].
  - cbn [distinct_values map]. now rewrite app_nil_r.
  - pose proof (Hf (k, vs) (or_introl eq_refl)) as Hinh. cbn [fst] in Hinh.
    pose proof He as [Hkeys Hsort]. rewrite keys_app in Hkeys, Hsort.
    cbn [keys map fst] in Hkeys, Hsort.
    assert (~ In k (keys o)) as Hk.
    { apply NoDup_remove_2 in Hkeys. rewrite in_app_iff in Hkeys. tauto. }
    unfold Report.consolidate, Obj.get.
    rewrite (proj2 (own_None o k) Hk), Hinh.
    rewrite assign_define by exact Hinh.
    rewrite define_last; [|exact Hk|eapply sorted_middle; exact Hsort].
    cbn [bind].
    rewrite IH; [| |intros f Hin; apply Hf; now right].
    + cbn [distinct_values map fst snd]. now rewrite <- app_assoc.
    + rewrite !keys_app. cbn [keys map fst]. rewrite <- app_assoc. cbn [app].
      split; assumption.
Qed.

(** X9.  On fragments with distinct keys in enumeration order, none of them an
    inherited name, the state-change serializer writes what the
    initialization serializer writes for the same fragments with every
    repeated value dropped: same keys, and under each key the values of
    the fragment, each once. *)
Theorem syncQuery_distinct pg l (fs : list fragment) :
  enumerated (map fst fs) ->
  (forall f, In f fs -> Obj.inherited (fst f) = false) ->
  Report.syncQuery pg l fs = Ok (Report.initQuery pg l (distinct_values fs))
  /\ map fst (distinct_values fs) = map fst fs
  /\ forall k vs, In (k, vs) (distinct_values fs) ->
       NoDup vs /\ exists ws, In (k, ws) fs /\ forall v, In v vs <-> In v ws.
Proof.
  intros He Hf. split; [|split].
  - unfold Report.syncQuery, Report.initQuery.
    rewrite (consolidate_distinct fs []) by assumption.
    cbn [bind app]. reflexivity.
  - apply keys_distinct_values.
  - intros k vs Hin. unfold distinct_values in Hin.
    apply in_map_iff in Hin as ([k' ws] & [= <- <-] & Hin). cbn [fst snd].
    split; [apply new_Set_spec|]. exists ws. split; [exact Hin|apply new_Set_spec].
Qed.

Lemma syncQuery_distinct_witness :
  Report.syncQuery (Int 0) (Int 20) [("gender", ["Male"; "Male"; "Female"; "Male"])]
  = Ok (Report.initQuery (Int 0) (Int 20)
          (distinct_values [("gender", ["Male"; "Male"; "Female"; "Male"])]))
  /\ map fst (distinct_values [("gender", ["Male"; "Male"; "Female"; "Male"])])
     = map fst [("gender", ["Male"; "Male"; "Female"; "Male"])]
  /\ forall k vs,
       In (k, vs) (distinct_values [("gender", ["Male"; "Male"; "Female"; "Male"])]) ->
       NoDup vs
       /\ exists ws, In (k, ws) [("gender", ["Male"; "Male"; "Female"; "Male"])]
                     /\ forall v, In v vs <-> In v ws.
Proof.
  apply (syncQuery_distinct (Int 0) (Int 20) [("gender", ["Male"; "Male"; "Female"; "Male"])]).
  - split; repeat constructor; simpl; tauto.
  - intros f [<-|[]]. reflexivity.
Defined.

(** ** Reloading the page on the query string it wrote *)

(** Decoding what the initialization serializer writes for a state in
    the form [parseUrlParams] returns. *)
Lemma reparse_state allowed pg l (fs : list fragment) :
  pg = NaN \/ (exists y, 0 <= y /\ y + 1 < two53 /\ pg = Int y) ->
  l = NaN \/ (exists n, 1 <= n <= 50 /\ l = Int n) ->
  collect_inv allowed fs ->
  Report.parseUrlParams allowed ("?" ++ Report.initQuery pg l fs)
  = Ok (Report.Parsed pg l fs).
Proof.
  intros Hpg Hl [Hen Hcol].
  unfold Report.parseUrlParams. rewrite initQuery_pairs.
  cbn [URLSearchParams.get String.eqb Ascii.eqb Bool.eqb].
  cbn [Report.collect_all].
  assert (Hskip : forall v o name,
             Str.includes ["page"; "limit"] name = true ->
             Report.cleanKey name = name ->
             Report.collect allowed o (name, v) = Ok o).
  { intros v o name H1 H2. unfold Report.collect. rewrite H2, H1.
    now rewrite andb_false_r. }
  rewrite Hskip by reflexivity. cbn [bind].
  rewrite Hskip by reflexivity. cbn [bind].
  rewrite (collect_rebuild allowed fs []) by assumption.
  cbn [bind app]. unfold Obj.entries. rewrite map_pair_id.
  now rewrite reread_page, reread_limit.
Qed.

Lemma new_Set_not_empty values : values <> [] -> Coll.new_Set values <> [].
Proof.
  destruct values as [|v r]; [congruence|]. intros _ H.
  pose proof (proj2 (proj2 (new_Set_spec (v :: r)) v) (or_introl eq_refl)) as Hin.
  now rewrite H in Hin.
Qed.

Lemma distinct_values_inv allowed fs :
  collect_inv allowed fs -> collect_inv allowed (distinct_values fs).
Proof.
  intros [He Hc]. split; [now rewrite keys_distinct_values|].
  unfold distinct_values. rewrite Forall_forall in *.
  intros f Hin. apply in_map_iff in Hin as (g & <- & Hg).
  destruct (Hc g Hg) as (H1 & H2 & H3 & H4). repeat split; cbn [fst snd]; auto.
  now apply new_Set_not_empty.
Qed.

(** X10.  Loading the page on the query string that the URL-sync effect wrote
    for a state with page [y >= 0] ([y + 1] below [2^53]), a limit in
    [1 .. 50] and fragments as [parseUrlParams] builds them restores that
    page, limit and fragments (repeated values dropped), and the
    initialization effect does not navigate. *)
Theorem reload_restores_state {Col Row} allowed (y n : Z) (fs : list fragment) :
  0 <= y -> y + 1 < two53 -> 1 <= n <= 50 ->
  enumerated (map fst fs) ->
  Forall (collected allowed) fs ->
  exists q,
    Report.syncQuery (Int y) (Int n) fs = Ok q
    /\ Report.initEffect allowed ("?" ++ q) (@mount Col Row)
       = Ok (mount |> setPageNumber (Int y) |> setItemsPerPage (Int n)
                   |> setAppliedFilter (distinct_values fs)
                   |> setInitialized true,
             None).
Proof.
  intros Hy Hb Hn He Hc. exists (Report.initQuery (Int y) (Int n) (distinct_values fs)).
  split.
  - unfold Report.syncQuery, Report.initQuery.
    rewrite (consolidate_distinct fs []); [reflexivity|exact He|].
    intros f Hf. rewrite Forall_forall in Hc. now apply Hc in Hf as (_ & _ & H & _).
  - unfold Report.initEffect. cbn [initialized mount].
    rewrite (reparse_state allowed (Int y) (Int n) (distinct_values fs)).
    + cbn [bind Report.page Report.limit Report.filters Str.slice1 String.append].
      now rewrite String.eqb_refl.
    + right. exists y. auto.
    + right. exists n. auto.
    + apply distinct_values_inv. now split.
Qed.

Lemma reload_restores_state_witness :
  exists q,
    Report.syncQuery (Int 2) (Int 10) [("gender", ["Male"; "Male"]); ("house", ["Red"])] = Ok q
    /\ Report.initEffect schoolFilterKeys ("?" ++ q) (@mount string string)
       = Ok (mount |> setPageNumber (Int 2) |> setItemsPerPage (Int 10)
                   |> setAppliedFilter
                        (distinct_values [("gender", ["Male"; "Male"]); ("house", ["Red"])])
                   |> setInitialized true,
             None).
Proof.
  apply (reload_restores_state schoolFilterKeys 2 10
           [("gender", ["Male"; "Male"]); ("house", ["Red"])]).
  - lia.
  - reflexivity.
  - lia.
  - split; repeat constructor; simpl; intuition discriminate.
  - repeat constructor; simpl; auto; discriminate.
Defined.

(** ** The first load *)

(** X11.  After the initialization effect, with the location it navigated to if
    it did, the URL-sync effect does not navigate again and a second run of
    the initialization effect changes nothing, provided no allowed key is an
    inherited name and no value is repeated under a key. *)
Theorem first_load_settles_url {Col Row} allowed search (s : view Col Row) nav :
  Report.initEffect allowed search mount = Ok (s, nav) ->
  (forall k, In k allowed -> Obj.inherited k = false) ->
  (forall f, In f (appliedFilter s) -> NoDup (snd f)) ->
  let location :=
    match nav with
    | Some n => "?" ++ Report.query n
    | None => search
    end in
  Report.syncEffect location s = Ok None
  /\ Report.initEffect allowed location s = Ok (s, None).
Proof.
  intros Hinit Hal Hnd location.
  assert (Hr : Report.reachable allowed search s) by (econstructor; exact Hinit).
  unfold Report.initEffect in Hinit. cbn [initialized mount] in Hinit.
  destruct (Report.parseUrlParams allowed search) as [p|] eqn:Hp; [|discriminate].
  cbn [bind] in Hinit. injection Hinit as <- <-.
  unfold Report.syncEffect, Report.initEffect. cbn [initialized setInitialized negb].
  split; [|reflexivity].
  rewrite (reachable_queries_coincide _ _ _ Hr Hal Hnd). cbn [bind].
  cbn [pageNumber itemsPerPage appliedFilter setInitialized setAppliedFilter
       setItemsPerPage setPageNumber mount].
  subst location.
  destruct (String.eqb
              (Report.initQuery (Report.page p) (Report.limit p) (Report.filters p))
              (Str.slice1 search)) eqn:Hq.
  - now rewrite Hq.
  - cbn [Report.query Str.slice1 String.append]. now rewrite String.eqb_refl.
Qed.

Lemma first_load_settles_url_witness :
  let s : view string string :=
    View false EmptyString "info" true (Int 2) (Int 20) [] [] (Int 0)
      [("gender", ["Male"])] false true [] in
  let nav := Some (Report.Navigate "page=3&limit=20&gender%5B%5D=Male" true) in
  let location :=
    match nav with
    | Some n => "?" ++ Report.query n
    | None => "?gender=Male&page=3&x=1"
    end in
  Report.syncEffect location s = Ok None
  /\ Report.initEffect schoolFilterKeys location s = Ok (s, None).
Proof.
  apply (first_load_settles_url schoolFilterKeys "?gender=Male&page=3&x=1").
  - vm_compute. reflexivity.
  - intros k [<-|[<-|[<-|[]]]]; reflexivity.
  - intros f [<-|[]]. repeat constructor; simpl; tauto.
Defined.

(** ** The drawer: seeding, resetting, applying *)

Lemma own_assign {V} (o : Obj.t V) k' v k :
  k <> "__proto__" ->
  Obj.own (Obj.assign o k' v) k = if String.eqb k' k then Some v else Obj.own o k.
Proof.
  intros Hk. unfold Obj.assign.
  destruct (String.eqb_spec k' "__proto__") as [->|Hne]; [|apply own_define].
  destruct (String.eqb_spec "__proto__" k) as [<-|_]; [congruence|].
  destruct (Obj.own o "__proto__"); [|reflexivity].
  rewrite own_replace. now destruct (String.eqb_spec "__proto__" k) as [<-|_]; [congruence|].
Qed.

Lemma valid_options_complete allowed key :
  In key allowed ->
  Coll.map_get (FilterComponent.filterKeyToValidOptionsMap allowed) key
  = Some (Coll.new_Set (Api.getMockFilterOptions (FilterComponent.getFilterName key))).
Proof.
  unfold FilterComponent.filterKeyToValidOptionsMap.
  set (opts := Coll.new_Set (Api.getMockFilterOptions (FilterComponent.getFilterName key))).
  assert (G : forall l (m : list (string * list string)),
             In key l \/ Coll.map_get m key = Some opts ->
             Coll.map_get
               (fold_left
                  (fun m key =>
                     Coll.map_set m key
                       (Coll.new_Set (Api.getMockFilterOptions (FilterComponent.getFilterName key))))
                  l m) key = Some opts).
  { induction l as [|x l IH]; cbn [fold_left In]; intros m H; [tauto|].
    apply IH. rewrite own_map_set.
    destruct (String.eqb_spec x key) as [->|Hne]; [now right|].
    destruct H as [[H|H]|H]; [congruence|now left|now right]. }
  intros H. apply G. now left.
Qed.

Lemma valid_options_none allowed key :
  ~ In key allowed ->
  Coll.map_get (FilterComponent.filterKeyToValidOptionsMap allowed) key = None.
Proof.
  intros H.
  destruct (Coll.map_get (FilterComponent.filterKeyToValidOptionsMap allowed) key) eqn:E;
    [|reflexivity].
  now apply valid_options_lookup in E as [Hin _].
Qed.

Lemma set_has_new_Set values v :
  Coll.set_has (Coll.new_Set values) v = Str.includes values v.
Proof.
  unfold Coll.set_has.
  destruct (Str.includes values v) eqn:H.
  - apply includes_In. apply includes_In in H. now apply (proj2 (new_Set_spec values) v).
  - destruct (Str.includes (Coll.new_Set values) v) eqn:H'; [|reflexivity].
    apply includes_In in H'. apply (proj2 (new_Set_spec values) v) in H'.
    apply includes_In in H'. congruence.
Qed.

(** One turn of the loop that builds [initialTemp]. *)
Lemma initialTemp_turn allowed key (values : list string) (acc : Obj.t (list string)) :
  match Coll.map_get (FilterComponent.filterKeyToValidOptionsMap allowed) key with
  | Some validOptions =>
      Obj.assign acc key (filter (fun value => Coll.set_has validOptions value) values)
  | None => acc
  end
  = if Str.includes allowed key then Obj.assign acc key (valid_values key values) else acc.
Proof.
  destruct (Str.includes allowed key) eqn:Hal.
  - apply includes_In in Hal. rewrite valid_options_complete by exact Hal.
    f_equal. unfold valid_values. apply filter_ext. intros v. apply set_has_new_Set.
  - rewrite valid_options_none; [reflexivity|].
    intros Hin. apply includes_In in Hin. congruence.
Qed.

Lemma initialTemp_fold allowed fs :
  FilterComponent.initialTemp allowed fs
  = fold_left
      (fun (acc : Obj.t (list string)) (f : fragment) =>
         if Str.includes allowed (fst f)
         then Obj.assign acc (fst f) (valid_values (fst f) (snd f)) else acc)
      fs [].
Proof.
  unfold FilterComponent.initialTemp. generalize (@nil (string * list string)).
  induction fs as [|[key values] fs IH]; intros acc; cbn [fold_left fst snd]; [reflexivity|].
  now rewrite initialTemp_turn, IH.
Qed.

Lemma initialTemp_own allowed fs k :
  k <> "__proto__" ->
  Obj.own (FilterComponent.initialTemp allowed fs) k
  = if Str.includes allowed k then option_map (valid_values k) (latest fs k) else None.
Proof.
  intros Hk. rewrite initialTemp_fold. unfold latest. rewrite <- own_find.
  assert (G : forall (acc : Obj.t (list string)),
             Obj.own
               (fold_left
                  (fun (acc : Obj.t (list string)) (f : fragment) =>
                     if Str.includes allowed (fst f)
                     then Obj.assign acc (fst f) (valid_values (fst f) (snd f)) else acc)
                  fs acc) k
             = if Str.includes allowed k then
                 match Obj.own (rev fs) k with
                 | Some vs => Some (valid_values k vs)
                 | None => Obj.own acc k
                 end
               else Obj.own acc k).
  { induction fs as [|[key values] fs IH]; intros acc; cbn [fold_left rev fst snd].
    - now destruct (Str.includes allowed k).
    - rewrite IH. unfold fragment. rewrite own_app.
      destruct (Str.includes allowed k) eqn:Hal.
      + destruct (Obj.own (rev _) k); [reflexivity|].
        destruct (String.eqb_spec key k) as [->|Hne].
        * rewrite Hal, own_assign by exact Hk. now rewrite String.eqb_refl.
        * destruct (Str.includes allowed key); [|reflexivity].
          rewrite own_assign by exact Hk. now destruct (String.eqb_spec key k).
      + destruct (Str.includes allowed key) eqn:Hal'; [|reflexivity].
        rewrite own_assign by exact Hk.
        destruct (String.eqb_spec key k) as [->|Hne]; [congruence|reflexivity]. }
  rewrite G. cbn [Obj.own].
  destruct (Str.includes allowed k); [|reflexivity].
  now destruct (Obj.own (rev fs) k).
Qed.

(** X12.  Opening the drawer leaves [appliedFilter] alone and seeds
    [tempFilters]: under a key [k] other than [__proto__] it holds, when
    [k] is allowed, the values of the last applied fragment named [k] that
    the option source lists for [k], in their order, and nothing when [k]
    is not allowed or has no fragment. *)
Theorem drawer_seed {Col Row} allowed (s : view Col Row) (k : string) :
  k <> "__proto__" ->
  let s' := Report.handle allowed Report.OpenFilter s in
  Obj.own (tempFilters s') k
  = (if Str.includes allowed k
     then option_map (valid_values k) (latest (appliedFilter s) k)
     else None)
  /\ appliedFilter s' = appliedFilter s
  /\ filterOpen s' = true.
Proof.
  intros Hk s'. subst s'. cbn [Report.handle].
  unfold FilterComponent.useState_tempFilters.
  cbn [tempFilters appliedFilter filterOpen setTempFilters setFilterOpen].
  split; [now apply initialTemp_own|]. split; reflexivity.
Qed.

Lemma drawer_seed_witness :
  let s := setAppliedFilter [("gender", ["Male"; "Other"]); ("colour", ["Red"])]
             (@mount string string) in
  let s' := Report.handle schoolFilterKeys Report.OpenFilter s in
  Obj.own (tempFilters s') "gender"
  = (if Str.includes schoolFilterKeys "gender"
     then option_map (valid_values "gender") (latest (appliedFilter s) "gender")
     else None)
  /\ appliedFilter s' = appliedFilter s
  /\ filterOpen s' = true.
Proof.
  apply (drawer_seed schoolFilterKeys
           (setAppliedFilter [("gender", ["Male"; "Other"]); ("colour", ["Red"])]
              (@mount string string)) "gender").
  discriminate.
Defined.

(** X13.  Opening the drawer and applying at once closes it and leaves in
    [appliedFilter] only fragments with an allowed key and a non-empty list
    of values that the option source lists for that key. *)
Theorem open_then_apply {Col Row} allowed (s : view Col Row) :
  let s' :=
    Report.handle allowed Report.ApplyFilters (Report.handle allowed Report.OpenFilter s) in
  filterOpen s' = false
  /\ forall k vs, In (k, vs) (appliedFilter s') ->
       In k allowed /\ vs <> []
       /\ forall v, In v vs ->
            In v (Api.getMockFilterOptions (FilterComponent.getFilterName k)).
Proof.
  intros s'. subst s'. cbn [Report.handle].
  unfold FilterComponent.applyFilters, FilterComponent.useState_tempFilters.
  cbn [tempFilters appliedFilter filterOpen setTempFilters setFilterOpen setAppliedFilter].
  split; [reflexivity|]. intros k vs Hin.
  assert (vs <> []) as Hne.
  { unfold FilterComponent.newAppliedFilter, Obj.entries in Hin.
    rewrite map_pair_id in Hin. apply filter_In in Hin as [_ Hlen].
    cbn [snd] in Hlen. now destruct vs. }
  apply newAppliedFilter_In, initialTemp_sound in Hin as [Hal Hv].
  auto.
Qed.

(** ** Reset *)

Lemma resetTemp_own allowed k :
  k <> "__proto__" ->
  Obj.own (FilterComponent.resetTemp allowed) k
  = if Str.includes allowed k then Some [] else None.
Proof.
  intros Hk. unfold FilterComponent.resetTemp.
  assert (G : forall l (acc : Obj.t (list string)),
             Obj.own (fold_left (fun acc key => Obj.assign acc key []) l acc) k
             = if Str.includes l k then Some [] else Obj.own acc k).
  { induction l as [|x l IH]; intros acc; cbn [fold_left]; [reflexivity|].
    rewrite IH, own_assign by exact Hk.
    unfold Str.includes. cbn [existsb]. rewrite (String.eqb_sym k x).
    destruct (existsb (String.eqb k) l); [now rewrite orb_true_r|].
    rewrite orb_false_r. reflexivity. }
  now rewrite G.
Qed.

Lemma resetTemp_values allowed kv :
  In kv (FilterComponent.resetTemp allowed) -> snd kv = [].
Proof.
  unfold FilterComponent.resetTemp.
  assert (G : forall l (acc : Obj.t (list string)),
             (forall kv, In kv acc -> snd kv = []) ->
             forall kv, In kv (fold_left (fun acc key => Obj.assign acc key []) l acc) ->
                        snd kv = []).
  { induction l as [|x l IH]; cbn [fold_left]; intros acc Hacc; [exact Hacc|].
    apply IH. intros [k' vs'] Hin.
    apply In_assign in Hin as [[-> ->]|Hin]; [reflexivity|now apply Hacc]. }
  revert kv. apply G. intros ? [].
Qed.

(** X14.  [resetFilters] empties [appliedFilter], closes the drawer and leaves
    the page and the limit alone; [tempFilters] then holds the empty list
    under every allowed key (other than [__proto__]) and nothing else, so
    that applying it gives no fragment. *)
Theorem reset_clears {Col Row} allowed (s : view Col Row) :
  let s' := FilterComponent.resetFilters allowed s in
  appliedFilter s' = [] /\ filterOpen s' = false
  /\ (forall k, k <> "__proto__" ->
      Obj.own (tempFilters s') k = if Str.includes allowed k then Some [] else None)
  /\ FilterComponent.newAppliedFilter (tempFilters s') = []
  /\ pageNumber s' = pageNumber s /\ itemsPerPage s' = itemsPerPage s.
Proof.
  intros s'. subst s'. unfold FilterComponent.resetFilters.
  cbn [tempFilters appliedFilter filterOpen pageNumber itemsPerPage
       setTempFilters setFilterOpen setAppliedFilter].
  split; [reflexivity|]. split; [reflexivity|].
  split; [intros k Hk; now apply resetTemp_own|].
  split; [|split; reflexivity].
  unfold FilterComponent.newAppliedFilter, Obj.entries. rewrite map_pair_id.
  assert (G : forall o : Obj.t (list string),
             (forall kv, In kv o -> snd kv = []) ->
             filter (fun kv : string * list string => (0 <? List.length (snd kv))%nat) o = []).
  { induction o as [|kv o IH]; intros H; cbn [filter]; [reflexivity|].
    rewrite (H kv (or_introl eq_refl)). cbn. apply IH. intros x Hx. apply H. now right. }
  apply G. apply resetTemp_values.
Qed.

(** ** Applying, then reopening *)

Lemma valid_values_all key values :
  (forall v, In v values ->
     In v (Api.getMockFilterOptions (FilterComponent.getFilterName key))) ->
  valid_values key values = values.
Proof.
  unfold valid_values. induction values as [|v r IH]; intros H; cbn [filter]; [reflexivity|].
  rewrite (proj2 (includes_In _ v)) by (apply H; now left).
  f_equal. apply IH. intros x Hx. apply H. now right.
Qed.

Lemma initialTemp_rebuild allowed (rest : list fragment) : forall acc : Obj.t (list string),
  enumerated (keys (acc ++ rest)%list) ->
  (forall k vs, In (k, vs) rest ->
     In k allowed /\ k <> "__proto__"
     /\ forall v, In v vs ->
          In v (Api.getMockFilterOptions (FilterComponent.getFilterName k))) ->
  fold_left
    (fun (acc : Obj.t (list string)) (f : fragment) =>
       if Str.includes allowed (fst f)
       then Obj.assign acc (fst f) (valid_values (fst f) (snd f)) else acc)
    rest acc
  = (acc ++ rest)%list.
Proof.
  induction rest as [|[k vs] rest IH]; intros acc He Hf; cbn [fold_left fst snd].
  - now rewrite app_nil_r.
  - destruct (Hf k vs (or_introl eq_refl)) as (Hal & Hk & Hv).
    rewrite (proj2 (includes_In allowed k) Hal), valid_values_all by exact Hv.
    pose proof He as [Hkeys Hsort]. rewrite keys_app in Hkeys, Hsort.
    cbn [keys map fst] in Hkeys, Hsort.
    assert (~ In k (keys acc)) as Hn.
    { apply NoDup_remove_2 in Hkeys. rewrite in_app_iff in Hkeys. tauto. }
    unfold Obj.assign. rewrite (proj2 (String.eqb_neq k "__proto__") Hk).
    rewrite define_last; [|exact Hn|eapply sorted_middle; exact Hsort].
    rewrite IH; [now rewrite <- app_assoc| |intros k' vs' Hin; apply Hf; now right].
    now rewrite <- app_assoc.
Qed.

(** X15.  When the entries of [tempFilters] have distinct keys in enumeration
    order, all allowed and none [__proto__], and only values that the option
    source lists, applying and then opening the drawer again seeds it with
    exactly what was applied: the entries that had at least one value. *)
Theorem apply_then_reopen {Col Row} allowed (s : view Col Row) :
  enumerated (keys (tempFilters s)) ->
  (forall k vs, In (k, vs) (tempFilters s) ->
     In k allowed /\ k <> "__proto__"
     /\ forall v, In v vs ->
          In v (Api.getMockFilterOptions (FilterComponent.getFilterName k))) ->
  let applied := Report.handle allowed Report.ApplyFilters s in
  let reopened := Report.handle allowed Report.OpenFilter applied in
  tempFilters reopened = appliedFilter applied
  /\ forall k vs, In (k, vs) (tempFilters reopened)
       <-> In (k, vs) (tempFilters s) /\ vs <> [].
Proof.
  intros He Hf applied reopened. subst applied reopened. cbn [Report.handle].
  unfold FilterComponent.applyFilters, FilterComponent.useState_tempFilters.
  cbn [tempFilters appliedFilter filterOpen setTempFilters setFilterOpen setAppliedFilter].
  unfold FilterComponent.newAppliedFilter, Obj.entries. rewrite map_pair_id.
  set (t := filter (fun kv : string * list string => (0 <? List.length (snd kv))%nat)
              (tempFilters s)).
  assert (E : FilterComponent.initialTemp allowed t = t).
  { rewrite initialTemp_fold. apply (initialTemp_rebuild allowed t []).
    - cbn [app]. now apply filter_enumerated.
    - intros k vs Hin. apply filter_In in Hin as [Hin _]. now apply Hf. }
  rewrite E. split; [reflexivity|]. intros k vs. subst t. rewrite filter_In. cbn [snd].
  split; intros [H1 H2]; (split; [exact H1|]); now destruct vs.
Qed.

Lemma apply_then_reopen_witness :
  let s := setTempFilters [("gender", ["Male"]); ("house", []); ("studentClass", ["5"; "7"])]
             (@mount string string) in
  let applied := Report.handle schoolFilterKeys Report.ApplyFilters s in
  let reopened := Report.handle schoolFilterKeys Report.OpenFilter applied in
  tempFilters reopened = appliedFilter applied
  /\ forall k vs, In (k, vs) (tempFilters reopened)
       <-> In (k, vs) (tempFilters s) /\ vs <> [].
Proof.
  apply (apply_then_reopen schoolFilterKeys
           (setTempFilters [("gender", ["Male"]); ("house", []); ("studentClass", ["5"; "7"])]
              (@mount string string))).
  - split; repeat constructor; simpl; intuition discriminate.
  - intros k vs [[= <- <-]|[[= <- <-]|[[= <- <-]|[]]]];
      (split; [simpl; tauto|split; [discriminate|]]); simpl; tauto.
Defined.

(** ** The pagination correction ends *)

(** A fetch that closed over page 0 is never corrected. *)
Lemma first_page_committed {Col Row} (f : Report.fetch) dataMapping rows total
    (s : view Col Row) :
  Report.f_pageNumber f = Int 0 ->
  let s' := Report.fetchData_settle f (Report.Resolved (Report.Data dataMapping rows total)) s in
  columnTitles s' = Report.or_else dataMapping []
  /\ rowsData s' = Report.or_else rows []
  /\ totalItems s' = Report.total_or_zero total
  /\ pageNumber s' = pageNumber s
  /\ showLoader s' = false.
Proof.
  intros Hf s'. subst s'. unfold Report.fetchData_settle, Report.on_data. rewrite Hf.
  set (totalPages := ceil_div (Report.to_number total) (Report.f_itemsPerPage f)).
  assert (Num.ge (Int 0) totalPages && Num.gt totalPages (Int 0) = false) as ->.
  { destruct totalPages as [| | |z]; try reflexivity.
    rewrite ge_Int, gt_Int. destruct (Z.leb_spec z 0), (Z.ltb_spec 0 z); lia || reflexivity. }
  replace (negb (Num.strict_eq (Int 0) (Int 0))) with false by reflexivity.
  rewrite andb_false_r.
  destruct (Report.no_rows rows && Num.gt (Report.to_number total) (Int 0));
    [|destruct (Num.strict_eq (Report.to_number total) (Int 0))]; repeat split.
Qed.

(** X16.  A fetch that resolves with an object either is displayed, or resets
    the page to 0 and leaves the display alone; in the second case the
    fetch started next from that view is displayed whatever it returns, so
    the pagination correction never repeats. *)
Theorem correction_is_final {Col Row} (f : Report.fetch) dataMapping rows total
    (s : view Col Row) :
  let s1 := Report.fetchData_settle f (Report.Resolved (Report.Data dataMapping rows total)) s in
  (columnTitles s1 = Report.or_else dataMapping []
   /\ rowsData s1 = Report.or_else rows []
   /\ totalItems s1 = Report.total_or_zero total
   /\ pageNumber s1 = pageNumber s)
  \/ (pageNumber s1 = Int 0
      /\ columnTitles s1 = columnTitles s /\ rowsData s1 = rowsData s
      /\ totalItems s1 = totalItems s
      /\ forall dataMapping' rows' total',
           let started := Report.fetchData_start s1 in
           let s2 :=
             Report.fetchData_settle (snd started)
               (Report.Resolved (Report.Data dataMapping' rows' total')) (fst started) in
           columnTitles s2 = Report.or_else dataMapping' []
           /\ rowsData s2 = Report.or_else rows' []
           /\ totalItems s2 = Report.total_or_zero total'
           /\ pageNumber s2 = Int 0).
Proof.
  intros s1.
  assert (Hnext : pageNumber s1 = Int 0 ->
            forall dataMapping' rows' total',
              let started := Report.fetchData_start s1 in
              let s2 :=
                Report.fetchData_settle (snd started)
                  (Report.Resolved (Report.Data dataMapping' rows' total')) (fst started) in
              columnTitles s2 = Report.or_else dataMapping' []
              /\ rowsData s2 = Report.or_else rows' []
              /\ totalItems s2 = Report.total_or_zero total'
              /\ pageNumber s2 = Int 0).
  { intros H0 dm' rows' total'. cbn [Report.fetchData_start fst snd].
    destruct (first_page_committed (Report.Fetch (pageNumber s1) (itemsPerPage s1) (appliedFilter s1))
                dm' rows' total' (setShowLoader true s1) H0) as (H1 & H2 & H3 & H4 & _).
    cbv zeta. rewrite H1, H2, H3, H4. repeat split. exact H0. }
  assert (Hcases :
            (columnTitles s1 = Report.or_else dataMapping []
             /\ rowsData s1 = Report.or_else rows []
             /\ totalItems s1 = Report.total_or_zero total
             /\ pageNumber s1 = pageNumber s)
            \/ (pageNumber s1 = Int 0
                /\ columnTitles s1 = columnTitles s /\ rowsData s1 = rowsData s
                /\ totalItems s1 = totalItems s)).
  { subst s1. unfold Report.fetchData_settle, Report.on_data.
    destruct (Num.ge (Report.f_pageNumber f)
                (ceil_div (Report.to_number total) (Report.f_itemsPerPage f))
              && Num.gt (ceil_div (Report.to_number total) (Report.f_itemsPerPage f)) (Int 0));
      [right; repeat split|].
    destruct (Num.strict_eq (ceil_div (Report.to_number total) (Report.f_itemsPerPage f)) (Int 0)
              && negb (Num.strict_eq (Report.f_pageNumber f) (Int 0)));
      [right; repeat split|].
    left.
    destruct (Report.no_rows rows && Num.gt (Report.to_number total) (Int 0));
      [|destruct (Num.strict_eq (Report.to_number total) (Int 0))]; repeat split. }
  destruct Hcases as [H|(H0 & H1 & H2 & H3)]; [left; exact H|right].
  repeat split; try assumption; now apply Hnext.
Qed.

(** ** Views that a mount can reach *)

Lemma reachable_initialized {Col Row} allowed search (s : view Col Row) :
  Report.reachable allowed search s -> initialized s = true.
Proof.
  induction 1 as [s nav Hinit|s e Hr IH Hen].
  - unfold Report.initEffect in Hinit. cbn [initialized mount] in Hinit.
    destruct (Report.parseUrlParams allowed search) as [p|]; [|discriminate].
    cbn [bind] in Hinit. now injection Hinit as <- _.
  - destruct e as [newPage|value| |k vs| | | | | |f o]; cbn [Report.handle]; try exact IH.
    + unfold Report.fetchEffect. rewrite IH. exact IH.
    + now rewrite (proj2 (proj2 (proj2 (proj2 (settle_frame f o s))))).
Qed.

(** X17.  On every view that a mount can reach [initialized] holds: the
    initialization effect changes nothing and navigates nowhere whatever the
    location, and the fetch effect turns the loader on and starts a fetch
    that closes over the current page, limit and filters. *)
Theorem initialized_once {Col Row} allowed search (s : view Col Row) :
  Report.reachable allowed search s ->
  initialized s = true
  /\ (forall search', Report.initEffect allowed search' s = Ok (s, None))
  /\ Report.fetchEffect s
     = (setShowLoader true s,
        Some (Report.Fetch (pageNumber s) (itemsPerPage s) (appliedFilter s))).
Proof.
  intros Hr. pose proof (reachable_initialized _ _ _ Hr) as Hi.
  split; [exact Hi|]. split.
  - intros search'. unfold Report.initEffect. now rewrite Hi.
  - unfold Report.fetchEffect. now rewrite Hi.
Qed.

Lemma initialized_once_witness :
  let s : view string string :=
    View false EmptyString "info" true (Int 0) (Int 20) [] [] (Int 0) [] false true [] in
  initialized s = true
  /\ (forall search', Report.initEffect schoolFilterKeys search' s = Ok (s, None))
  /\ Report.fetchEffect s
     = (setShowLoader true s,
        Some (Report.Fetch (pageNumber s) (itemsPerPage s) (appliedFilter s))).
Proof.
  apply (initialized_once schoolFilterKeys EmptyString).
  apply (Report.reach_init schoolFilterKeys EmptyString _
           (Some (Report.Navigate "page=1&limit=20" true))).
  vm_compute. reflexivity.
Defined.

(** ** The rows-per-page select *)

(** X18.  Choosing [n] rows per page ([n] below [2^53], given as a number or as
    its decimal text) sets [itemsPerPage] to [n] and the page to 0, and
    leaves the filters and the displayed rows and total alone. *)
Theorem rows_per_page_chosen {Col Row} (n : Z) (s : view Col Row) :
  0 <= n < two53 ->
  let s' := DynamicTable.handleChangeRowsPerPage (Conv.toString (Int n)) s in
  itemsPerPage s' = Int n /\ pageNumber s' = Int 0
  /\ appliedFilter s' = appliedFilter s
  /\ rowsData s' = rowsData s /\ totalItems s' = totalItems s.
Proof.
  intros Hn s'. subst s'. unfold DynamicTable.handleChangeRowsPerPage.
  cbn [itemsPerPage pageNumber appliedFilter rowsData totalItems
       setItemsPerPage setPageNumber].
  rewrite parseInt_toString by exact Hn. repeat split.
Qed.

Lemma rows_per_page_chosen_witness :
  let s' := DynamicTable.handleChangeRowsPerPage (Conv.toString (Int 50)) (@mount string string) in
  itemsPerPage s' = Int 50 /\ pageNumber s' = Int 0
  /\ appliedFilter s' = appliedFilter (@mount string string)
  /\ rowsData s' = rowsData (@mount string string)
  /\ totalItems s' = totalItems (@mount string string).
Proof.
  apply (rows_per_page_chosen 50 (@mount string string)). split; [lia|reflexivity].
Defined.

(** ** The URL-sync effect on reachable views *)

(** X19.  On every view that a mount can reach, when no allowed key is an
    inherited name, the URL-sync effect does not throw: it computes the
    query string of the page, the limit and the fragments with repeated
    values dropped, and navigates to it (without [replace]) exactly when it
    differs from the current one. *)
Theorem sync_on_reachable {Col Row} allowed search (s : view Col Row) (location : string) :
  Report.reachable allowed search s ->
  (forall k, In k allowed -> Obj.inherited k = false) ->
  let q :=
    Report.initQuery (pageNumber s) (itemsPerPage s) (distinct_values (appliedFilter s)) in
  Report.syncEffect location s
  = Ok (if String.eqb q (Str.slice1 location) then None
        else Some (Report.Navigate q false)).
Proof.
  intros Hr Hal q. subst q. unfold Report.syncEffect.
  rewrite (reachable_initialized _ _ _ Hr). cbn [negb].
  unfold Report.syncQuery, Report.initQuery.
  rewrite (consolidate_distinct (appliedFilter s) []).
  - reflexivity.
  - exact (proj1 (reachable_enumerated _ _ _ Hr)).
  - intros f Hf. apply Hal. exact (proj1 (reachable_keys _ _ _ Hr) f Hf).
Qed.

Lemma sync_on_reachable_witness :
  let s : view string string :=
    View false EmptyString "info" true (Int 0) (Int 20) [] [] (Int 0)
      [("house", ["Red"; "Red"])] false true [] in
  let q :=
    Report.initQuery (pageNumber s) (itemsPerPage s) (distinct_values (appliedFilter s)) in
  Report.syncEffect "?page=1&limit=20&house%5B%5D=Red&house%5B%5D=Red" s
  = Ok (if String.eqb q (Str.slice1 "?page=1&limit=20&house%5B%5D=Red&house%5B%5D=Red")
        then None
        else Some (Report.Navigate q false)).
Proof.
  apply (sync_on_reachable schoolFilterKeys "?house=Red&house=Red").
  - apply (Report.reach_init schoolFilterKeys "?house=Red&house=Red" _
             (Some (Report.Navigate "page=1&limit=20&house%5B%5D=Red&house%5B%5D=Red" true))).
    vm_compute. reflexivity.
  - intros k [<-|[<-|[<-|[]]]]; reflexivity.
Defined.

(** ** From a selection in the drawer to the parameters of the fetch *)

Lemma own_filter {V} (P : string * V -> bool) (o : Obj.t V) k :
  NoDup (keys o) ->
  Obj.own (filter P o) k
  = match Obj.own o k with
    | Some v => if P (k, v) then Some v else None
    | None => None
    end.
Proof.
  induction o as [|[k' v'] o IH]; cbn [keys map fst filter Obj.own]; intros Hnd;
    [reflexivity|].
  inversion Hnd as [|? ? Hk Hnd']; subst.
  destruct (String.eqb_spec k' k) as [->|Hne].
  - destruct (P (k, v')); cbn [Obj.own]; [now rewrite String.eqb_refl|].
    rewrite IH, (proj2 (own_None o k) Hk) by exact Hnd'. reflexivity.
  - destruct (P (k', v')); cbn [Obj.own]; [|now apply IH].
    destruct (String.eqb_spec k' k); [congruence|now apply IH].
Qed.

Lemma latest_own (fs : list fragment) k :
  NoDup (map fst fs) -> latest fs k = Obj.own fs k.
Proof.
  intros H. unfold latest. rewrite <- own_find. now apply own_rev.
Qed.

(** X20.  Selecting the values [vs] under a key in the drawer and applying
    closes the drawer; when [vs] is not empty [appliedFilter] then has the
    fragment of that key with [vs], and the parameters of the fetch hold
    [vs] under the key; when [vs] is empty no fragment has that key and the
    parameters hold nothing under it beyond the pagination values. *)
Theorem selection_reaches_fetch {Col Row} (s : view Col Row) (k : string)
    (vs : list string) :
  enumerated (keys (tempFilters s)) ->
  let s' := FilterComponent.applyFilters (FilterComponent.handleFilterChange k vs s) in
  let sent := Report.apiParams (pageNumber s') (itemsPerPage s') (appliedFilter s') in
  filterOpen s' = false
  /\ (vs <> [] ->
      In (k, vs) (appliedFilter s') /\ Obj.own sent k = Some (Report.PArray vs))
  /\ (vs = [] ->
      (forall ws, ~ In (k, ws) (appliedFilter s'))
      /\ Obj.own sent k
         = if String.eqb k "page" then Some (Report.PNumber (Num.add (pageNumber s) (Int 1)))
           else if String.eqb k "limit" then Some (Report.PNumber (itemsPerPage s))
           else None).
Proof.
  intros He s' sent. subst sent s'.
  unfold FilterComponent.applyFilters, FilterComponent.handleFilterChange.
  cbn [tempFilters appliedFilter filterOpen pageNumber itemsPerPage
       setTempFilters setFilterOpen setAppliedFilter].
  unfold FilterComponent.newAppliedFilter, Obj.entries. rewrite map_pair_id.
  set (P := fun kv : string * list string => (0 <? List.length (snd kv))%nat).
  pose proof (define_enumerated (tempFilters s) k vs He) as [Hnd _].
  assert (Hown : Obj.own (filter P (Obj.define (tempFilters s) k vs)) k
                 = if P (k, vs) then Some vs else None).
  { rewrite own_filter, own_define by exact Hnd. now rewrite String.eqb_refl. }
  assert (Hnd' : NoDup (map fst (filter P (Obj.define (tempFilters s) k vs)))).
  { exact (proj1 (filter_enumerated P _ (conj Hnd (proj2 (define_enumerated _ k vs He))))). }
  split; [reflexivity|]. split.
  - intros Hne. assert (P (k, vs) = true) as HP by (subst P; cbn; now destruct vs).
    rewrite HP in Hown. split; [now apply own_Some_In|].
    rewrite apiParams_own, latest_own, Hown by exact Hnd'. reflexivity.
  - intros ->. assert (P (k, []) = false) as HP by reflexivity.
    rewrite HP in Hown. split.
    + intros ws Hin. apply own_of_In in Hin; [congruence|exact Hnd'].
    + rewrite apiParams_own, latest_own, Hown by exact Hnd'. reflexivity.
Qed.

Lemma selection_reaches_fetch_witness :
  let s := setTempFilters [("house", ["Red"])] (@mount string string) in
  let s' := FilterComponent.applyFilters
              (FilterComponent.handleFilterChange "gender" ["Female"] s) in
  let sent := Report.apiParams (pageNumber s') (itemsPerPage s') (appliedFilter s') in
  filterOpen s' = false
  /\ (["Female"] <> [] ->
      In ("gender", ["Female"]) (appliedFilter s')
      /\ Obj.own sent "gender" = Some (Report.PArray ["Female"]))
  /\ (["Female"] = [] ->
      (forall ws, ~ In ("gender", ws) (appliedFilter s'))
      /\ Obj.own sent "gender"
         = if String.eqb "gender" "page"
           then Some (Report.PNumber (Num.add (pageNumber s) (Int 1)))
           else if String.eqb "gender" "limit"
           then Some (Report.PNumber (itemsPerPage s))
           else None).
Proof.
  apply (selection_reaches_fetch
           (setTempFilters [("house", ["Red"])] (@mount string string))
           "gender" ["Female"]).
  split; repeat constructor; simpl; tauto.
Defined.
